(** * link-grammar/parse/parse.c: the null-count controller and the
      linkage sampler

    A shallow embedding of [setup_linkages], [process_linkages],
    [sort_linkages] and [classic_parse], and the properties of them that
    the specification states; the last part has further properties that
    the code shows, and the text that [print_chosen_disjuncts_words]
    builds.

    The C functions mutate a [Sentence] and a [Parse_Options] through
    pointers and call into the rest of the library (pruning, counting,
    extraction, morphology check, post-processing, resource accounting).
    Here the mutable data is a [State] passed explicitly, and every call
    that leaves parse.c is appended to a log of [Event]s held in that
    state.  What such a call answers is given by a [Collaborators]
    instance; an answer may depend on the whole log so far, which is how
    the hidden state of the library (the clock behind
    [resources_exhausted], the random state of the extractor, the pruned
    disjuncts) is accounted for.  A collaborator writes only what its type
    here lets it write: the linkage it is handed, or, for post-processing,
    the sentence; the counters and options that parse.c keeps are not
    written by the others.  Diagnostics ([print_time], [prt_error],
    [err_msg]) change nothing that parse.c reads back and are left out. *)

From Stdlib Require Import ZArith Lia Bool.
From Stdlib Require String Sorted.
From stdpp Require Import base list.
Import String.StringSyntax.
Delimit Scope string_scope with string.

Local Open Scope Z_scope.

(** ** Machine integers *)

Definition INT_MAX : Z := 2147483647.

(** Conversion of a value to a 32-bit [int]: wrap-around modulo 2^32. *)
Definition to_int (z : Z) : Z := (z + 2147483648) mod 4294967296 - 2147483648.

(** Conversion of a value to a 64-bit [size_t]. *)
Definition to_size_t (z : Z) : Z := z mod 18446744073709551616.

(** Modelled from the spec: the macro MIN, whose header (utilities.h) is
    not among the sources; the specification writes it as [min]. *)
Definition MIN (x y : Z) : Z := if x <? y then x else y.

(** ** Data *)

(** A [Disjunct *] is kept as a handle; a NULL entry is [None]. *)
Definition Disjunct : Type := Z.

(** The fields of [struct Linkage_s] that parse.c reads or writes. *)
Record Linkage : Type := mkLinkage {
  lifo_index : Z;                          (* lkg->lifo.index *)
  num_links : Z;
  num_words : Z;
  chosen_disjuncts : list (option Disjunct)
}.

(** The fields of [struct Sentence_s] that parse.c reads or writes.
    [lnkages] is [None] for a NULL pointer, and otherwise the array as it
    was allocated: its length is its capacity. *)
Record Sentence : Type := mkSentence {
  sent_length : Z;                         (* sent->length, size_t *)
  null_count : Z;                          (* size_t *)
  num_linkages_found : Z;                  (* int *)
  num_linkages_alloced : Z;                (* size_t *)
  num_linkages_post_processed : Z;         (* size_t *)
  num_valid_linkages : Z;                  (* size_t *)
  lnkages : option (list Linkage);
  rand_state : Z;
  shuffle_linkages : bool                  (* sent->dict->shuffle_linkages *)
}.

Record Parse_Options : Type := mkOptions {
  min_null_count : Z;
  max_null_count : Z;
  linkage_limit : Z;                       (* size_t *)
  compare_fn : Linkage -> Linkage -> Z     (* opts->cost_model.compare_fn *)
}.

(** The histogram that [do_parse] returns. *)
Definition Count_bin : Type := list Z.

(** Calls that leave parse.c, in the order they are made.  An event keeps
    the arguments and the answer that the properties below speak of;
    [Ev_post_process_lkgs] keeps the [num_valid_linkages] that the call
    left in the sentence. *)
Inductive Event : Type :=
| Ev_prepare_to_parse
| Ev_resources_exhausted (answer : bool)
| Ev_save_disjuncts
| Ev_restore_disjuncts
| Ev_pp_and_power_prune (nl : Z) (opts_min_null_count : Z)
| Ev_set_connector_hash (real_suffix_ids : bool)
| Ev_pack_sentence (real_suffix_ids : bool)
| Ev_free_count_context
| Ev_alloc_count_context
| Ev_free_fast_matcher
| Ev_alloc_fast_matcher
| Ev_free_linkages
| Ev_do_parse (null_count : Z) (hist : Count_bin)
| Ev_extractor_new
| Ev_build_parse_set (overflowed : bool)
| Ev_partial_init_linkage (slot : Z)
| Ev_extract_links (slot : Z) (index : Z)
| Ev_compute_link_names (slot : Z)
| Ev_sane_linkage_morphism (lkg : Linkage) (answer : bool)
| Ev_remove_empty_words (slot : Z)
| Ev_free_linkage (slot : Z)
| Ev_free_extractor
| Ev_post_process_lkgs (num_valid_linkages : Z)
| Ev_qsort (nmemb : Z)
| Ev_free_saved_disjuncts (taken : bool).

(** What the rest of the library answers.  The first argument of a
    member, where there is one, is the log of the calls made before. *)
Class Collaborators : Type := {
  resources_exhausted : list Event -> bool;
  set_connector_hash : list Event -> Sentence -> bool;
  do_parse : list Event -> Sentence -> Z -> Parse_Options -> Count_bin;
  hist_total : Count_bin -> Z;
  build_parse_set : list Event -> Sentence -> Z -> Parse_Options -> bool;
  partial_init_linkage : Sentence -> Linkage -> Z -> Linkage;
  extract_links : list Event -> Linkage -> Linkage;
  compute_link_names : Linkage -> Linkage;
  sane_linkage_morphism :
    list Event -> Sentence -> Linkage -> Parse_Options -> bool;
  remove_empty_words : Linkage -> Linkage;
  free_linkage : Linkage -> Linkage;
  post_process_lkgs : list Event -> Sentence -> Parse_Options -> Sentence
}.

Record State : Type := mkState {
  sent : Sentence;
  opts : Parse_Options;
  log : list Event
}.

(** ** Field updates *)

Definition set_lifo_index (v : Z) (l : Linkage) : Linkage :=
  mkLinkage v (num_links l) (num_words l) (chosen_disjuncts l).
Definition set_num_links (v : Z) (l : Linkage) : Linkage :=
  mkLinkage (lifo_index l) v (num_words l) (chosen_disjuncts l).
Definition set_num_words (v : Z) (l : Linkage) : Linkage :=
  mkLinkage (lifo_index l) (num_links l) v (chosen_disjuncts l).
Definition set_chosen_disjuncts (v : list (option Disjunct)) (l : Linkage)
  : Linkage :=
  mkLinkage (lifo_index l) (num_links l) (num_words l) v.

Definition set_null_count (v : Z) (s : Sentence) : Sentence :=
  mkSentence (sent_length s) v (num_linkages_found s)
    (num_linkages_alloced s) (num_linkages_post_processed s)
    (num_valid_linkages s) (lnkages s) (rand_state s) (shuffle_linkages s).
Definition set_num_linkages_found (v : Z) (s : Sentence) : Sentence :=
  mkSentence (sent_length s) (null_count s) v
    (num_linkages_alloced s) (num_linkages_post_processed s)
    (num_valid_linkages s) (lnkages s) (rand_state s) (shuffle_linkages s).
Definition set_num_linkages_alloced (v : Z) (s : Sentence) : Sentence :=
  mkSentence (sent_length s) (null_count s) (num_linkages_found s)
    v (num_linkages_post_processed s)
    (num_valid_linkages s) (lnkages s) (rand_state s) (shuffle_linkages s).
Definition set_num_linkages_post_processed (v : Z) (s : Sentence)
  : Sentence :=
  mkSentence (sent_length s) (null_count s) (num_linkages_found s)
    (num_linkages_alloced s) v
    (num_valid_linkages s) (lnkages s) (rand_state s) (shuffle_linkages s).
Definition set_num_valid_linkages (v : Z) (s : Sentence) : Sentence :=
  mkSentence (sent_length s) (null_count s) (num_linkages_found s)
    (num_linkages_alloced s) (num_linkages_post_processed s)
    v (lnkages s) (rand_state s) (shuffle_linkages s).
Definition set_lnkages (v : option (list Linkage)) (s : Sentence)
  : Sentence :=
  mkSentence (sent_length s) (null_count s) (num_linkages_found s)
    (num_linkages_alloced s) (num_linkages_post_processed s)
    (num_valid_linkages s) v (rand_state s) (shuffle_linkages s).

Definition set_min_null_count (v : Z) (o : Parse_Options) : Parse_Options :=
  mkOptions v (max_null_count o) (linkage_limit o) (compare_fn o).

Definition on_sent (f : Sentence -> Sentence) (st : State) : State :=
  mkState (f (sent st)) (opts st) (log st).
Definition on_opts (f : Parse_Options -> Parse_Options) (st : State)
  : State :=
  mkState (sent st) (f (opts st)) (log st).

(** A call is recorded at the end of the log. *)
Definition emit (e : Event) (st : State) : State :=
  mkState (sent st) (opts st) (log st ++ [e]).

(** ** The linkage array *)

(** A record as [memset] to zero leaves it. *)
Definition zero_linkage : Linkage := mkLinkage 0 0 0 [].

(** [linkage_array_new]: [num_to_alloc] zeroed records ([int] argument;
    a count below zero allocates nothing the model can index). *)
Definition linkage_array_new (num_to_alloc : Z) : list Linkage :=
  replicate (Z.to_nat num_to_alloc) zero_linkage.

(** [sent->lnkages[i]].  The C code indexes without a check; outside the
    array (or with a NULL array) the model reads a zeroed record and a
    write is dropped. *)
Definition get_lkg (s : Sentence) (i : Z) : Linkage :=
  match lnkages s with
  | Some arr => default zero_linkage (arr !! Z.to_nat i)
  | None => zero_linkage
  end.

Definition put_lkg (i : Z) (l : Linkage) (s : Sentence) : Sentence :=
  set_lnkages (option_map (fun arr => <[Z.to_nat i := l]> arr) (lnkages s)) s.

(** A mutation through the pointer [&sent->lnkages[i]]. *)
Definition on_lkg (i : Z) (f : Linkage -> Linkage) (st : State) : State :=
  on_sent (fun s => put_lkg i (f (get_lkg s i)) s) st.

(** [memset(p, 0, n * sizeof( *p))] on a row of [Disjunct *]: the first
    [n] entries become NULL (the row is not grown when it is shorter). *)
Definition memset_null (n : Z) (row : list (option Disjunct))
  : list (option Disjunct) :=
  replicate (Nat.min (Z.to_nat n) (length row)) None ++ drop (Z.to_nat n) row.

(** Modelled from the spec: [free_linkages] (linkage.c is not among the
    sources).  "free(sentence) releases the sentence's current array and
    resets found/alloced/valid counters to zero"; the comment in
    [setup_linkages] says the same of [num_linkages_found]. *)
Definition free_linkages (s : Sentence) : Sentence :=
  set_num_valid_linkages 0
    (set_num_linkages_alloced 0
      (set_num_linkages_found 0 (set_lnkages None s))).

Section Parse.
Context `{Collaborators}.

(** ** setup_linkages *)

Definition setup_linkages (st : State) : bool * State :=
  let overflowed :=
    build_parse_set (log st) (sent st) (null_count (sent st)) (opts st) in
  let st := emit (Ev_build_parse_set overflowed) st in
  if num_linkages_found (sent st) =? 0 then
    (overflowed,
     on_sent (fun s =>
       set_lnkages None
         (set_num_valid_linkages 0
           (set_num_linkages_post_processed 0
             (set_num_linkages_alloced 0 s)))) st)
  else
    let st :=
      on_sent (fun s =>
        set_num_linkages_alloced
          (to_size_t (MIN (num_linkages_found s)
                          (to_int (linkage_limit (opts st))))) s) st in
    let st :=
      match lnkages (sent st) with
      | Some _ => emit Ev_free_linkages (on_sent free_linkages st)
      | None => st
      end in
    let st :=
      on_sent (fun s =>
        set_lnkages
          (Some (linkage_array_new (to_int (num_linkages_alloced s)))) s) st in
    (overflowed, st).

(** ** process_linkages *)

Definition MAX_TRIES : Z := 250000.

(** The locals of the loop that outlive one pass: the fill cursor [in],
    [need_init] and [N_invalid_morphism]. *)
Record pl_locals : Type := mkLocals {
  in_ : Z;                                 (* size_t in *)
  need_init : bool;
  N_invalid_morphism : Z
}.

(** [pick_randomly], as line 119 computes it. *)
Definition pick_randomly (overflowed : bool) (s : Sentence) : bool :=
  overflowed || (num_linkages_found s >? to_int (num_linkages_alloced s)).

(** [maxtries], as lines 143-152 compute it ([int] arithmetic). *)
Definition maxtries (overflowed : bool) (s : Sentence) : Z :=
  if pick_randomly overflowed s then
    MIN (to_int (to_int (num_linkages_alloced s) + MAX_TRIES))
        (num_linkages_found s)
  else
    to_int (num_linkages_alloced s).

(** The index written to [lifo->index] on pass [itry]. *)
Definition selection_index (pick : bool) (itry : Z) : Z :=
  if pick then - (itry + 1) else itry.

(** Lines 157-168: the index is stored in [lifo->index] of the slot
    under the cursor, and the slot is initialised when [need_init] asks
    for it.  The record under the cursor in the state that results is
    the one that [extract_links] is called on next. *)
Definition stage_slot (pick : bool) (itry : Z) (v : pl_locals) (st : State)
  : State :=
  let slot := in_ v in
  let st := on_lkg slot (set_lifo_index (selection_index pick itry)) st in
  if need_init v then
    emit (Ev_partial_init_linkage slot)
      (on_lkg slot
         (fun l => partial_init_linkage (sent st) l (sent_length (sent st)))
         st)
  else st.

(** Lines 157-170: the slot is staged and a linkage is extracted into it.
    The second field of [Ev_extract_links] is the index that line 162
    computed for the pass; the record that the call is handed is read
    from the state ([handed_indices] below). *)
Definition draw (pick : bool) (itry : Z) (v : pl_locals) (st : State)
  : State :=
  let slot := in_ v in
  let st := stage_slot pick itry v st in
  let st :=
    emit (Ev_extract_links slot (selection_index pick itry))
      (on_lkg slot (extract_links (log st)) st) in
  emit (Ev_compute_link_names slot) (on_lkg slot compute_link_names st).

(** Lines 180-190: the linkage is kept and the cursor advances; the
    boolean is [true] when the array is full and the loop ends in
    [break]. *)
Definition accept (v : pl_locals) (st : State) : bool * pl_locals * State :=
  let slot := in_ v in
  let st :=
    emit (Ev_remove_empty_words slot) (on_lkg slot remove_empty_words st) in
  let v := mkLocals (slot + 1) true (N_invalid_morphism v) in
  (in_ v >=? num_linkages_alloced (sent st), v, st).

(** Lines 194-198: the slot is reset and stays under the cursor. *)
Definition reject (v : pl_locals) (st : State) : bool * pl_locals * State :=
  let slot := in_ v in
  let st :=
    on_lkg slot
      (fun l =>
         set_chosen_disjuncts
           (memset_null (sent_length (sent st)) (chosen_disjuncts l))
           (set_num_words (sent_length (sent st)) (set_num_links 0 l)))
      st in
  (false, mkLocals slot false (N_invalid_morphism v + 1), st).

(** One pass of the [for] loop.  The boolean is [true] when the pass ends
    in [break]. *)
Definition try_linkage (pick : bool) (itry : Z) (v : pl_locals) (st : State)
  : bool * pl_locals * State :=
  let st := draw pick itry v st in
  let lkg := get_lkg (sent st) (in_ v) in
  let sane := sane_linkage_morphism (log st) (sent st) lkg (opts st) in
  let st := emit (Ev_sane_linkage_morphism lkg sane) st in
  if sane then accept v st else reject v st.

(** [for (itry=0; itry<maxtries; itry++)], with [n] the number of passes
    that are left before [itry] reaches [maxtries]. *)
Fixpoint pl_loop (n : nat) (pick : bool) (itry : Z) (v : pl_locals)
  (st : State) : pl_locals * State :=
  match n with
  | O => (v, st)
  | S n' =>
      let '(brk, v', st') := try_linkage pick itry v st in
      if brk then (v', st') else pl_loop n' pick (itry + 1) v' st'
  end.

Definition process_linkages (overflowed : bool) (st : State) : State :=
  if num_linkages_found (sent st) =? 0 then st
  else if num_linkages_alloced (sent st) =? 0 then st
  else
    let pick := pick_randomly overflowed (sent st) in
    let tries := maxtries overflowed (sent st) in
    let st := on_sent (set_num_valid_linkages 0) st in
    let '(v, st) :=
      pl_loop (Z.to_nat tries) pick 0 (mkLocals 0 true 0) st in
    let st :=
      if need_init v then st
      else emit (Ev_free_linkage (in_ v)) (on_lkg (in_ v) free_linkage st) in
    let st := on_sent (set_num_valid_linkages (in_ v)) st in
    on_sent (fun s => set_num_linkages_alloced (num_valid_linkages s) s) st.



(** ** sort_linkages *)

(** [qsort] of the first [nmemb] records under the comparator.  The C
    library leaves the order of records that compare equal open; the
    model sorts by insertion. *)
Fixpoint insert_by (cmp : Linkage -> Linkage -> Z) (x : Linkage)
  (l : list Linkage) : list Linkage :=
  match l with
  | [] => [x]
  | y :: l' => if cmp x y <=? 0 then x :: l else y :: insert_by cmp x l'
  end.

Definition qsort (cmp : Linkage -> Linkage -> Z) (nmemb : Z)
  (arr : list Linkage) : list Linkage :=
  foldr (insert_by cmp) [] (take (Z.to_nat nmemb) arr)
    ++ drop (Z.to_nat nmemb) arr.

Definition sort_linkages (st : State) : State :=
  if num_linkages_found (sent st) =? 0 then st
  else if negb (rand_state (sent st) =? 0) && shuffle_linkages (sent st)
  then st
  else
    emit (Ev_qsort (num_linkages_alloced (sent st)))
      (on_sent (fun s =>
         set_lnkages
           (option_map
              (qsort (compare_fn (opts st)) (num_linkages_alloced s))
              (lnkages s)) s) st).

(** ** classic_parse *)

Definition check_resources (st : State) : bool * State :=
  let answer := resources_exhausted (log st) in
  (answer, emit (Ev_resources_exhausted answer) st).

(** Lines 326-330: the 64-bit total is clamped, then stored in an [int]. *)
Definition clamp_total (total : Z) : Z :=
  let total := if total >? INT_MAX then INT_MAX else total in
  let total := if total <? 0 then INT_MAX else total in
  total.

(** Lines 284-299: the disjuncts are restored when the attempt moves from
    null count 0 to a null count above it, and the sentence is pruned and
    packed; [opts->min_null_count] is 1 during that re-pruning and is set
    back before anything else is done.  The boolean is
    [real_suffix_ids]. *)
Definition prune (is_null_count_0 : bool) (nl : Z) (st : State)
  : bool * State :=
  let st :=
    if negb (nl =? 0) && is_null_count_0 then
      emit Ev_restore_disjuncts (on_opts (set_min_null_count 1) st)
    else st in
  let st := emit (Ev_pp_and_power_prune nl (min_null_count (opts st))) st in
  let real_suffix_ids := set_connector_hash (log st) (sent st) in
  let st := emit (Ev_set_connector_hash real_suffix_ids) st in
  let st := emit (Ev_pack_sentence real_suffix_ids) st in
  let st :=
    if is_null_count_0 then on_opts (set_min_null_count 0) st else st in
  (real_suffix_ids, st).

(** Lines 284-316, the branch taken while [pp_and_power_prune_done] is
    false.  The boolean is [true] when the branch ends in [break]. *)
Definition prune_stage (is_null_count_0 : bool) (nl : Z) (st : State)
  : bool * State :=
  let '(real_suffix_ids, st) := prune is_null_count_0 nl st in
  let '(exhausted, st) := check_resources st in
  if exhausted then (true, st)
  else
    let st :=
      if negb real_suffix_ids || (nl =? 0) || negb is_null_count_0 then
        emit Ev_alloc_count_context (emit Ev_free_count_context st)
      else st in
    (false, emit Ev_alloc_fast_matcher (emit Ev_free_fast_matcher st)).

(** Lines 320-330: the linkages of the pass before are released and the
    linkages at [nl] are counted. *)
Definition count_linkages (nl : Z) (st : State) : State :=
  let st := emit Ev_free_linkages (on_sent free_linkages st) in
  let st := on_sent (set_null_count (to_size_t nl)) st in
  let hist :=
    do_parse (log st) (sent st) (null_count (sent st)) (opts st) in
  let st := emit (Ev_do_parse (null_count (sent st)) hist) st in
  let total := clamp_total (hist_total hist) in
  on_sent (set_num_linkages_found (to_int total)) st.

(** Lines 339-344: the array is allocated and filled, and the linkages
    are post-processed. *)
Definition materialize (st : State) : State :=
  let st := emit Ev_extractor_new st in
  let '(ovfl, st) := setup_linkages st in
  let st := process_linkages ovfl st in
  let st := emit Ev_free_extractor st in
  let st := on_sent (fun s => post_process_lkgs (log st) s (opts st)) st in
  emit (Ev_post_process_lkgs (num_valid_linkages (sent st))) st.

(** Lines 319-346: counting, sampling and post-processing at [nl].  The
    boolean is [true] when the pass ends in [break]. *)
Definition count_stage (nl : Z) (st : State) : bool * State :=
  let '(exhausted, st) := check_resources st in
  if exhausted then (true, st)
  else
    let st := materialize (count_linkages nl st) in
    (0 <? num_valid_linkages (sent st), st).

(** One pass of the [for] loop over [nl]: the break flag, the new value of
    [pp_and_power_prune_done] and the new state. *)
Definition parse_pass (is_null_count_0 : bool) (nl : Z)
  (pp_and_power_prune_done : bool) (st : State) : bool * bool * State :=
  if pp_and_power_prune_done then
    let '(brk, st) := count_stage nl st in (brk, true, st)
  else
    let done := negb (nl =? 0) in
    let '(brk, st) := prune_stage is_null_count_0 nl st in
    if brk then (true, done, st)
    else let '(brk, st) := count_stage nl st in (brk, done, st).

(** [for (nl = ...; nl <= max_null_count; nl++)], with [n] the number of
    values of [nl] that are left up to [max_null_count].  This is the
    loop for a [max_null_count] below INT_MAX: [nl] then never exceeds
    [max_null_count + 1] and stays an [int].  At INT_MAX (a sentence of
    INT_MAX words and an option of INT_MAX) the test [nl <= max_null_count]
    cannot fail and [nl++] overflows, which C leaves undefined; what is
    said of where the loop stops assumes the maximum is below INT_MAX. *)
Fixpoint parse_loop (n : nat) (is_null_count_0 : bool) (nl : Z)
  (pp_and_power_prune_done : bool) (st : State) : State :=
  match n with
  | O => st
  | S n' =>
      let '(brk, done, st') :=
        parse_pass is_null_count_0 nl pp_and_power_prune_done st in
      if brk then st'
      else parse_loop n' is_null_count_0 (nl + 1) done st'
  end.

(** The local [max_null_count] of line 264. *)
Definition clamped_max_null_count (s : Sentence) (o : Parse_Options) : Z :=
  MIN (to_int (sent_length s)) (max_null_count o).

Definition classic_parse (st : State) : State :=
  let is_null_count_0 := min_null_count (opts st) =? 0 in
  let max_nc := clamped_max_null_count (sent st) (opts st) in
  let st := emit Ev_prepare_to_parse st in
  let '(exhausted, st) := check_resources st in
  if exhausted then st
  else
    let taken := is_null_count_0 && (0 <? max_nc) in
    let st := if taken then emit Ev_save_disjuncts st else st in
    let nl0 := min_null_count (opts st) in
    let st :=
      parse_loop (Z.to_nat (max_nc - nl0 + 1)) is_null_count_0 nl0 false st in
    let st := sort_linkages st in
    let st := emit (Ev_free_saved_disjuncts taken) st in
    emit Ev_free_fast_matcher (emit Ev_free_count_context st).

End Parse.

(** ** Reading the log *)

(** The events that [st'] has and [st], an earlier state, has not. *)
Definition since (st st' : State) : list Event :=
  drop (length (log st)) (log st').

(** The indices handed to [extract_links], in order. *)
Definition extract_indices (l : list Event) : list Z :=
  omap (fun e => match e with Ev_extract_links _ i => Some i | _ => None end) l.

(** The answers of [resources_exhausted], in order. *)
Definition resource_answers (l : list Event) : list bool :=
  omap (fun e => match e with Ev_resources_exhausted b => Some b | _ => None end)
    l.

(** [num_valid_linkages] at the end of each pass of the loop of
    [classic_parse], in order. *)
Definition valid_counts (l : list Event) : list Z :=
  omap (fun e => match e with Ev_post_process_lkgs v => Some v | _ => None end)
    l.

(** The linkages on which [sane_linkage_morphism] answered [true]. *)
Definition accepted (l : list Event) : list Linkage :=
  omap (fun e =>
          match e with
          | Ev_sane_linkage_morphism lkg true => Some lkg
          | _ => None
          end) l.

(** The calls that the loop of [process_linkages] makes. *)
Definition sampler_event (e : Event) : bool :=
  match e with
  | Ev_partial_init_linkage _ | Ev_extract_links _ _
  | Ev_compute_link_names _ | Ev_sane_linkage_morphism _ _
  | Ev_remove_empty_words _ | Ev_free_linkage _ => true
  | _ => false
  end.

(** The calls that are left to [classic_parse] once it gives up: sorting
    and the release of what it holds. *)
Definition cleanup_event (e : Event) : bool :=
  match e with
  | Ev_qsort _ | Ev_free_saved_disjuncts _
  | Ev_free_count_context | Ev_free_fast_matcher => true
  | _ => false
  end.

(** After the first check that reports exhaustion, only calls that
    satisfy [p] are made. *)
Fixpoint abort_then (p : Event -> bool) (l : list Event) : bool :=
  match l with
  | [] => true
  | Ev_resources_exhausted true :: rest => forallb p rest
  | _ :: rest => abort_then p rest
  end.

(** After the first check that reports exhaustion, nothing but cleanup. *)
Definition clean_abort (l : list Event) : bool := abort_then cleanup_event l.

(** A check that reports exhaustion is the last call. *)
Definition aborts_last (l : list Event) : bool :=
  abort_then (fun _ => false) l.

(** No check reported exhaustion. *)
Definition never_exhausted (l : list Event) : bool :=
  forallb negb (resource_answers l).

(** The schedule of the controller: what it does to the disjuncts and at
    which null counts, read off the log. *)
Inductive Mark : Type :=
| MSave
| MRestore
| MPrune (nl : Z) (opts_min_null_count : Z)
| MCount (null_count : Z)
| MFree (taken : bool).

Definition schedule (l : list Event) : list Mark :=
  omap (fun e =>
          match e with
          | Ev_save_disjuncts => Some MSave
          | Ev_restore_disjuncts => Some MRestore
          | Ev_pp_and_power_prune nl m => Some (MPrune nl m)
          | Ev_do_parse nc _ => Some (MCount nc)
          | Ev_free_saved_disjuncts b => Some (MFree b)
          | _ => None
          end) l.

(** The null counts at which [do_parse] was called, in order. *)
Definition counted_null_counts (l : list Event) : list Z :=
  omap (fun m => match m with MCount nc => Some nc | _ => None end)
    (schedule l).

(** The number of records of the linkage array. *)
Definition capacity (s : Sentence) : Z :=
  match lnkages s with
  | Some arr => Z.of_nat (length arr)
  | None => 0
  end.

(** ** Concrete collaborators

    A small library to run the model on: [do_parse] reports [totals nl]
    linkages at null count [nl]; [build_parse_set] reports overflow as
    told; a linkage is morphologically sane when [sane] holds of its
    selection index; post-processing rejects up to [rejects] linkages;
    the resource budget lasts for [budget] checks and is exhausted from
    the next one on. *)
Definition scenario (totals : Z -> Z) (overflow : bool) (sane : Z -> bool)
  (rejects : Z) (budget : nat) : Collaborators := {|
  resources_exhausted l := (budget <=? length (resource_answers l))%nat;
  set_connector_hash _ _ := true;
  do_parse _ _ nl _ := [totals nl];
  hist_total h := foldr Z.add 0 h;
  build_parse_set _ _ _ _ := overflow;
  partial_init_linkage _ l n :=
    mkLinkage (lifo_index l) 0 n (replicate (Z.to_nat n) None);
  extract_links _ l :=
    mkLinkage (lifo_index l) (num_words l - 1) (num_words l)
      (replicate (Z.to_nat (num_words l)) (Some (lifo_index l)));
  compute_link_names l := l;
  sane_linkage_morphism _ _ l _ := sane (lifo_index l);
  remove_empty_words l := l;
  free_linkage _ := zero_linkage;
  post_process_lkgs _ s _ :=
    set_num_valid_linkages
      (Z.max 0 (num_valid_linkages s - Z.max 0 rejects))
      (set_num_linkages_post_processed (num_linkages_alloced s) s)
|}.

(** A sentence of [len] words that holds no linkages. *)
Definition fresh_sentence (len : Z) : Sentence :=
  mkSentence len 0 0 0 0 0 None 0 false.

Definition options (min_nc max_nc limit : Z) : Parse_Options :=
  mkOptions min_nc max_nc limit (fun a b => lifo_index a - lifo_index b).

Definition start (s : Sentence) (o : Parse_Options) : State := mkState s o [].

(** The state in which [classic_parse] calls the sampler when the count
    at hand is [found] and the linkage limit is [limit]: the sentence as
    [setup_linkages] leaves it. *)
Definition sampling_state `{Collaborators} (found limit : Z) : State :=
  snd (setup_linkages
         (start (set_num_linkages_found found (fresh_sentence 5))
                (options 0 2 limit))).

(** The caller's wish for shuffled linkages, as [sort_linkages] reads it. *)
Definition random_shuffle_preference (s : Sentence) : bool :=
  negb (rand_state s =? 0) && shuffle_linkages s.

(** The trigger of random sampling in the words of the specification:
    the random-shuffle preference, or an overflow of the count. *)
Definition sample_randomly_spec (overflowed : bool) (s : Sentence) : bool :=
  random_shuffle_preference s || overflowed.

(** The sampler with that trigger: the indices are drawn randomly (they
    are negative) exactly when the trigger holds. *)
Definition random_trigger_as_specified `{Collaborators} (overflowed : bool)
  (st : State) : Prop :=
  let idx := extract_indices (since st (process_linkages overflowed st)) in
  sample_randomly_spec overflowed (sent st) = true <->
  (forall x, x ∈ idx -> x < 0).

(** The loop of [classic_parse] in the words of the specification: the
    null counts step by 1 from min_null_count, and the loop stops at the
    first null count with valid linkages or ends with none after the
    whole range. *)
Definition escalation_as_specified `{Collaborators} (st : State) : Prop :=
  let new := since st (classic_parse st) in
  let lo := min_null_count (opts st) in
  let hi := Z.min (sent_length (sent st)) (max_null_count (opts st)) in
  exists k : nat,
    counted_null_counts new = seqZ lo (Z.of_nat k) /\
    ((exists v, last (valid_counts new) = Some v /\ 0 < v)
     \/ (lo + Z.of_nat k = Z.max lo (hi + 1) /\
         num_valid_linkages (sent (classic_parse st)) = 0)).

(** The life of the snapshot in the words of the specification: taken
    exactly when min_null_count is 0 and the clamped maximum is above 0,
    restored no more than once, freed whenever taken. *)
Definition snapshot_as_specified `{Collaborators} (st : State) : Prop :=
  let sched := schedule (since st (classic_parse st)) in
  (MSave ∈ sched <->
   min_null_count (opts st) = 0 /\
   0 < clamped_max_null_count (sent st) (opts st)) /\
  (forall pre post,
     sched = pre ++ MRestore :: post ->
     (MRestore ∉ pre) /\ (MRestore ∉ post)) /\
  (MSave ∈ sched -> MFree true ∈ sched).

(** The entry check in the words of the specification: when it reports
    exhaustion, [classic_parse] returns with zero linkages. *)
Definition entry_abort_as_specified `{Collaborators} (st : State) : Prop :=
  resources_exhausted (log st ++ [Ev_prepare_to_parse]) = true ->
  num_valid_linkages (sent (classic_parse st)) = 0 /\
  num_linkages_alloced (sent (classic_parse st)) = 0.

(** Three linkages at null count 0, all of them sane. *)
Definition three_found : Collaborators :=
  scenario (fun nl => if nl =? 0 then 3 else 0) false (fun _ => true) 0 100.

(** Five linkages at every null count, all of them sane. *)
Definition five_found : Collaborators :=
  scenario (fun _ => 5) false (fun _ => true) 0 100.

(** No linkage at null count 0 and twenty above it, an overflow reported,
    and one draw in three sane. *)
Definition one_in_three : Collaborators :=
  scenario (fun nl => if nl =? 0 then 0 else 20) true
    (fun i => i mod 3 =? 0) 0 100.

(** No linkage at any null count, and a resource budget that lasts for
    three checks. *)
Definition budget_runs_out : Collaborators :=
  scenario (fun _ => 0) false (fun _ => true) 0 3.

(** A resource budget that is spent before the parse begins. *)
Definition budget_spent : Collaborators :=
  scenario (fun _ => 0) false (fun _ => true) 0 0.

(** A sentence of five words, parsed once with [three_found]. *)
Definition parsed_once : Sentence :=
  sent (@classic_parse three_found
          (start (fresh_sentence 5) (options 0 2 10))).

(** ** Vocabulary of the properties *)

(** [s'] is [s] but for the contents of the linkage array. *)
Definition frame (s s' : Sentence) : Prop :=
  s' = set_lnkages (lnkages s') s /\ capacity s' = capacity s.

(** The counters of the sentence are consistent with one another and
    with the linkage limit, and the array is no larger than both allow. *)
Definition counters_ok (s : Sentence) (o : Parse_Options) : Prop :=
  num_valid_linkages s <= num_linkages_alloced s /\
  num_linkages_alloced s <= num_linkages_found s /\
  num_linkages_alloced s <= linkage_limit o /\
  capacity s <= Z.min (num_linkages_found s) (linkage_limit o).

(** Post-processing only rejects linkages: it leaves the count of
    linkages found, the count of records and the array size alone, and
    does not raise the count of valid linkages (a [size_t], so not
    negative when it is handed over). *)
Definition post_process_rejects_only `{Collaborators} : Prop :=
  forall l s o,
    num_linkages_found (post_process_lkgs l s o) = num_linkages_found s /\
    num_linkages_alloced (post_process_lkgs l s o) = num_linkages_alloced s /\
    capacity (post_process_lkgs l s o) = capacity s /\
    (0 <= num_valid_linkages s ->
     num_valid_linkages (post_process_lkgs l s o) <= num_valid_linkages s).

(** [num_valid_linkages] is a [size_t]: post-processing leaves no
    negative count in it. *)
Definition valid_count_unsigned `{Collaborators} : Prop :=
  forall l s o, 0 <= num_valid_linkages (post_process_lkgs l s o).

(** What a pass of the loop prunes with: the disjuncts are restored and
    [opts->min_null_count] reads 1 when the attempt began at null count 0
    and this pass is at a null count above it. *)
Definition prune_marks (is_null_count_0 : bool) (nl : Z) (o : Parse_Options)
  : list Mark :=
  if negb (nl =? 0) && is_null_count_0
  then [MRestore; MPrune nl 1]
  else [MPrune nl (min_null_count o)].

(** The marks that the loop of [classic_parse] leaves. *)
Definition loop_mark (m : Mark) : bool :=
  match m with
  | MSave | MFree _ => false
  | _ => true
  end.

(** Slot [i] lies in the linkage array. *)
Definition in_range (s : Sentence) (i : Z) : Prop :=
  exists arr, lnkages s = Some arr /\ (Z.to_nat i < length arr)%nat.

(** ** print_chosen_disjuncts_words *)




(** ** More readings of the log *)

(** The answers of [sane_linkage_morphism], in order. *)
Definition verdicts (l : list Event) : list bool :=
  omap (fun e =>
          match e with
          | Ev_sane_linkage_morphism _ b => Some b
          | _ => None
          end) l.

(** The slots handed to [free_linkage], in order. *)
Definition released_slots (l : list Event) : list Z :=
  omap (fun e => match e with Ev_free_linkage s => Some s | _ => None end) l.

(** The slots of the linkage array that a call was handed, in order. *)
Definition touched_slots (l : list Event) : list Z :=
  omap (fun e =>
          match e with
          | Ev_partial_init_linkage s | Ev_extract_links s _
          | Ev_compute_link_names s | Ev_remove_empty_words s
          | Ev_free_linkage s => Some s
          | _ => None
          end) l.

(** The calls of [free_linkages]. *)
Definition array_releases (l : list Event) : list Event :=
  omap (fun e => match e with Ev_free_linkages => Some e | _ => None end) l.

(** The null counts for which the sentence was pruned, in order. *)
Definition pruned_null_counts (l : list Event) : list Z :=
  omap (fun m => match m with MPrune nl _ => Some nl | _ => None end)
    (schedule l).

(** The discipline of a handle that starts as NULL: [alloc] stores a new
    object in it, [free] releases what it holds (releasing NULL is
    allowed) and [use] hands it to a callee.  The result is [None] when
    an object is allocated over one that is still held, or when the
    handle is used while it holds nothing; otherwise it tells whether an
    object is held at the end. *)
Fixpoint held_ok (alloc free use : Event -> bool) (held : bool)
  (l : list Event) : option bool :=
  match l with
  | [] => Some held
  | e :: l' =>
      if alloc e then
        if held then None else held_ok alloc free use true l'
      else if free e then held_ok alloc free use false l'
      else if use e then
        if held then held_ok alloc free use held l' else None
      else held_ok alloc free use held l'
  end.

Definition matcher_alloc (e : Event) : bool :=
  match e with Ev_alloc_fast_matcher => true | _ => false end.
Definition matcher_free (e : Event) : bool :=
  match e with Ev_free_fast_matcher => true | _ => false end.
Definition context_alloc (e : Event) : bool :=
  match e with Ev_alloc_count_context => true | _ => false end.
Definition context_free (e : Event) : bool :=
  match e with Ev_free_count_context => true | _ => false end.

(** The calls that are handed [mchxt] and [ctxt]. *)
Definition counting_call (e : Event) : bool :=
  match e with Ev_do_parse _ _ | Ev_build_parse_set _ => true | _ => false end.

Definition extractor_alloc (e : Event) : bool :=
  match e with Ev_extractor_new => true | _ => false end.
Definition extractor_free (e : Event) : bool :=
  match e with Ev_free_extractor => true | _ => false end.

(** The calls that are handed [pex]. *)
Definition extractor_call (e : Event) : bool :=
  match e with Ev_build_parse_set _ | Ev_extract_links _ _ => true | _ => false end.

(** The comparator orders any two records one way or the other, and
    transitively. *)
Definition comparator_total (cmp : Linkage -> Linkage -> Z) : Prop :=
  forall a b, 0 < cmp a b -> cmp b a <= 0.
Definition comparator_transitive (cmp : Linkage -> Linkage -> Z) : Prop :=
  forall a b c, cmp a b <= 0 -> cmp b c <= 0 -> cmp a c <= 0.

(** A sentence that holds three linkages out of order. *)
Definition unsorted_sentence : Sentence :=
  mkSentence 5 0 3 3 3 3
    (Some [mkLinkage 2 4 5 []; mkLinkage 0 4 5 []; mkLinkage 1 4 5 []])
    0 false.

(** * Properties *)

(** ** Tactics *)

(** [H] claims that a mark is in a list of marks that are all unlike it. *)
Ltac no_elem H :=
  repeat (apply elem_of_cons in H as [H|H]; [discriminate H |]);
  try (apply elem_of_nil in H; contradiction);
  try (apply elem_of_app in H as [H|H];
       [apply list_elem_of_fmap in H as (? & H & _); discriminate H |];
       repeat (apply elem_of_cons in H as [H|H]; [discriminate H |]);
       apply elem_of_nil in H; contradiction).

(** [E] splits a list at a mark that the list does not have. *)
Ltac no_split E :=
  exfalso;
  match type of E with
  | ?l = ?pre ++ ?x :: ?post =>
      let Hel := fresh "Hel" in
      assert (Hel : x ∈ l)
        by (rewrite E; apply elem_of_app; right; apply list_elem_of_here);
      no_elem Hel
  end.

(** ** Machine integers *)

Lemma to_int_id z : -2147483648 <= z <= INT_MAX -> to_int z = z.
Proof.
  unfold to_int, INT_MAX. intros Hz.
  rewrite Z.mod_small by lia. lia.
Qed.

Lemma to_int_range z : -2147483648 <= to_int z <= INT_MAX.
Proof.
  unfold to_int, INT_MAX.
  pose proof (Z.mod_pos_bound (z + 2147483648) 4294967296). lia.
Qed.

Lemma to_int_le z : -2147483648 <= z -> to_int z <= z.
Proof.
  unfold to_int. intros Hz.
  pose proof (Z.mod_le (z + 2147483648) 4294967296). lia.
Qed.

Lemma to_size_t_id z : 0 <= z <= INT_MAX -> to_size_t z = z.
Proof.
  unfold to_size_t, INT_MAX. intros Hz. apply Z.mod_small. lia.
Qed.

Lemma MIN_min x y : MIN x y = Z.min x y.
Proof. unfold MIN. destruct (Z.ltb_spec x y); lia. Qed.

(** ** Logs *)

Lemma since_app st st' l : log st' = log st ++ l -> since st st' = l.
Proof. unfold since. intros ->. apply drop_app_length. Qed.

Lemma since_refl st : since st st = [].
Proof. apply since_app. now rewrite app_nil_r. Qed.

(** ** The linkage array *)

Lemma frame_refl s : frame s s.
Proof. split; [now destruct s | reflexivity]. Qed.

Lemma frame_trans s1 s2 s3 : frame s1 s2 -> frame s2 s3 -> frame s1 s3.
Proof.
  intros [E1 C1] [E2 C2]. split; [| congruence].
  rewrite E2, E1. reflexivity.
Qed.

Lemma put_lkg_frame i l s : frame s (put_lkg i l s).
Proof.
  split; [reflexivity |].
  unfold capacity, put_lkg. destruct s as [? ? ? ? ? ? [arr|] ? ?]; simpl;
    [now rewrite length_insert | reflexivity].
Qed.

Lemma get_put_same i l s : in_range s i -> get_lkg (put_lkg i l s) i = l.
Proof.
  intros (arr & E & Hi). unfold get_lkg, put_lkg. simpl. rewrite E. simpl.
  now rewrite list_lookup_insert_eq.
Qed.

Lemma get_put_other i j l s :
  Z.to_nat j <> Z.to_nat i -> get_lkg (put_lkg i l s) j = get_lkg s j.
Proof.
  intros Hne. unfold get_lkg, put_lkg. simpl.
  destruct (lnkages s) as [arr|]; simpl; [| reflexivity].
  rewrite list_lookup_insert_ne; [reflexivity | congruence].
Qed.

Lemma in_range_put i j l s : in_range s j -> in_range (put_lkg i l s) j.
Proof.
  intros (arr & E & Hj). unfold in_range, put_lkg. simpl. rewrite E. simpl.
  eexists. split; [reflexivity |]. now rewrite length_insert.
Qed.

Section SamplerFacts.
Context `{Collaborators}.

Lemma sent_on_lkg i f st :
  sent (on_lkg i f st) = put_lkg i (f (get_lkg (sent st) i)) (sent st).
Proof. reflexivity. Qed.

Lemma memset_null_cleared n row i d :
  (i < Z.to_nat n)%nat -> memset_null n row !! i <> Some (Some d).
Proof.
  intros Hi. unfold memset_null.
  destruct (decide (i < length row)%nat) as [Hl|Hl].
  - rewrite lookup_app_l by (rewrite length_replicate; lia).
    rewrite lookup_replicate_2 by lia. discriminate.
  - rewrite lookup_ge_None_2; [discriminate|].
    rewrite length_app, length_replicate, length_drop. lia.
Qed.

End SamplerFacts.

Section SamplerSteps.
Context `{Collaborators}.

Lemma draw_spec pick itry v st :
  opts (draw pick itry v st) = opts st /\
  frame (sent st) (sent (draw pick itry v st)) /\
  (forall j, Z.to_nat j <> Z.to_nat (in_ v) ->
             get_lkg (sent (draw pick itry v st)) j = get_lkg (sent st) j) /\
  (forall j, in_range (sent st) j -> in_range (sent (draw pick itry v st)) j) /\
  exists chunk,
    log (draw pick itry v st) = log st ++ chunk /\
    forallb sampler_event chunk = true /\
    extract_indices chunk = [selection_index pick itry] /\
    accepted chunk = [].
Proof.
  unfold draw, stage_slot. cbv zeta.
  destruct (need_init v);
    cbn [fst snd log sent opts emit on_sent on_opts on_lkg];
    (split; [reflexivity |]);
    (split;
     [repeat (eapply frame_trans; [| apply put_lkg_frame]); apply frame_refl |]);
    (split; [intros j Hj; now rewrite !get_put_other by assumption |]);
    (split; [intros j Hj; now repeat apply in_range_put |]);
    (eexists; rewrite <- !app_assoc; split; [reflexivity | repeat split]).
Qed.

Lemma try_linkage_spec pick itry v st :
  let '(brk, v', st') := try_linkage pick itry v st in
  opts st' = opts st /\ frame (sent st) (sent st') /\
  (forall j, Z.to_nat j <> Z.to_nat (in_ v) ->
             get_lkg (sent st') j = get_lkg (sent st) j) /\
  (forall j, in_range (sent st) j -> in_range (sent st') j) /\
  exists chunk,
    log st' = log st ++ chunk /\
    forallb sampler_event chunk = true /\
    extract_indices chunk = [selection_index pick itry] /\
    ((brk = (in_ v + 1 >=? num_linkages_alloced (sent st)) /\
      in_ v' = in_ v + 1 /\ need_init v' = true /\
      last chunk = Some (Ev_remove_empty_words (in_ v)) /\
      exists lkg,
        accepted chunk = [lkg] /\
        (exists l s o, sane_linkage_morphism l s lkg o = true) /\
        (in_range (sent st) (in_ v) ->
         get_lkg (sent st') (in_ v) = remove_empty_words lkg))
     \/
     (brk = false /\ in_ v' = in_ v /\ need_init v' = false /\
      accepted chunk = [] /\
      (exists lkg, last chunk = Some (Ev_sane_linkage_morphism lkg false)) /\
      (in_range (sent st) (in_ v) ->
       num_links (get_lkg (sent st') (in_ v)) = 0 /\
       num_words (get_lkg (sent st') (in_ v)) = sent_length (sent st) /\
       forall i d, (i < Z.to_nat (sent_length (sent st)))%nat ->
         chosen_disjuncts (get_lkg (sent st') (in_ v)) !! i
         <> Some (Some d)))).
Proof.
  unfold try_linkage. cbv zeta.
  destruct (draw_spec pick itry v st)
    as (Ho & Hf & Hother & Hrange & chunk & Hlog & Hsamp & Hidx & Hacc).
  remember (draw pick itry v st) as st1 eqn:E1. clear E1.
  assert (Hlen : sent_length (sent st1) = sent_length (sent st))
    by (destruct Hf as [-> _]; reflexivity).
  assert (Hall : num_linkages_alloced (sent st1) = num_linkages_alloced (sent st))
    by (destruct Hf as [-> _]; reflexivity).
  destruct (sane_linkage_morphism (log st1) (sent st1)
              (get_lkg (sent st1) (in_ v)) (opts st1)) eqn:Hsane;
    unfold accept, reject;
    cbn [fst snd log sent opts emit on_sent on_opts on_lkg in_ need_init];
    (split; [assumption |]);
    (split; [eapply frame_trans; [eassumption | apply put_lkg_frame] |]);
    (split; [intros j Hj; rewrite get_put_other by assumption; auto |]);
    (split; [intros j Hj; apply in_range_put; auto |]).
  - exists (chunk ++ [Ev_sane_linkage_morphism (get_lkg (sent st1) (in_ v)) true;
                       Ev_remove_empty_words (in_ v)]).
    split; [rewrite Hlog, <- !app_assoc; reflexivity |].
    split; [rewrite forallb_app, Hsamp; reflexivity |].
    split; [unfold extract_indices in *; rewrite omap_app, Hidx; reflexivity |].
    left. split; [now rewrite <- Hall |]. split; [reflexivity |].
    split; [reflexivity |].
    split; [rewrite last_app; reflexivity |].
    eexists. split; [| split].
    + unfold accepted in *. rewrite omap_app, Hacc. reflexivity.
    + eauto.
    + intros Hin. now rewrite get_put_same by auto.
  - exists (chunk ++ [Ev_sane_linkage_morphism (get_lkg (sent st1) (in_ v)) false]).
    split; [rewrite Hlog, <- !app_assoc; reflexivity |].
    split; [rewrite forallb_app, Hsamp; reflexivity |].
    split; [unfold extract_indices in *; rewrite omap_app, Hidx; reflexivity |].
    right. repeat split.
    + unfold accepted in *. rewrite omap_app, Hacc. reflexivity.
    + eexists. apply last_snoc.
    + rewrite get_put_same by auto. reflexivity.
    + rewrite get_put_same by auto. simpl. assumption.
    + intros i d Hi. rewrite get_put_same by auto. simpl.
      apply memset_null_cleared. now rewrite Hlen.
Qed.

Lemma frame_alloced s s' :
  frame s s' -> num_linkages_alloced s' = num_linkages_alloced s.
Proof. intros [-> _]. reflexivity. Qed.

Lemma accepted_app l1 l2 : accepted (l1 ++ l2) = accepted l1 ++ accepted l2.
Proof. apply omap_app. Qed.

Lemma extract_indices_app l1 l2 :
  extract_indices (l1 ++ l2) = extract_indices l1 ++ extract_indices l2.
Proof. apply omap_app. Qed.

Lemma pl_loop_spec n pick : forall itry v st v' st',
  pl_loop n pick itry v st = (v', st') ->
  opts st' = opts st /\ frame (sent st) (sent st') /\
  exists (k : nat) chunk,
    (k <= n)%nat /\
    log st' = log st ++ chunk /\
    forallb sampler_event chunk = true /\
    extract_indices chunk = selection_index pick <$> seqZ itry (Z.of_nat k) /\
    in_ v <= in_ v' <= in_ v + Z.of_nat k /\
    ((k < n)%nat -> num_linkages_alloced (sent st) <= in_ v') /\
    ((forall l s lk o, sane_linkage_morphism l s lk o = false) -> k = n) /\
    (0 <= in_ v < num_linkages_alloced (sent st) ->
     (forall j, 0 <= j < num_linkages_alloced (sent st) ->
                in_range (sent st) j) ->
     in_ v' <= num_linkages_alloced (sent st) /\
     (forall j, in_range (sent st) j -> in_range (sent st') j) /\
     (forall j, 0 <= j < in_ v -> get_lkg (sent st') j = get_lkg (sent st) j) /\
     (forall j, in_ v <= j < in_ v' ->
        exists lkg, lkg ∈ accepted chunk /\
                    get_lkg (sent st') j = remove_empty_words lkg)).
Proof.
  induction n as [|n IH]; intros itry v st v' st' Hrun; simpl in Hrun.
  - injection Hrun as <- <-.
    split; [reflexivity |]. split; [apply frame_refl |].
    exists 0%nat, []. rewrite app_nil_r.
    repeat split; try reflexivity; try lia; auto.
  - pose proof (try_linkage_spec pick itry v st) as Hstep.
    destruct (try_linkage pick itry v st) as [[brk v1] st1].
    destruct Hstep as (Ho & Hf & Hother & Hrange & c1 & Hlog & Hsamp & Hidx & Hcase).
    pose proof (frame_alloced _ _ Hf) as Hall.
    assert (Hseq1 : forall m : nat,
               seqZ itry (Z.of_nat (S m)) = itry :: seqZ (itry + 1) (Z.of_nat m)).
    { intros m. rewrite seqZ_cons by lia. f_equal. f_equal; lia. }
    destruct brk.
    + injection Hrun as <- <-.
      split; [assumption |]. split; [assumption |].
      destruct Hcase as [(Hb & Hin & Hni & _ & lkg & Hacc & Hsane & Hslot)
                        |(Hb & _)]; [| discriminate].
      exists 1%nat, c1.
      split; [lia |]. split; [assumption |]. split; [assumption |].
      split; [rewrite Hidx; reflexivity |].
      split; [lia |].
      split; [intros _; symmetry in Hb; apply Z.geb_le in Hb; lia |].
      split.
      { intros Hnone. destruct Hsane as (l & s & o & Hs).
        rewrite Hnone in Hs. discriminate. }
      intros Hcur Hin_range.
      split; [lia |]. split; [assumption |].
      split; [intros j Hj; apply Hother; lia |].
      intros j Hj. assert (j = in_ v) as -> by lia.
      exists lkg. split; [rewrite Hacc; apply list_elem_of_here |].
      apply Hslot, Hin_range. lia.
    + specialize (IH (itry + 1) v1 st1 v' st' Hrun).
      destruct IH as (Ho' & Hf' & k & c2 & Hk & Hlog' & Hsamp' & Hidx' & Hcur'
                      & Hbrk' & Hfail' & Hslots').
      split; [congruence |]. split; [eapply frame_trans; eassumption |].
      exists (S k), (c1 ++ c2).
      split; [lia |].
      split; [rewrite Hlog', Hlog, app_assoc; reflexivity |].
      split; [rewrite forallb_app, Hsamp, Hsamp'; reflexivity |].
      split; [rewrite extract_indices_app, Hidx, Hidx', Hseq1; reflexivity |].
      assert (Hv1 : in_ v <= in_ v1 <= in_ v + 1)
        by (destruct Hcase as [(_ & -> & _)|(_ & -> & _)]; lia).
      split; [lia |].
      split; [intros Hlt; rewrite <- Hall; apply Hbrk'; lia |].
      split; [intros Hnone; rewrite (Hfail' Hnone); reflexivity |].
      intros Hcur Hin_range.
      assert (Hcur1 : 0 <= in_ v1 < num_linkages_alloced (sent st1)).
      { rewrite Hall.
        destruct Hcase as [(Hb & -> & _)|(_ & -> & _)]; [| lia].
        symmetry in Hb. destruct (Z.geb_spec (in_ v + 1)
          (num_linkages_alloced (sent st))); [discriminate | lia]. }
      assert (Hin_range1 : forall j, 0 <= j < num_linkages_alloced (sent st1) ->
                                     in_range (sent st1) j)
        by (intros j Hj; apply Hrange, Hin_range; lia).
      destruct (Hslots' Hcur1 Hin_range1) as (Hle & Hr & Hbelow & Hfilled).
      split; [lia |].
      split; [intros j Hj; apply Hr, Hrange, Hj |].
      split; [intros j Hj; rewrite Hbelow by lia; apply Hother; lia |].
      intros j Hj.
      destruct (decide (in_ v1 <= j)) as [Hge|Hlt].
      * destruct (Hfilled j ltac:(lia)) as (lkg & Hel & Hget).
        exists lkg. split; [| assumption].
        rewrite accepted_app. apply elem_of_app. now right.
      * destruct Hcase as [(_ & Hin & _ & _ & lkg & Hacc & _ & Hslot)
                          |(_ & Hin & _)]; [| lia].
        assert (j = in_ v) as -> by lia.
        exists lkg. split.
        -- rewrite accepted_app, Hacc. apply elem_of_app. left.
           apply list_elem_of_here.
        -- rewrite Hbelow by lia. apply Hslot, Hin_range. lia.
Qed.

Lemma process_linkages_spec ovfl st :
  (process_linkages ovfl st = st /\
   (num_linkages_found (sent st) = 0 \/ num_linkages_alloced (sent st) = 0))
  \/
  (num_linkages_found (sent st) <> 0 /\
   num_linkages_alloced (sent st) <> 0 /\
   exists (k : nat) chunk cursor,
     opts (process_linkages ovfl st) = opts st /\
     sent (process_linkages ovfl st) =
       set_num_linkages_alloced cursor
         (set_num_valid_linkages cursor
            (set_lnkages (lnkages (sent (process_linkages ovfl st)))
               (sent st))) /\
     capacity (sent (process_linkages ovfl st)) = capacity (sent st) /\
     log (process_linkages ovfl st) = log st ++ chunk /\
     forallb sampler_event chunk = true /\
     (k <= Z.to_nat (maxtries ovfl (sent st)))%nat /\
     extract_indices chunk =
       selection_index (pick_randomly ovfl (sent st))
         <$> seqZ 0 (Z.of_nat k) /\
     0 <= cursor <= Z.of_nat k /\
     ((k < Z.to_nat (maxtries ovfl (sent st)))%nat ->
      num_linkages_alloced (sent st) <= cursor) /\
     ((forall l s lk o, sane_linkage_morphism l s lk o = false) ->
      k = Z.to_nat (maxtries ovfl (sent st))) /\
     (0 < num_linkages_alloced (sent st) ->
      (forall j, 0 <= j < num_linkages_alloced (sent st) ->
                 in_range (sent st) j) ->
      cursor <= num_linkages_alloced (sent st) /\
      forall j, 0 <= j < cursor ->
        exists lkg, lkg ∈ accepted chunk /\
          get_lkg (sent (process_linkages ovfl st)) j
          = remove_empty_words lkg)).
Proof.
  unfold process_linkages.
  destruct (Z.eqb_spec (num_linkages_found (sent st)) 0) as [Hf0|Hf0];
    [left; auto |].
  destruct (Z.eqb_spec (num_linkages_alloced (sent st)) 0) as [Ha0|Ha0];
    [left; auto |].
  right. split; [assumption |]. split; [assumption |].
  set (st0 := on_sent (set_num_valid_linkages 0) st).
  destruct (pl_loop (Z.to_nat (maxtries ovfl (sent st)))
              (pick_randomly ovfl (sent st)) 0 (mkLocals 0 true 0) st0)
    as [v' st1] eqn:Hloop.
  apply pl_loop_spec in Hloop.
  destruct Hloop as (Ho & Hf & k & chunk & Hk & Hlog & Hsamp & Hidx & Hcur
                     & Hbrk & Hfail & Hslots).
  cbn [in_] in Hcur, Hslots.
  change (num_linkages_alloced (sent st0))
    with (num_linkages_alloced (sent st)) in *.
  change (log st0) with (log st) in *. change (opts st0) with (opts st) in *.
  assert (Hfr : forall s2, frame (sent st0) s2 ->
            forall c, set_num_linkages_alloced c (set_num_valid_linkages c s2)
              = set_num_linkages_alloced c (set_num_valid_linkages c
                  (set_lnkages (lnkages s2) (sent st)))
              /\ capacity s2 = capacity (sent st)).
  { intros s2 [E C] c. split; [rewrite E at 1; reflexivity | exact C]. }
  destruct (need_init v') eqn:Hni;
    cbn [fst snd log sent opts emit on_sent on_opts on_lkg].
  - exists k, chunk, (in_ v').
    destruct (Hfr _ Hf (in_ v')) as [E C].
    split; [assumption |]. split; [exact E |]. split; [exact C |].
    split; [assumption |]. split; [assumption |]. split; [assumption |].
    split; [assumption |]. split; [lia |]. split; [assumption |].
    split; [assumption |].
    intros Hpos Hin.
    destruct (Hslots ltac:(lia) Hin) as (Hle & _ & _ & Hfilled).
    split; [assumption |]. intros j Hj. apply Hfilled. lia.
  - exists k, (chunk ++ [Ev_free_linkage (in_ v')]), (in_ v').
    assert (Hf2 : frame (sent st0)
              (put_lkg (in_ v') (free_linkage (get_lkg (sent st1) (in_ v')))
                 (sent st1)))
      by (eapply frame_trans; [exact Hf | apply put_lkg_frame]).
    destruct (Hfr _ Hf2 (in_ v')) as [E C].
    split; [assumption |]. split; [exact E |]. split; [exact C |].
    split; [rewrite Hlog, app_assoc; reflexivity |].
    split; [rewrite forallb_app, Hsamp; reflexivity |].
    split; [assumption |].
    split; [rewrite extract_indices_app, Hidx, app_nil_r; reflexivity |].
    split; [lia |]. split; [assumption |]. split; [assumption |].
    intros Hpos Hin.
    destruct (Hslots ltac:(lia) Hin) as (Hle & _ & _ & Hfilled).
    split; [assumption |]. intros j Hj.
    destruct (Hfilled j ltac:(lia)) as (lkg & Hel & Hget).
    exists lkg. split.
    + rewrite accepted_app. apply elem_of_app. now left.
    + change (get_lkg (put_lkg (in_ v')
                (free_linkage (get_lkg (sent st1) (in_ v'))) (sent st1)) j
              = remove_empty_words lkg).
      rewrite get_put_other by lia. exact Hget.
Qed.

End SamplerSteps.

(** ** The sampler *)

Section Sampler.
Context `{Collaborators}.

Lemma maxtries_le_cap ovfl s :
  0 <= num_linkages_alloced s ->
  maxtries ovfl s <=
    if pick_randomly ovfl s
    then Z.min (num_linkages_alloced s + 250000) (num_linkages_found s)
    else num_linkages_alloced s.
Proof.
  intros Ha. unfold maxtries, MAX_TRIES.
  pose proof (to_int_range (num_linkages_alloced s)).
  pose proof (to_int_le (num_linkages_alloced s) ltac:(lia)).
  pose proof (to_int_le (to_int (num_linkages_alloced s) + 250000) ltac:(lia)).
  destruct (pick_randomly ovfl s); [rewrite MIN_min |]; lia.
Qed.

Lemma maxtries_eq_cap ovfl s :
  0 <= num_linkages_alloced s ->
  num_linkages_alloced s + 250000 <= INT_MAX ->
  maxtries ovfl s =
    if pick_randomly ovfl s
    then Z.min (num_linkages_alloced s + 250000) (num_linkages_found s)
    else num_linkages_alloced s.
Proof.
  intros Ha Hb. unfold maxtries, MAX_TRIES.
  rewrite (to_int_id (num_linkages_alloced s)) by (unfold INT_MAX in *; lia).
  rewrite to_int_id by (unfold INT_MAX in *; lia).
  destruct (pick_randomly ovfl s); [apply MIN_min | reflexivity].
Qed.

Lemma sampled_indices_length pick (k : nat) :
  length (selection_index pick <$> seqZ 0 (Z.of_nat k)) = k.
Proof. rewrite length_fmap, length_seqZ. lia. Qed.

(** C3.  The number of calls to [extract_links] made by one call of
    [process_linkages] is at most the allocated capacity when sampling
    exhaustively, and at most min(capacity + 250000, num_linkages_found)
    when sampling randomly.  The loop is a total function of its inputs,
    and when every draw fails the morphology predicate (and
    capacity + 250000 fits an [int]) it makes exactly that many calls and
    stops. *)
Theorem process_linkages_attempts_capped ovfl st :
  0 <= num_linkages_alloced (sent st) ->
  0 <= num_linkages_found (sent st) ->
  let attempts :=
    Z.of_nat
      (length (extract_indices (since st (process_linkages ovfl st)))) in
  let cap :=
    if pick_randomly ovfl (sent st)
    then Z.min (num_linkages_alloced (sent st) + 250000)
               (num_linkages_found (sent st))
    else num_linkages_alloced (sent st) in
  attempts <= cap /\
  ((forall l s lk o, sane_linkage_morphism l s lk o = false) ->
   num_linkages_found (sent st) <> 0 ->
   num_linkages_alloced (sent st) <> 0 ->
   num_linkages_alloced (sent st) + 250000 <= INT_MAX ->
   attempts = cap).
Proof.
  intros Ha Hf attempts cap.
  assert (Hcap : 0 <= cap) by (subst cap; destruct (pick_randomly _ _); lia).
  destruct (process_linkages_spec ovfl st)
    as [[Hsame Hzero]
       |(Hf0 & Ha0 & k & chunk & cursor & _ & _ & _ & Hlog & _ & Hk & Hidx
         & _ & _ & Hfail & _)].
  - subst attempts. rewrite Hsame, since_refl. simpl.
    split; [assumption | intros; lia].
  - subst attempts. rewrite (since_app _ _ _ Hlog), Hidx, sampled_indices_length.
    pose proof (maxtries_le_cap ovfl (sent st) Ha) as Hm. fold cap in Hm.
    split; [lia |].
    intros Hnone _ _ Hfit. rewrite (Hfail Hnone).
    pose proof (maxtries_eq_cap ovfl (sent st) Ha Hfit) as He. fold cap in He.
    lia.
Qed.

Lemma process_linkages_indices ovfl st :
  0 <= num_linkages_alloced (sent st) <= num_linkages_found (sent st) ->
  num_linkages_found (sent st) <= INT_MAX ->
  let idx := extract_indices (since st (process_linkages ovfl st)) in
  (forall (i : nat) x,
     idx !! i = Some x ->
     x = if pick_randomly ovfl (sent st)
         then - (Z.of_nat i + 1) else Z.of_nat i) /\
  (pick_randomly ovfl (sent st) = false ->
   idx = seqZ 0 (num_linkages_found (sent st))) /\
  (pick_randomly ovfl (sent st) = true ->
   forall (i j : nat) x y,
     idx !! i = Some x -> idx !! j = Some y -> (i < j)%nat -> y < x < 0).
Proof.
  intros Ha Hf idx.
  assert (Hpoint : forall (k : nat) (i : nat) x,
            (selection_index (pick_randomly ovfl (sent st))
               <$> seqZ 0 (Z.of_nat k)) !! i = Some x ->
            x = if pick_randomly ovfl (sent st)
                then - (Z.of_nat i + 1) else Z.of_nat i).
  { intros k i x Hi. rewrite list_lookup_fmap in Hi.
    destruct (seqZ 0 (Z.of_nat k) !! i) as [y|] eqn:Hy; [| discriminate].
    apply lookup_seqZ in Hy as [-> _]. injection Hi as <-.
    unfold selection_index. destruct (pick_randomly _ _); lia. }
  assert (Hexh : pick_randomly ovfl (sent st) = false ->
                 num_linkages_alloced (sent st) = num_linkages_found (sent st)
                 /\ maxtries ovfl (sent st) = num_linkages_alloced (sent st)).
  { unfold maxtries. intros Hp. rewrite Hp. unfold pick_randomly in Hp.
    apply orb_false_iff in Hp as [_ Hp].
    rewrite to_int_id in * by (unfold INT_MAX in *; lia). lia. }
  destruct (process_linkages_spec ovfl st)
    as [[Hsame Hzero]
       |(Hf0 & Ha0 & k & chunk & cursor & _ & _ & _ & Hlog & _ & Hk & Hidx
         & Hcur & Hbrk & _)].
  - subst idx. rewrite Hsame, since_refl. simpl.
    split; [intros i x Hi; rewrite lookup_nil in Hi; discriminate |].
    split.
    + intros Hp. destruct (Hexh Hp) as [E _].
      replace (num_linkages_found (sent st)) with 0 by lia. reflexivity.
    + intros _ i j x y Hi. rewrite lookup_nil in Hi. discriminate.
  - subst idx. rewrite (since_app _ _ _ Hlog), Hidx.
    split; [apply Hpoint |]. split.
    + intros Hp. destruct (Hexh Hp) as [E Hm]. rewrite Hm in *.
      assert (Z.of_nat k = num_linkages_found (sent st)) as -> by lia.
      rewrite Hp. unfold selection_index. apply list_fmap_id.
    + intros Hp i j x y Hi Hj Hij.
      apply Hpoint in Hi, Hj. rewrite Hp in Hi, Hj. lia.
Qed.





(** C1, amended.  [process_linkages] samples randomly exactly when the
    counting stage reported an overflow or more linkages were found than
    records were allocated (the count exceeds the linkage limit); the
    random-shuffle preference plays no part.  When it samples randomly
    every index handed to [extract_links] is negative; otherwise the
    indices are 0, 1, ..., found-1 in this order. *)
Theorem random_sampling_trigger ovfl st :
  0 <= num_linkages_alloced (sent st) <= num_linkages_found (sent st) ->
  num_linkages_found (sent st) <= INT_MAX ->
  let idx := extract_indices (since st (process_linkages ovfl st)) in
  let random :=
    ovfl
    || (num_linkages_found (sent st) >? num_linkages_alloced (sent st)) in
  pick_randomly ovfl (sent st) = random /\
  (random = true -> forall x, x ∈ idx -> x < 0) /\
  (random = false -> idx = seqZ 0 (num_linkages_found (sent st))).
Proof.
  intros Ha Hf idx random.
  assert (Hpick : pick_randomly ovfl (sent st) = random).
  { subst random. unfold pick_randomly.
    rewrite to_int_id by (unfold INT_MAX in *; lia). reflexivity. }
  destruct (process_linkages_indices ovfl st Ha Hf) as (Hpoint & Hexh & _).
  fold idx in Hpoint, Hexh. rewrite Hpick in *.
  split; [reflexivity |]. split; [| exact Hexh].
  intros Hr x Hx. apply list_elem_of_lookup in Hx as [i Hi].
  apply Hpoint in Hi. rewrite Hr in Hi. lia.
Qed.

(** C6.  Every record that [process_linkages] leaves in the final array
    (the slots below [num_valid_linkages]) is a linkage on which
    [sane_linkage_morphism] answered true in this call, with its empty
    words removed.  A pass in which the predicate answers false raises
    nothing and does not end the loop: the slot under the cursor is left
    with no links, as many words as the sentence is long and its
    chosen-disjunct row cleared over those words; the cursor stays and
    [need_init] is false, so the next pass writes into the same slot. *)
Theorem morphology_filter :
  (forall ovfl st,
     num_linkages_found (sent st) <> 0 ->
     0 < num_linkages_alloced (sent st) ->
     (forall j, 0 <= j < num_linkages_alloced (sent st) ->
                in_range (sent st) j) ->
     let st' := process_linkages ovfl st in
     forall j, 0 <= j < num_valid_linkages (sent st') ->
       exists lkg,
         lkg ∈ accepted (since st st') /\
         get_lkg (sent st') j = remove_empty_words lkg)
  /\
  (forall pick itry v st brk v' st' lkg,
     in_range (sent st) (in_ v) ->
     try_linkage pick itry v st = (brk, v', st') ->
     last (log st') = Some (Ev_sane_linkage_morphism lkg false) ->
     brk = false /\ in_ v' = in_ v /\ need_init v' = false /\
     accepted (since st st') = [] /\
     num_links (get_lkg (sent st') (in_ v)) = 0 /\
     num_words (get_lkg (sent st') (in_ v)) = sent_length (sent st) /\
     forall i d, (i < Z.to_nat (sent_length (sent st)))%nat ->
       chosen_disjuncts (get_lkg (sent st') (in_ v)) !! i <> Some (Some d)).
Proof.
  split.
  - intros ovfl st Hf0 Ha Hin st' j Hj. subst st'.
    destruct (process_linkages_spec ovfl st)
      as [[_ [?|?]]
         |(_ & _ & k & chunk & cursor & _ & Hsent & _ & Hlog & _ & _ & _
           & _ & _ & _ & Hslots)]; [lia | lia |].
    rewrite (since_app _ _ _ Hlog).
    destruct (Hslots Ha Hin) as [_ Hfilled]. apply Hfilled.
    rewrite Hsent in Hj. exact Hj.
  - intros pick itry v st brk v' st' lkg Hin Hrun Hlast.
    pose proof (try_linkage_spec pick itry v st) as Hstep.
    rewrite Hrun in Hstep.
    destruct Hstep as (_ & _ & _ & _ & chunk & Hlog & _ & _ & Hcase).
    rewrite (since_app _ _ _ Hlog).
    destruct Hcase as [(_ & _ & _ & Hend & _)
                      |(Hb & Hc & Hn & Hacc & _ & Hreset)].
    + rewrite Hlog, last_app, Hend in Hlast. discriminate.
    + destruct (Hreset Hin) as (H1 & H2 & H3). auto 10.
Qed.

End Sampler.

(** ** The controller, stage by stage *)

Section Stages.
Context `{Collaborators}.

Lemma schedule_app l1 l2 : schedule (l1 ++ l2) = schedule l1 ++ schedule l2.
Proof. apply omap_app. Qed.

Lemma resource_answers_app l1 l2 :
  resource_answers (l1 ++ l2) = resource_answers l1 ++ resource_answers l2.
Proof. apply omap_app. Qed.

Lemma valid_counts_app l1 l2 :
  valid_counts (l1 ++ l2) = valid_counts l1 ++ valid_counts l2.
Proof. apply omap_app. Qed.

Lemma counted_null_counts_app l1 l2 :
  counted_null_counts (l1 ++ l2)
  = counted_null_counts l1 ++ counted_null_counts l2.
Proof. unfold counted_null_counts. now rewrite schedule_app, omap_app. Qed.

Lemma never_exhausted_app l1 l2 :
  never_exhausted (l1 ++ l2) = never_exhausted l1 && never_exhausted l2.
Proof. unfold never_exhausted. now rewrite resource_answers_app, forallb_app. Qed.

(** The calls of the sampler are invisible to the controller. *)
Lemma sampler_quiet chunk :
  forallb sampler_event chunk = true ->
  schedule chunk = [] /\ resource_answers chunk = [] /\ valid_counts chunk = [].
Proof.
  induction chunk as [|e chunk IH]; [auto |].
  simpl. intros Hq. apply andb_prop in Hq as [He Hq].
  destruct (IH Hq) as (I1 & I2 & I3).
  destruct e; try discriminate He; simpl; auto.
Qed.

Lemma setup_linkages_spec st :
  lnkages (sent st) = None ->
  exists ovfl,
    fst (setup_linkages st) = ovfl /\
    opts (snd (setup_linkages st)) = opts st /\
    log (snd (setup_linkages st)) = log st ++ [Ev_build_parse_set ovfl] /\
    sent (snd (setup_linkages st)) =
      if num_linkages_found (sent st) =? 0 then
        set_lnkages None
          (set_num_valid_linkages 0
            (set_num_linkages_post_processed 0
              (set_num_linkages_alloced 0 (sent st))))
      else
        let a := to_size_t (MIN (num_linkages_found (sent st))
                                (to_int (linkage_limit (opts st)))) in
        set_lnkages (Some (linkage_array_new (to_int a)))
          (set_num_linkages_alloced a (sent st)).
Proof.
  intros Hnull. unfold setup_linkages. cbv zeta.
  cbn [fst snd log sent opts emit on_sent on_opts].
  eexists. split; [reflexivity |].
  destruct (num_linkages_found (sent st) =? 0);
    cbn [fst snd log sent opts emit on_sent on_opts].
  - auto.
  - assert (E : forall a, lnkages (set_num_linkages_alloced a (sent st)) = None)
      by (intros a; exact Hnull).
    rewrite !E. cbn [fst snd log sent opts emit on_sent on_opts]. auto.
Qed.

Lemma count_linkages_spec nl st :
  exists hist,
    opts (count_linkages nl st) = opts st /\
    log (count_linkages nl st)
    = log st ++ [Ev_free_linkages; Ev_do_parse (to_size_t nl) hist] /\
    sent (count_linkages nl st)
    = set_num_linkages_found (to_int (clamp_total (hist_total hist)))
        (set_null_count (to_size_t nl) (free_linkages (sent st))).
Proof.
  unfold count_linkages. cbv zeta.
  cbn [fst snd log sent opts emit on_sent on_opts null_count set_null_count].
  eexists. split; [reflexivity |]. split; [| reflexivity].
  rewrite <- app_assoc. reflexivity.
Qed.

Lemma clamp_total_range t : 0 <= clamp_total t <= INT_MAX.
Proof.
  unfold clamp_total, INT_MAX.
  destruct (Z.gtb_spec t 2147483647); destruct (Z.ltb_spec t 0);
    try destruct (Z.ltb_spec 2147483647 0); lia.
Qed.

Lemma linkage_array_capacity a :
  0 <= a -> Z.of_nat (length (linkage_array_new a)) = a.
Proof. intros Ha. unfold linkage_array_new. rewrite length_replicate. lia. Qed.

Lemma materialize_spec st :
  lnkages (sent st) = None ->
  num_valid_linkages (sent st) = 0 ->
  0 <= num_linkages_found (sent st) <= INT_MAX ->
  opts (materialize st) = opts st /\
  exists ovfl chunk l s_pre,
    log (materialize st)
    = log st ++ [Ev_extractor_new; Ev_build_parse_set ovfl] ++ chunk
        ++ [Ev_free_extractor;
            Ev_post_process_lkgs (num_valid_linkages (sent (materialize st)))]
    /\
    forallb sampler_event chunk = true /\
    sent (materialize st) = post_process_lkgs l s_pre (opts st) /\
    (0 <= linkage_limit (opts st) <= INT_MAX -> counters_ok s_pre (opts st) /\ 0 <= num_valid_linkages s_pre).
Proof.
  intros Hnull Hvalid Hfound. unfold materialize.
  set (st0 := emit Ev_extractor_new st).
  destruct (setup_linkages_spec st0 Hnull) as (ovfl & Hfst & Ho & Hlog & Hsent).
  destruct (setup_linkages st0) as [ovfl' st1]. simpl in Hfst, Ho, Hlog, Hsent.
  subst ovfl'.
  change (opts st0) with (opts st) in *. change (sent st0) with (sent st) in *.
  change (log st0) with (log st ++ [Ev_extractor_new]) in *.
  cbn [fst snd log sent opts emit on_sent on_opts].
  assert (Hpre : exists chunk,
             opts (process_linkages ovfl st1) = opts st /\
             log (process_linkages ovfl st1) = log st1 ++ chunk /\
             forallb sampler_event chunk = true /\
             (0 <= linkage_limit (opts st) <= INT_MAX ->
              counters_ok (sent (process_linkages ovfl st1)) (opts st) /\
              0 <= num_valid_linkages (sent (process_linkages ovfl st1)))).
  { destruct (Z.eqb_spec (num_linkages_found (sent st)) 0) as [Hz|Hnz].
    - destruct (process_linkages_spec ovfl st1)
        as [[Hsame _]|(Hf0 & _)].
      + rewrite Hsame. exists []. rewrite app_nil_r.
        split; [assumption |]. split; [reflexivity |]. split; [reflexivity |].
        intros Hlim. rewrite Hsent. unfold counters_ok, capacity. simpl.
        rewrite ?Hvalid. lia.
      + rewrite Hsent in Hf0. simpl in Hf0. contradiction.
    - set (a := to_size_t (MIN (num_linkages_found (sent st))
                               (to_int (linkage_limit (opts st))))) in *.
      destruct (process_linkages_spec ovfl st1)
        as [[Hsame Hzero]
           |(_ & Ha0 & k & chunk & cursor & Ho' & Hs' & Hcap & Hlog' & Hsamp
             & _ & _ & Hcur & _ & _ & Hslots)].
      + rewrite Hsame. exists []. rewrite app_nil_r.
        split; [assumption |]. split; [reflexivity |]. split; [reflexivity |].
        intros Hlim. rewrite Hsent in *. simpl in Hzero.
        destruct Hzero as [Hzero|Hzero]; [contradiction |].
        unfold counters_ok, capacity. simpl. rewrite Hzero, ?Hvalid.
        change (to_int 0) with 0. simpl. lia.
      + exists chunk. split; [congruence |]. split; [assumption |].
        split; [assumption |].
        intros Hlim.
        assert (Ha : a = Z.min (num_linkages_found (sent st))
                               (linkage_limit (opts st))).
        { subst a. rewrite to_int_id by (unfold INT_MAX in *; lia).
          rewrite MIN_min. apply to_size_t_id. lia. }
        assert (Hall : num_linkages_alloced (sent st1) = a)
          by (rewrite Hsent; reflexivity).
        assert (Hc1 : capacity (sent st1) = a).
        { rewrite Hsent. unfold capacity. simpl.
          rewrite to_int_id by (unfold INT_MAX in *; lia).
          apply linkage_array_capacity. lia. }
        rewrite Hall in *.
        assert (Hin : forall j, 0 <= j < a -> in_range (sent st1) j).
        { intros j Hj. rewrite Hsent. eexists. split; [reflexivity |].
          rewrite to_int_id by (unfold INT_MAX in *; lia).
          unfold linkage_array_new. rewrite length_replicate. lia. }
        destruct (Hslots ltac:(lia) Hin) as [Hle _].
        rewrite Hs'. unfold counters_ok.
        change (capacity (set_num_linkages_alloced cursor
                  (set_num_valid_linkages cursor
                     (set_lnkages (lnkages (sent (process_linkages ovfl st1)))
                        (sent st1)))))
          with (capacity (sent (process_linkages ovfl st1))).
        rewrite Hcap, Hc1. simpl. rewrite Hsent. simpl. lia. }
  destruct Hpre as (chunk & Ho' & Hlog' & Hsamp & Hok).
  split; [assumption |].
  exists ovfl, chunk. eexists. eexists.
  split; [| split; [assumption | split; [rewrite Ho'; reflexivity | exact Hok]]].
  rewrite Hlog', Hlog, <- !app_assoc. reflexivity.
Qed.

Lemma count_stage_spec nl st :
  let '(brk, st') := count_stage nl st in
  opts st' = opts st /\
  ((brk = true /\ sent st' = sent st /\
    log st' = log st ++ [Ev_resources_exhausted true])
   \/
   (exists chunk v,
      log st' = log st ++ chunk /\
      schedule chunk = [MCount (to_size_t nl)] /\
      resource_answers chunk = [false] /\
      valid_counts chunk = [v] /\
      v = num_valid_linkages (sent st') /\
      brk = (0 <? v) /\
      exists l s_pre,
        sent st' = post_process_lkgs l s_pre (opts st) /\
        (0 <= linkage_limit (opts st) <= INT_MAX ->
         counters_ok s_pre (opts st) /\ 0 <= num_valid_linkages s_pre))).
Proof.
  unfold count_stage, check_resources.
  destruct (resources_exhausted (log st)) eqn:Hex.
  - split; [reflexivity |]. left. auto.
  - set (st0 := emit (Ev_resources_exhausted false) st).
    destruct (count_linkages_spec nl st0) as (hist & Ho & Hlog & Hsent).
    assert (Hfound : 0 <= num_linkages_found (sent (count_linkages nl st0))
                     <= INT_MAX).
    { rewrite Hsent. simpl.
      pose proof (clamp_total_range (hist_total hist)) as Hc.
      rewrite to_int_id by lia. exact Hc. }
    destruct (materialize_spec (count_linkages nl st0)
                ltac:(rewrite Hsent; reflexivity)
                ltac:(rewrite Hsent; reflexivity) Hfound)
      as (Ho' & ovfl & chunk & l & s_pre & Hlog' & Hsamp & Hs' & Hok).
    destruct (sampler_quiet chunk Hsamp) as (Q1 & Q2 & Q3).
    split; [rewrite Ho', Ho; reflexivity |]. right.
    eexists. eexists.
    split.
    { rewrite Hlog', Hlog. change (log st0) with (log st ++ [Ev_resources_exhausted false]).
      rewrite <- !app_assoc. reflexivity. }
    rewrite !schedule_app, !resource_answers_app, !valid_counts_app, Q1, Q2, Q3.
    split; [reflexivity |]. split; [reflexivity |]. split; [reflexivity |].
    split; [reflexivity |]. split; [reflexivity |].
    exists l, s_pre. rewrite Ho in Hs', Hok. auto.
Qed.

Lemma prune_spec is0 nl st :
  sent (snd (prune is0 nl st)) = sent st /\
  ((is0 = true -> min_null_count (opts st) = 0) ->
   opts (snd (prune is0 nl st)) = opts st) /\
  exists pre,
    log (snd (prune is0 nl st)) = log st ++ pre /\
    schedule pre = prune_marks is0 nl (opts st) /\
    resource_answers pre = [] /\ valid_counts pre = [].
Proof.
  unfold prune, prune_marks. cbv zeta.
  assert (Hopts : forall o, min_null_count o = 0 ->
            set_min_null_count 0 (set_min_null_count 1 o) = o
            /\ set_min_null_count 0 o = o).
  { intros [m ? ? ?] Hm. simpl in Hm. subst m. split; reflexivity. }
  destruct (negb (nl =? 0) && is0) eqn:Hrestore.
  - apply andb_prop in Hrestore as [_ ->].
    cbn [fst snd log sent opts emit on_sent on_opts].
    split; [reflexivity |].
    split; [intros Hmin; apply Hopts, Hmin; reflexivity |].
    eexists. rewrite <- !app_assoc. split; [reflexivity |]. repeat split.
  - destruct is0; cbn [fst snd log sent opts emit on_sent on_opts].
    + split; [reflexivity |].
      split; [intros Hmin; apply Hopts, Hmin; reflexivity |].
      eexists. rewrite <- !app_assoc. split; [reflexivity |]. repeat split.
    + split; [reflexivity |]. split; [reflexivity |].
      eexists. rewrite <- !app_assoc. split; [reflexivity |]. repeat split.
Qed.

Lemma prune_stage_spec is0 nl st :
  let '(brk, st') := prune_stage is0 nl st in
  sent st' = sent st /\
  ((is0 = true -> min_null_count (opts st) = 0) -> opts st' = opts st) /\
  exists pre tail,
    log st' = log st ++ pre ++ [Ev_resources_exhausted brk] ++ tail /\
    schedule pre = prune_marks is0 nl (opts st) /\
    resource_answers pre = [] /\ valid_counts pre = [] /\
    schedule tail = [] /\ resource_answers tail = [] /\
    valid_counts tail = [] /\ (brk = true -> tail = []).
Proof.
  unfold prune_stage, check_resources.
  destruct (prune_spec is0 nl st) as (Hs & Ho & pre & Hlog & P1 & P2 & P3).
  destruct (prune is0 nl st) as [r st1]. simpl in Hs, Ho, Hlog.
  destruct (resources_exhausted (log st1));
    [| destruct (negb r || (nl =? 0) || negb is0)];
    cbn [fst snd log sent opts emit on_sent on_opts];
    (split; [assumption |]); (split; [assumption |]);
    exists pre; eexists; rewrite Hlog, <- !app_assoc;
    (split; [reflexivity |]); repeat split; auto; discriminate.
Qed.

(** A pass in which a resource check reports exhaustion ends at that
    check and leaves the sentence as it was. *)
Lemma parse_pass_abort is0 nl done st :
  let '(brk, _, st') := parse_pass is0 nl done st in
  exists chunk,
    log st' = log st ++ chunk /\
    (never_exhausted chunk = false ->
     brk = true /\ sent st' = sent st /\
     last chunk = Some (Ev_resources_exhausted true)).
Proof.
  unfold parse_pass.
  destruct done.
  - pose proof (count_stage_spec nl st) as Hc.
    destruct (count_stage nl st) as [brk st'].
    destruct Hc as (_ & [(Hb & Hs & Hlog)
                        |(chunk & v & Hlog & _ & S2 & _)]).
    + eexists. split; [exact Hlog |]. auto.
    + exists chunk. split; [exact Hlog |].
      unfold never_exhausted. rewrite S2. discriminate.
  - pose proof (prune_stage_spec is0 nl st) as Hp.
    destruct (prune_stage is0 nl st) as [brk1 st1].
    destruct Hp as (Hs1 & _ & pre & tail & Hlog1 & _ & P2 & _ & _ & T2 & _
                    & Htail).
    destruct brk1.
    + rewrite (Htail eq_refl), app_nil_r in Hlog1.
      eexists. split; [exact Hlog1 |].
      intros _. split; [reflexivity |]. split; [assumption |].
      apply last_snoc.
    + pose proof (count_stage_spec nl st1) as Hc.
      destruct (count_stage nl st1) as [brk st'].
      destruct Hc as (_ & [(Hb & Hs & Hlog)
                          |(chunk & v & Hlog & _ & S2 & _)]).
      * exists ((pre ++ [Ev_resources_exhausted false] ++ tail)
                ++ [Ev_resources_exhausted true]).
        split; [rewrite Hlog, Hlog1, <- !app_assoc; reflexivity |].
        intros _. split; [assumption |]. split; [congruence |].
        apply last_snoc.
      * exists ((pre ++ [Ev_resources_exhausted false] ++ tail) ++ chunk).
        split; [rewrite Hlog, Hlog1, <- !app_assoc; reflexivity |].
        unfold never_exhausted.
        rewrite !resource_answers_app, P2, T2, S2. discriminate.
Qed.

(** One pass of the loop: it is given up at a resource check and leaves
    the sentence as it was, or it counts and samples at [nl]. *)
Lemma parse_pass_spec is0 nl done st :
  (is0 = true -> min_null_count (opts st) = 0) ->
  let '(brk, done', st') := parse_pass is0 nl done st in
  opts st' = opts st /\ done' = done || negb (nl =? 0) /\
  exists chunk,
    log st' = log st ++ chunk /\
    let P := if done then [] else prune_marks is0 nl (opts st) in
    ((brk = true /\ sent st' = sent st /\
      schedule chunk = P /\ valid_counts chunk = [] /\
      exists pre,
        chunk = pre ++ [Ev_resources_exhausted true] /\
        never_exhausted pre = true)
     \/
     (exists v,
        schedule chunk = P ++ [MCount (to_size_t nl)] /\
        valid_counts chunk = [v] /\
        never_exhausted chunk = true /\
        v = num_valid_linkages (sent st') /\
        brk = (0 <? v) /\
        exists l s_pre,
          sent st' = post_process_lkgs l s_pre (opts st) /\
          (0 <= linkage_limit (opts st) <= INT_MAX ->
           counters_ok s_pre (opts st) /\ 0 <= num_valid_linkages s_pre))).
Proof.
  intros Hmin. unfold parse_pass.
  destruct done.
  - pose proof (count_stage_spec nl st) as Hc.
    destruct (count_stage nl st) as [brk st'].
    destruct Hc as (Ho & Hc).
    split; [assumption |]. split; [reflexivity |].
    destruct Hc as [(Hb & Hs & Hlog)
                   |(chunk & v & Hlog & S1 & S2 & S3 & Hv & Hb & Hpp)].
    + exists [Ev_resources_exhausted true]. split; [assumption |].
      left. repeat split; auto. exists []. auto.
    + exists chunk. split; [assumption |]. right. exists v.
      unfold never_exhausted. rewrite S1, S2, S3. auto 10.
  - pose proof (prune_stage_spec is0 nl st) as Hp.
    destruct (prune_stage is0 nl st) as [brk1 st1].
    destruct Hp as (Hs1 & Ho1 & pre & tail & Hlog1 & P1 & P2 & P3 & T1 & T2
                    & T3 & Htail).
    specialize (Ho1 Hmin).
    destruct brk1.
    + rewrite (Htail eq_refl), app_nil_r in Hlog1.
      split; [assumption |]. split; [reflexivity |].
      exists (pre ++ [Ev_resources_exhausted true]).
      split; [assumption |]. left.
      rewrite schedule_app, valid_counts_app, P1, P3.
      split; [reflexivity |]. split; [assumption |].
      split; [apply app_nil_r |]. split; [reflexivity |].
      exists pre. split; [reflexivity |].
      unfold never_exhausted. now rewrite P2.
    + pose proof (count_stage_spec nl st1) as Hc.
      destruct (count_stage nl st1) as [brk st'].
      destruct Hc as (Ho & Hc).
      split; [congruence |]. split; [reflexivity |].
      destruct Hc as [(Hb & Hs & Hlog)
                     |(chunk & v & Hlog & S1 & S2 & S3 & Hv & Hb & Hpp)].
      * exists ((pre ++ [Ev_resources_exhausted false] ++ tail)
                ++ [Ev_resources_exhausted true]).
        split; [rewrite Hlog, Hlog1, <- !app_assoc; reflexivity |].
        left. split; [assumption |]. split; [congruence |].
        rewrite !schedule_app, !valid_counts_app, P1, P3, T1, T3.
        change (schedule [Ev_resources_exhausted false]) with (@nil Mark).
        change (schedule [Ev_resources_exhausted true]) with (@nil Mark).
        split; [now rewrite !app_nil_r |].
        split; [reflexivity |].
        eexists. split; [reflexivity |].
        unfold never_exhausted.
        rewrite !resource_answers_app, P2, T2. reflexivity.
      * exists ((pre ++ [Ev_resources_exhausted false] ++ tail) ++ chunk).
        split; [rewrite Hlog, Hlog1, <- !app_assoc; reflexivity |].
        right. exists v. unfold never_exhausted.
        rewrite !schedule_app, !valid_counts_app, !resource_answers_app,
          P1, P2, P3, T1, T2, T3, S1, S2, S3.
        change (schedule [Ev_resources_exhausted false]) with (@nil Mark).
        split; [now rewrite !app_nil_r |].
        split; [reflexivity |]. split; [reflexivity |].
        split; [assumption |]. split; [assumption |].
        rewrite Ho1 in Hpp. exact Hpp.
Qed.

Lemma counted_prune_marks is0 nl o :
  omap (fun m => match m with MCount nc => Some nc | _ => None end)
    (prune_marks is0 nl o) = [].
Proof. unfold prune_marks. destruct (negb (nl =? 0) && is0); reflexivity. Qed.

Lemma counted_pass_marks (done : bool) is0 nl o tail :
  omap (fun m => match m with MCount nc => Some nc | _ => None end)
    ((if done then [] else prune_marks is0 nl o) ++ tail)
  = omap (fun m => match m with MCount nc => Some nc | _ => None end) tail.
Proof.
  rewrite omap_app. destruct done; [reflexivity |].
  now rewrite counted_prune_marks.
Qed.

(** The null counts tried by the loop, the valid linkages each left, and
    how the loop ends. *)
Lemma parse_loop_counts n is0 : forall nl done st,
  (is0 = true -> min_null_count (opts st) = 0) ->
  exists chunk (k : nat),
    log (parse_loop n is0 nl done st) = log st ++ chunk /\
    (k <= n)%nat /\
    counted_null_counts chunk = to_size_t <$> seqZ nl (Z.of_nat k) /\
    length (valid_counts chunk) = k /\
    (forall (i : nat) v,
       valid_counts chunk !! i = Some v -> (S i < k)%nat -> ~ 0 < v) /\
    (forall v, last (valid_counts chunk) = Some v ->
               num_valid_linkages (sent (parse_loop n is0 nl done st)) = v) /\
    (valid_counts chunk = [] -> sent (parse_loop n is0 nl done st) = sent st) /\
    (forall v, v ∈ valid_counts chunk ->
       exists l s o, v = num_valid_linkages (post_process_lkgs l s o)) /\
    ((exists v, last (valid_counts chunk) = Some v /\ 0 < v)
     \/ (k = n /\ never_exhausted chunk = true /\
         forall v, v ∈ valid_counts chunk -> ~ 0 < v)
     \/ (never_exhausted chunk = false /\
         forall v, v ∈ valid_counts chunk -> ~ 0 < v)).
Proof.
  induction n as [|n IH]; intros nl done st Hmin; simpl.
  - exists [], 0%nat. rewrite app_nil_r.
    split; [reflexivity |]. split; [lia |]. split; [reflexivity |].
    split; [reflexivity |].
    split; [intros i v Hi; simpl in Hi; discriminate |].
    split; [discriminate |]. split; [reflexivity |].
    split; [intros v Hv; apply elem_of_nil in Hv; contradiction |].
    right. left. split; [reflexivity |]. split; [reflexivity |].
    intros v Hv. apply elem_of_nil in Hv. contradiction.
  - pose proof (parse_pass_spec is0 nl done st Hmin) as Hpass.
    destruct (parse_pass is0 nl done st) as [[brk done'] st1].
    destruct Hpass as (Ho & Hd & c1 & Hlog & Hcase). cbv zeta in Hcase.
    destruct Hcase as [(Hb & Hs & S1 & S3 & pre & Hc1 & Hpre)
                      |(v & S1 & S3 & Hne & Hv & Hb & l & s_pre & Hpp & _)].
    + subst brk. exists c1, 0%nat.
      split; [assumption |]. split; [lia |].
      split.
      { unfold counted_null_counts. rewrite S1.
        rewrite <- (app_nil_r (if done then _ else _)).
        now rewrite counted_pass_marks. }
      rewrite S3.
      split; [reflexivity |].
      split; [intros i v Hi; rewrite lookup_nil in Hi; discriminate |].
      split; [discriminate |]. split; [auto |].
      split; [intros v Hv; apply elem_of_nil in Hv; contradiction |].
      right. right. split.
      * rewrite Hc1, never_exhausted_app, Hpre. reflexivity.
      * intros v Hv. apply elem_of_nil in Hv. contradiction.
    + assert (Hcnt : counted_null_counts c1 = [to_size_t nl]).
      { unfold counted_null_counts. rewrite S1.
        now rewrite counted_pass_marks. }
      destruct brk.
      * exists c1, 1%nat.
        split; [assumption |]. split; [lia |].
        split; [rewrite Hcnt; reflexivity |].
        rewrite S3.
        split; [reflexivity |].
        split; [intros i w _ Hi; lia |].
        split; [intros w Hw; simpl in Hw; congruence |].
        split; [discriminate |].
        split.
        { intros w Hw. apply list_elem_of_singleton in Hw. subst w.
          exists l, s_pre, (opts st). rewrite Hv, Hpp. reflexivity. }
        left. exists v. split; [reflexivity |].
        symmetry in Hb. apply Z.ltb_lt in Hb. exact Hb.
      * assert (Hv0 : ~ 0 < v)
          by (symmetry in Hb; apply Z.ltb_ge in Hb; lia).
        destruct (IH (nl + 1) done' st1 ltac:(rewrite Ho; exact Hmin))
          as (c2 & k & Hlog2 & Hk & Hcnt2 & Hlen2 & Hzero2 & Hlast2 & Hsame2
              & Hfrom2 & Hend2).
        exists (c1 ++ c2), (S k).
        split; [rewrite Hlog2, Hlog, app_assoc; reflexivity |].
        split; [lia |].
        split.
        { rewrite counted_null_counts_app, Hcnt, Hcnt2.
          rewrite (seqZ_cons nl) by lia. simpl.
          do 3 f_equal; lia. }
        rewrite valid_counts_app, S3.
        split; [simpl; now rewrite Hlen2 |].
        split.
        { intros [|i] w Hi Hlt; simpl in Hi.
          - congruence.
          - apply (Hzero2 i w Hi). lia. }
        split.
        { intros w Hw. simpl in Hw.
          destruct (valid_counts c2) as [|w2 vs2] eqn:Hvs2.
          - simpl in Hw. rewrite (Hsame2 eq_refl). congruence.
          - apply Hlast2. exact Hw. }
        split; [discriminate |].
        split.
        { intros w Hw. apply elem_of_cons in Hw as [->|Hw]; [| auto].
          exists l, s_pre, (opts st). rewrite Hv, Hpp. reflexivity. }
        destruct Hend2 as [(w & Hw & Hpos)|[(Hkn & Hne2 & Hall)|(Hex & Hall)]].
        -- left. exists w. split; [| assumption]. simpl.
           destruct (valid_counts c2); [discriminate | exact Hw].
        -- right. left. split; [lia |].
           split; [rewrite never_exhausted_app, Hne, Hne2; reflexivity |].
           intros w Hw. apply elem_of_cons in Hw as [->|Hw]; auto.
        -- right. right.
           split; [rewrite never_exhausted_app, Hex; apply andb_false_r |].
           intros w Hw. apply elem_of_cons in Hw as [->|Hw]; auto.
Qed.

Lemma abort_then_quiet p l1 l2 :
  never_exhausted l1 = true -> abort_then p (l1 ++ l2) = abort_then p l2.
Proof.
  induction l1 as [|e l1 IH]; [reflexivity |].
  intros Hq. destruct e; try (apply IH; exact Hq).
  destruct answer; [discriminate Hq | apply IH; exact Hq].
Qed.

Lemma abort_then_never p l : never_exhausted l = true -> abort_then p l = true.
Proof.
  intros Hq. rewrite <- (app_nil_r l). now rewrite abort_then_quiet.
Qed.

Lemma prune_marks_loop is0 nl o : forallb loop_mark (prune_marks is0 nl o) = true.
Proof. unfold prune_marks. destruct (negb (nl =? 0) && is0); reflexivity. Qed.

Lemma prune_marks_elem is0 nl o nl' m :
  MPrune nl' m ∈ prune_marks is0 nl o ->
  nl' = nl /\ m = if negb (nl =? 0) && is0 then 1 else min_null_count o.
Proof.
  unfold prune_marks. destruct (negb (nl =? 0) && is0); intros Hel.
  - apply elem_of_cons in Hel as [Hel|Hel]; [discriminate |].
    apply list_elem_of_singleton in Hel. injection Hel as -> ->. auto.
  - apply list_elem_of_singleton in Hel. injection Hel as -> ->. auto.
Qed.

(** What the loop leaves alone, and what it leaves behind. *)
Lemma parse_loop_frame n is0 : forall nl done st,
  (is0 = true -> min_null_count (opts st) = 0) ->
  opts (parse_loop n is0 nl done st) = opts st /\
  exists chunk,
    log (parse_loop n is0 nl done st) = log st ++ chunk /\
    aborts_last chunk = true /\
    forallb loop_mark (schedule chunk) = true /\
    (forall nl' m, MPrune nl' m ∈ schedule chunk ->
       m = if negb (nl' =? 0) && is0 then 1 else min_null_count (opts st)) /\
    (is0 = false -> MRestore ∉ schedule chunk) /\
    (done = true ->
     schedule chunk = MCount <$> counted_null_counts chunk) /\
    (counted_null_counts chunk = [] ->
     sent (parse_loop n is0 nl done st) = sent st) /\
    (counted_null_counts chunk <> [] ->
     exists l s_pre,
       sent (parse_loop n is0 nl done st)
       = post_process_lkgs l s_pre (opts st) /\
       (0 <= linkage_limit (opts st) <= INT_MAX ->
        counters_ok s_pre (opts st) /\ 0 <= num_valid_linkages s_pre)).
Proof.
  induction n as [|n IH]; intros nl done st Hmin; simpl.
  - split; [reflexivity |]. exists []. rewrite app_nil_r.
    repeat split; auto.
    + intros nl' m Hel. apply elem_of_nil in Hel. contradiction.
    + intros _ Hel. apply elem_of_nil in Hel. contradiction.
    + intros Hne. contradiction Hne. reflexivity.
  - pose proof (parse_pass_spec is0 nl done st Hmin) as Hpass.
    destruct (parse_pass is0 nl done st) as [[brk done'] st1].
    destruct Hpass as (Ho & Hd & c1 & Hlog & Hcase). cbv zeta in Hcase.
    assert (HP : forall tail,
              forallb loop_mark tail = true ->
              forallb loop_mark
                ((if done then [] else prune_marks is0 nl (opts st)) ++ tail)
              = true).
    { intros tail Ht. rewrite forallb_app, Ht.
      destruct done; [reflexivity | now rewrite prune_marks_loop]. }
    assert (HM : forall tail nl' m,
              MPrune nl' m ∈
                (if done then [] else prune_marks is0 nl (opts st)) ++ tail ->
              (forall nc, MPrune nl' m <> MCount nc) ->
              m = (if negb (nl' =? 0) && is0 then 1
                   else min_null_count (opts st))
              \/ MPrune nl' m ∈ tail).
    { intros tail nl' m Hel _. apply elem_of_app in Hel as [Hel|Hel]; [| auto].
      destruct done; [apply elem_of_nil in Hel; contradiction |].
      apply prune_marks_elem in Hel as [-> ->]. now left. }
    assert (HR : forall tail,
              is0 = false -> MRestore ∉ tail ->
              MRestore ∉
                (if done then [] else prune_marks is0 nl (opts st)) ++ tail).
    { intros tail -> Ht Hel. apply elem_of_app in Hel as [Hel|Hel]; [| auto].
      destruct done; [apply elem_of_nil in Hel; contradiction |].
      unfold prune_marks in Hel. rewrite andb_false_r in Hel.
      apply list_elem_of_singleton in Hel. discriminate. }
    destruct Hcase as [(Hb & Hs & S1 & S3 & pre & Hc1 & Hpre)
                      |(v & S1 & S3 & Hne & Hv & Hb & Hpp)].
    + subst brk. split; [assumption |]. exists c1.
      assert (Hcnt : counted_null_counts c1 = []).
      { unfold counted_null_counts. rewrite S1.
        rewrite <- (app_nil_r (if done then _ else _)).
        now rewrite counted_pass_marks. }
      split; [assumption |].
      split; [rewrite Hc1; unfold aborts_last;
              rewrite abort_then_quiet by assumption; reflexivity |].
      rewrite S1, Hcnt.
      rewrite <- (app_nil_r (if done then _ else _)).
      split; [apply HP; reflexivity |].
      split.
      { intros nl' m Hel. destruct (HM [] nl' m Hel) as [E|E];
          [discriminate | assumption |].
        apply elem_of_nil in E. contradiction. }
      split; [intros Hi; apply HR; [assumption | apply not_elem_of_nil] |].
      split; [intros ->; reflexivity |].
      split; [auto |]. intros Hne. contradiction Hne. reflexivity.
    + assert (Hcnt : counted_null_counts c1 = [to_size_t nl]).
      { unfold counted_null_counts. rewrite S1.
        now rewrite counted_pass_marks. }
      assert (Hnot : MRestore ∉ [MCount (to_size_t nl)]).
      { intros Hel. apply list_elem_of_singleton in Hel. discriminate. }
      destruct brk.
      * split; [assumption |]. exists c1.
        split; [assumption |].
        split; [apply abort_then_never; assumption |].
        rewrite S1, Hcnt.
        split; [apply HP; reflexivity |].
        split.
        { intros nl' m Hel. destruct (HM _ nl' m Hel) as [E|E];
            [discriminate | assumption |].
          apply list_elem_of_singleton in E. discriminate. }
        split; [intros Hi; apply HR; assumption |].
        split; [intros ->; reflexivity |].
        split; [discriminate |]. intros _. exact Hpp.
      * destruct (IH (nl + 1) done' st1 ltac:(rewrite Ho; exact Hmin))
          as (Ho2 & c2 & Hlog2 & Hab2 & Hlm2 & Hpm2 & Hnr2 & Hdone2 & Hsame2
              & Hcnt2).
        split; [congruence |]. exists (c1 ++ c2).
        split; [rewrite Hlog2, Hlog, app_assoc; reflexivity |].
        split; [unfold aborts_last; rewrite abort_then_quiet by assumption;
                exact Hab2 |].
        rewrite schedule_app, counted_null_counts_app, S1, Hcnt.
        rewrite <- app_assoc.
        split; [apply HP; simpl; exact Hlm2 |].
        split.
        { intros nl' m Hel. destruct (HM _ nl' m Hel) as [E|E];
            [discriminate | assumption |].
          apply elem_of_cons in E as [E|E]; [discriminate |].
          rewrite <- Ho. apply Hpm2. exact E. }
        split.
        { intros Hi. apply HR; [assumption |].
          intros Hel. apply elem_of_cons in Hel as [E|E]; [discriminate |].
          exact (Hnr2 Hi E). }
        split.
        { intros ->. simpl. rewrite Hdone2; [reflexivity |].
          rewrite Hd. reflexivity. }
        split; [discriminate |]. intros _.
        destruct (counted_null_counts c2) as [|nc ncs] eqn:E2.
        -- rewrite (Hsame2 eq_refl). exact Hpp.
        -- rewrite <- Ho. apply Hcnt2. discriminate.
Qed.

Lemma insert_by_length cmp x l :
  length (insert_by cmp x l) = S (length l).
Proof.
  induction l as [|y l IH]; [reflexivity |].
  simpl. destruct (cmp x y <=? 0); simpl; [reflexivity | now rewrite IH].
Qed.

Lemma qsort_length cmp n arr : length (qsort cmp n arr) = length arr.
Proof.
  unfold qsort. rewrite length_app.
  assert (E : forall l, length (foldr (insert_by cmp) [] l) = length l).
  { induction l as [|x l IH]; [reflexivity |].
    simpl. now rewrite insert_by_length, IH. }
  rewrite E, <- length_app, take_drop. reflexivity.
Qed.

Lemma sort_linkages_spec st :
  opts (sort_linkages st) = opts st /\
  frame (sent st) (sent (sort_linkages st)) /\
  exists tail,
    log (sort_linkages st) = log st ++ tail /\
    forallb cleanup_event tail = true /\ schedule tail = [] /\
    resource_answers tail = [] /\ valid_counts tail = [].
Proof.
  unfold sort_linkages.
  destruct (num_linkages_found (sent st) =? 0);
    [| destruct (negb (rand_state (sent st) =? 0) && shuffle_linkages (sent st))].
  1, 2: split; [reflexivity |]; split; [apply frame_refl |];
        exists []; rewrite app_nil_r; auto.
  cbn [fst snd log sent opts emit on_sent on_opts].
  split; [reflexivity |]. split.
  - split; [reflexivity |]. unfold capacity.
    destruct (sent st) as [? ? ? ? ? ? [arr|] ? ?]; simpl; [| reflexivity].
    now rewrite qsort_length.
  - eexists. split; [reflexivity |]. auto.
Qed.

(** [classic_parse] returns at the entry check, or runs the loop, sorts
    and releases what it holds. *)
Lemma classic_parse_spec st :
  let is0 := min_null_count (opts st) =? 0 in
  let max_nc := clamped_max_null_count (sent st) (opts st) in
  let taken := is0 && (0 <? max_nc) in
  (resources_exhausted (log st ++ [Ev_prepare_to_parse]) = true /\
   classic_parse st
   = mkState (sent st) (opts st)
       (log st ++ [Ev_prepare_to_parse; Ev_resources_exhausted true]))
  \/
  (resources_exhausted (log st ++ [Ev_prepare_to_parse]) = false /\
   exists st0,
     sent st0 = sent st /\ opts st0 = opts st /\
     log st0 = log st ++ [Ev_prepare_to_parse; Ev_resources_exhausted false]
                 ++ (if taken then [Ev_save_disjuncts] else []) /\
     let st1 :=
       parse_loop (Z.to_nat (max_nc - min_null_count (opts st) + 1))
         is0 (min_null_count (opts st)) false st0 in
     classic_parse st
     = emit Ev_free_fast_matcher
         (emit Ev_free_count_context
            (emit (Ev_free_saved_disjuncts taken) (sort_linkages st1)))).
Proof.
  intros is0 max_nc taken. unfold classic_parse, check_resources.
  cbn [fst snd log sent opts emit on_sent on_opts].
  destruct (resources_exhausted (log st ++ [Ev_prepare_to_parse])).
  - left. split; [reflexivity |]. unfold emit. simpl.
    rewrite <- app_assoc. reflexivity.
  - right. split; [reflexivity |].
    fold is0. fold max_nc. fold taken.
    destruct taken.
    + eexists. split; [| split; [| split]]; [| | | reflexivity];
        cbn [fst snd log sent opts emit on_sent on_opts];
        rewrite <- ?app_assoc; reflexivity.
    + eexists. split; [| split; [| split]]; [| | | reflexivity];
        cbn [fst snd log sent opts emit on_sent on_opts];
        rewrite <- ?app_assoc, ?app_nil_r; reflexivity.
Qed.

End Stages.

(** ** The controller *)

Section Controller.
Context `{Collaborators}.

(** The events of a run that got past the entry check: the preamble, the
    events of the loop, then sorting and release. *)
Lemma classic_parse_run st :
  resources_exhausted (log st ++ [Ev_prepare_to_parse]) = false ->
  let is0 := min_null_count (opts st) =? 0 in
  let max_nc := clamped_max_null_count (sent st) (opts st) in
  let taken := is0 && (0 <? max_nc) in
  exists st0 loop_events tail,
    sent st0 = sent st /\ opts st0 = opts st /\
    let st1 :=
      parse_loop (Z.to_nat (max_nc - min_null_count (opts st) + 1))
        is0 (min_null_count (opts st)) false st0 in
    log st1 = log st0 ++ loop_events /\
    opts (classic_parse st) = opts st1 /\
    frame (sent st1) (sent (classic_parse st)) /\
    forallb cleanup_event tail = true /\ schedule tail = [] /\
    resource_answers tail = [] /\ valid_counts tail = [] /\
    since st (classic_parse st)
    = [Ev_prepare_to_parse; Ev_resources_exhausted false]
        ++ (if taken then [Ev_save_disjuncts] else [])
        ++ loop_events ++ tail
        ++ [Ev_free_saved_disjuncts taken; Ev_free_count_context;
            Ev_free_fast_matcher].
Proof.
  intros Hentry is0 max_nc taken.
  destruct (classic_parse_spec st) as [[Habs _]|(_ & st0 & Hs0 & Ho0 & Hl0 & Hrun)];
    [congruence |].
  cbv zeta in Hrun. fold is0 max_nc taken in Hl0, Hrun.
  assert (Hmin : is0 = true -> min_null_count (opts st0) = 0)
    by (intros E; rewrite Ho0; apply Z.eqb_eq; exact E).
  destruct (parse_loop_frame
              (Z.to_nat (max_nc - min_null_count (opts st) + 1))
              is0 (min_null_count (opts st)) false st0 Hmin)
    as (_ & L & HL & _).
  set (st1 := parse_loop _ _ _ _ st0) in *.
  destruct (sort_linkages_spec st1) as (Hos & Hfs & tail & Hls & T1 & T2 & T3 & T4).
  exists st0, L, tail.
  split; [assumption |]. split; [assumption |]. cbv zeta. fold st1.
  split; [assumption |].
  rewrite Hrun. cbn [fst snd log sent opts emit on_sent on_opts].
  split; [assumption |]. split; [assumption |].
  split; [assumption |]. split; [assumption |].
  split; [assumption |]. split; [assumption |].
  apply since_app. cbn [log emit].
  rewrite Hls, HL, Hl0, <- !app_assoc. reflexivity.
Qed.

(** C7.  The total of the histogram that [do_parse] returns is clamped
    before it is stored in [num_linkages_found]: a total above INT_MAX
    and a total below zero are both stored as INT_MAX, a total in between
    is stored as it is, and so the count stored is never negative and
    never a wrapped value. *)
Theorem count_total_clamped nl st :
  exists hist,
    last (log (count_linkages nl st)) = Some (Ev_do_parse (to_size_t nl) hist)
    /\
    let total := hist_total hist in
    let found := num_linkages_found (sent (count_linkages nl st)) in
    (total > INT_MAX \/ total < 0 -> found = INT_MAX) /\
    (0 <= total <= INT_MAX -> found = total) /\
    0 <= found <= INT_MAX /\
    found = clamp_total total.
Proof.
  destruct (count_linkages_spec nl st) as (hist & _ & Hlog & Hsent).
  exists hist. split; [rewrite Hlog, last_app; reflexivity |].
  cbv zeta. rewrite Hsent. simpl.
  pose proof (clamp_total_range (hist_total hist)) as Hr.
  rewrite to_int_id by lia.
  split; [| split; [| split; [exact Hr | reflexivity]]].
  - unfold clamp_total, INT_MAX. intros [Hbig|Hneg].
    + destruct (Z.gtb_spec (hist_total hist) 2147483647); [reflexivity | lia].
    + destruct (Z.gtb_spec (hist_total hist) 2147483647); [reflexivity |].
      destruct (Z.ltb_spec (hist_total hist) 0); [reflexivity | lia].
  - unfold clamp_total, INT_MAX. intros Hin.
    destruct (Z.gtb_spec (hist_total hist) 2147483647); [unfold INT_MAX in *; lia |].
    destruct (Z.ltb_spec (hist_total hist) 0); [lia | reflexivity].
Qed.

Lemma elem_of_schedule_prune l nl m :
  Ev_pp_and_power_prune nl m ∈ l -> MPrune nl m ∈ schedule l.
Proof.
  intros Hel. unfold schedule. apply list_elem_of_omap.
  exists (Ev_pp_and_power_prune nl m). auto.
Qed.

(** C10.  [classic_parse] leaves [opts->min_null_count] as it found it,
    on every path: the options on return are the options on entry.  The
    pruner sees the value 1 only when the attempt began at null count 0
    and the pruning is for a null count above 0; in every other call it
    sees the caller's value. *)
Theorem min_null_count_preserved st :
  min_null_count (opts (classic_parse st)) = min_null_count (opts st) /\
  opts (classic_parse st) = opts st /\
  forall nl m,
    Ev_pp_and_power_prune nl m ∈ since st (classic_parse st) ->
    m = if negb (nl =? 0) && (min_null_count (opts st) =? 0)
        then 1 else min_null_count (opts st).
Proof.
  assert (Hgoal : opts (classic_parse st) = opts st /\
    forall nl m,
      Ev_pp_and_power_prune nl m ∈ since st (classic_parse st) ->
      m = if negb (nl =? 0) && (min_null_count (opts st) =? 0)
          then 1 else min_null_count (opts st)).
  { destruct (classic_parse_spec st) as [[_ Hret]|[Hentry _]].
    - rewrite Hret. split; [reflexivity |].
      intros nl m Hel. unfold since in Hel. simpl in Hel.
      rewrite drop_app_length in Hel.
      apply elem_of_cons in Hel as [E|Hel]; [discriminate |].
      apply list_elem_of_singleton in Hel. discriminate.
    - destruct (classic_parse_run st Hentry)
        as (st0 & L & tail & Hs0 & Ho0 & HL & Ho & _ & _ & T2 & _ & _ & Hnew).
      cbv zeta in HL, Ho.
      assert (Hmin : (min_null_count (opts st) =? 0) = true ->
                     min_null_count (opts st0) = 0)
        by (intros E; rewrite Ho0; apply Z.eqb_eq; exact E).
      destruct (parse_loop_frame
                  (Z.to_nat (clamped_max_null_count (sent st) (opts st)
                             - min_null_count (opts st) + 1))
                  (min_null_count (opts st) =? 0)
                  (min_null_count (opts st)) false st0 Hmin)
        as (Hopts & L' & HL' & _ & _ & Hprune & _).
      rewrite HL in HL'. apply app_inv_head in HL'. subst L'.
      split; [congruence |].
      intros nl m Hel. apply elem_of_schedule_prune in Hel.
      rewrite Hnew, !schedule_app, T2 in Hel.
      rewrite Ho0 in Hprune. apply Hprune.
      apply elem_of_app in Hel as [Hel|Hel];
        [apply elem_of_nil in Hel; contradiction |].
      apply elem_of_app in Hel as [Hel|Hel].
      { destruct (_ && _) in Hel; simpl in Hel;
          [apply list_elem_of_singleton in Hel; discriminate
          | apply elem_of_nil in Hel; contradiction]. }
      apply elem_of_app in Hel as [Hel|Hel]; [exact Hel |].
      apply elem_of_app in Hel as [Hel|Hel];
        [apply elem_of_nil in Hel; contradiction |].
      simpl in Hel. apply list_elem_of_singleton in Hel. discriminate. }
  destruct Hgoal as [Ho Hp]. rewrite Ho. auto.
Qed.

Lemma counters_ok_frame s s' o :
  frame s s' -> counters_ok s o -> counters_ok s' o.
Proof.
  intros [E C] (H1 & H2 & H3 & H4). unfold counters_ok.
  rewrite C, E. simpl. auto.
Qed.

Lemma counted_quiet l : schedule l = [] -> counted_null_counts l = [].
Proof. unfold counted_null_counts. now intros ->. Qed.

(** C2.  When [classic_parse] returns after having counted and sampled at
    one null count at least, the counters of the sentence satisfy
    num_valid_linkages <= num_linkages_alloced <= num_linkages_found and
    num_linkages_alloced <= linkage_limit, and the linkage array has no
    more records than min(num_linkages_found, linkage_limit).  A sentence
    that entered with such counters leaves with such counters on every
    path.  The array that [setup_linkages] allocates has exactly
    min(num_linkages_found, linkage_limit) records (none when nothing was
    found).  The linkage limit fits the [int] that line 66 converts it
    to, and post-processing only rejects linkages. *)
Theorem counters_after_parse st :
  post_process_rejects_only ->
  0 <= linkage_limit (opts st) <= INT_MAX ->
  (counted_null_counts (since st (classic_parse st)) <> [] ->
   counters_ok (sent (classic_parse st)) (opts st)) /\
  (counters_ok (sent st) (opts st) ->
   counters_ok (sent (classic_parse st)) (opts st)) /\
  (lnkages (sent st) = None ->
   0 <= num_linkages_found (sent st) <= INT_MAX ->
   capacity (sent (snd (setup_linkages st)))
   = if num_linkages_found (sent st) =? 0 then 0
     else Z.min (num_linkages_found (sent st)) (linkage_limit (opts st))).
Proof.
  intros Hpp Hlim.
  assert (Hsetup : lnkages (sent st) = None ->
            0 <= num_linkages_found (sent st) <= INT_MAX ->
            capacity (sent (snd (setup_linkages st)))
            = if num_linkages_found (sent st) =? 0 then 0
              else Z.min (num_linkages_found (sent st))
                         (linkage_limit (opts st))).
  { intros Hnull Hfound.
    destruct (setup_linkages_spec st Hnull) as (ovfl & _ & _ & _ & ->).
    destruct (num_linkages_found (sent st) =? 0); [reflexivity |].
    unfold capacity. cbv zeta. simpl.
    rewrite (to_int_id (linkage_limit (opts st)))
      by (unfold INT_MAX in *; lia).
    rewrite MIN_min, to_size_t_id by lia.
    rewrite to_int_id by (unfold INT_MAX in *; lia).
    apply linkage_array_capacity. lia. }
  destruct (classic_parse_spec st) as [[_ Hret]|[Hentry _]].
  - rewrite Hret. split; [| auto].
    intros Hne. contradiction Hne. unfold since. simpl.
    rewrite drop_app_length. reflexivity.
  - destruct (classic_parse_run st Hentry)
      as (st0 & L & tail & Hs0 & Ho0 & HL & _ & Hfr & _ & T2 & _ & _ & Hnew).
    cbv zeta in HL, Hfr.
    assert (Hmin : (min_null_count (opts st) =? 0) = true ->
                   min_null_count (opts st0) = 0)
      by (intros E; rewrite Ho0; apply Z.eqb_eq; exact E).
    destruct (parse_loop_frame
                (Z.to_nat (clamped_max_null_count (sent st) (opts st)
                           - min_null_count (opts st) + 1))
                (min_null_count (opts st) =? 0)
                (min_null_count (opts st)) false st0 Hmin)
      as (_ & L' & HL' & _ & _ & _ & _ & _ & Hsame & Hcounted).
    rewrite HL in HL'. apply app_inv_head in HL'. subst L'.
    assert (Hcnt : counted_null_counts (since st (classic_parse st))
                   = counted_null_counts L).
    { rewrite Hnew, !counted_null_counts_app, (counted_quiet tail T2).
      destruct (_ && _); simpl; now rewrite app_nil_r. }
    rewrite Hcnt.
    assert (Hdone : counted_null_counts L <> [] ->
                    counters_ok (sent (classic_parse st)) (opts st)).
    { intros Hne. destruct (Hcounted Hne) as (l & s_pre & Hs & Hok).
      rewrite Ho0 in Hs, Hok. destruct (Hok Hlim) as [Hok' Hnonneg].
      apply (counters_ok_frame _ _ _ Hfr). rewrite Hs.
      destruct (Hpp l s_pre (opts st)) as (P1 & P2 & P3 & P4).
      specialize (P4 Hnonneg).
      destruct Hok' as (K1 & K2 & K3 & K4).
      unfold counters_ok. rewrite P1, P2, P3. repeat split; lia. }
    split; [exact Hdone |]. split; [| exact Hsetup].
    intros Hok.
    destruct (counted_null_counts L) as [|nc ncs] eqn:E.
    + apply (counters_ok_frame _ _ _ Hfr). rewrite (Hsame eq_refl), Hs0.
      exact Hok.
    + apply Hdone. discriminate.
Qed.

Lemma cleanup_never_exhausted l :
  forallb cleanup_event l = true -> abort_then cleanup_event l = true.
Proof.
  induction l as [|e l IH]; [reflexivity |].
  simpl. intros Hc. apply andb_prop in Hc as [He Hc].
  destruct e; try discriminate He; apply IH; exact Hc.
Qed.

Lemma clean_abort_tail l tail :
  aborts_last l = true -> forallb cleanup_event tail = true ->
  clean_abort (l ++ tail) = true.
Proof.
  unfold aborts_last, clean_abort. intros Hl Ht.
  induction l as [|e l IH]; [apply cleanup_never_exhausted; exact Ht |].
  destruct e; try (apply IH; exact Hl).
  destruct answer; [| apply IH; exact Hl].
  simpl in Hl. destruct l; [exact Ht | discriminate Hl].
Qed.

(** C9, amended.  A resource check that reports exhaustion ends the
    attempt there: after it [classic_parse] calls nothing but the sort
    and the release of what it holds, so no null count is tried again or
    further, and nothing is signalled (the function returns as always).
    At the entry check it returns at once with the sentence and the
    options exactly as they were on entry (zero linkages when the
    sentence held none; the linkages of an earlier parse otherwise).  A
    pass of the loop in which a check reports exhaustion ends in [break]
    at that check and leaves the sentence as the pass found it. *)
Theorem resource_exhaustion_aborts :
  (forall st, clean_abort (since st (classic_parse st)) = true) /\
  (forall st,
     resources_exhausted (log st ++ [Ev_prepare_to_parse]) = true ->
     classic_parse st
     = mkState (sent st) (opts st)
         (log st ++ [Ev_prepare_to_parse; Ev_resources_exhausted true])) /\
  (forall is0 nl done st brk done' st',
     parse_pass is0 nl done st = (brk, done', st') ->
     never_exhausted (since st st') = false ->
     brk = true /\ sent st' = sent st /\
     last (since st st') = Some (Ev_resources_exhausted true)).
Proof.
  split; [| split].
  - intros st.
    destruct (classic_parse_spec st) as [[_ Hret]|[Hentry _]].
    + rewrite Hret. unfold since. simpl. rewrite drop_app_length. reflexivity.
    + destruct (classic_parse_run st Hentry)
        as (st0 & L & tail & Hs0 & Ho0 & HL & _ & _ & T1 & _ & _ & _ & Hnew).
      cbv zeta in HL.
      assert (Hmin : (min_null_count (opts st) =? 0) = true ->
                     min_null_count (opts st0) = 0)
        by (intros E; rewrite Ho0; apply Z.eqb_eq; exact E).
      destruct (parse_loop_frame
                  (Z.to_nat (clamped_max_null_count (sent st) (opts st)
                             - min_null_count (opts st) + 1))
                  (min_null_count (opts st) =? 0)
                  (min_null_count (opts st)) false st0 Hmin)
        as (_ & L' & HL' & Hab & _).
      rewrite HL in HL'. apply app_inv_head in HL'. subst L'.
      rewrite Hnew. unfold clean_abort.
      rewrite abort_then_quiet by reflexivity.
      rewrite abort_then_quiet by (destruct (_ && _); reflexivity).
      apply clean_abort_tail; [exact Hab |].
      rewrite forallb_app, T1. reflexivity.
  - intros st Hentry.
    destruct (classic_parse_spec st) as [[_ Hret]|[Habs _]]; [exact Hret |].
    congruence.
  - intros is0 nl done st brk done' st' Hrun Hex.
    pose proof (parse_pass_abort is0 nl done st) as Hpass.
    rewrite Hrun in Hpass. destruct Hpass as (chunk & Hlog & Habort).
    rewrite (since_app _ _ _ Hlog) in *. auto.
Qed.

Lemma to_size_t_seqZ lo (k : nat) :
  0 <= lo -> ((0 < k)%nat -> lo + Z.of_nat k <= INT_MAX + 1) ->
  to_size_t <$> seqZ lo (Z.of_nat k) = seqZ lo (Z.of_nat k).
Proof.
  intros Hlo Hhi. apply list_eq. intros i. rewrite list_lookup_fmap.
  destruct (seqZ lo (Z.of_nat k) !! i) as [x|] eqn:E; [| reflexivity].
  apply lookup_seqZ in E as [-> Hi]. simpl. f_equal.
  apply to_size_t_id. lia.
Qed.

Lemma exhausted_answer l : never_exhausted l = false -> true ∈ resource_answers l.
Proof.
  unfold never_exhausted. induction (resource_answers l) as [|b bs IH].
  - discriminate.
  - simpl. destruct b.
    + intros _. apply list_elem_of_here.
    + intros Hb. apply list_elem_of_further, IH, Hb.
Qed.

(** C4, amended.  For a clamped maximum null count below INT_MAX, the
    null counts at which [classic_parse] counts are min_null_count,
    min_null_count + 1, ... in this order, none above
    min(sentence length, max_null_count): the active null count steps by 1
    and never decreases.  Every pass but the last leaves zero valid
    linkages.  The loop ends at the first null count with
    num_valid_linkages > 0, or after the whole range, or (an exit that
    the specification does not mention here) because a resource check
    reported exhaustion; in the last two cases every pass that counted
    left zero valid linkages.  The sentence is left with the valid
    linkages of the last pass that counted; when no pass counted (an
    empty range, or exhaustion before the first count) it is left as it
    was on entry but for the order of its linkages: it keeps the
    num_valid_linkages it had, which need not be zero. *)
Theorem null_count_escalation st :
  valid_count_unsigned ->
  0 <= min_null_count (opts st) ->
  0 <= sent_length (sent st) <= INT_MAX ->
  Z.min (sent_length (sent st)) (max_null_count (opts st)) < INT_MAX ->
  let new := since st (classic_parse st) in
  let lo := min_null_count (opts st) in
  let hi := Z.min (sent_length (sent st)) (max_null_count (opts st)) in
  exists k : nat,
    counted_null_counts new = seqZ lo (Z.of_nat k) /\
    lo + Z.of_nat k <= Z.max lo (hi + 1) /\
    length (valid_counts new) = k /\
    (forall (i : nat) v,
       valid_counts new !! i = Some v -> (S i < k)%nat -> v = 0) /\
    (forall v, last (valid_counts new) = Some v ->
               num_valid_linkages (sent (classic_parse st)) = v) /\
    (k = 0%nat ->
     frame (sent st) (sent (classic_parse st)) /\
     num_valid_linkages (sent (classic_parse st))
     = num_valid_linkages (sent st)) /\
    ((exists v, last (valid_counts new) = Some v /\ 0 < v)
     \/ (lo + Z.of_nat k = Z.max lo (hi + 1) /\
         (forall v, v ∈ valid_counts new -> v = 0) /\
         ((0 < k)%nat -> num_valid_linkages (sent (classic_parse st)) = 0))
     \/ (true ∈ resource_answers new /\
         (forall v, v ∈ valid_counts new -> v = 0) /\
         ((0 < k)%nat -> num_valid_linkages (sent (classic_parse st)) = 0))).
Proof.
  intros Huns Hlo Hlen Hbelow new lo hi.
  assert (Elo : lo = min_null_count (opts st)) by reflexivity.
  assert (Ehi : hi = Z.min (sent_length (sent st)) (max_null_count (opts st)))
    by reflexivity.
  clearbody lo hi.
  assert (Hhi : hi <= INT_MAX) by lia.
  destruct (classic_parse_spec st) as [[_ Hret]|[Hentry _]].
  - assert (Hnew : new = [Ev_prepare_to_parse; Ev_resources_exhausted true]).
    { subst new. rewrite Hret. unfold since. simpl.
      now rewrite drop_app_length. }
    rewrite Hnew. exists 0%nat.
    split; [reflexivity |]. split; [lia |]. split; [reflexivity |].
    split; [intros i v Hi; simpl in Hi; discriminate |].
    split; [discriminate |].
    split; [intros _; rewrite Hret; split; [apply frame_refl | reflexivity] |].
    right. right. split; [apply list_elem_of_here |].
    split; [intros v Hv; apply elem_of_nil in Hv; contradiction | lia].
  - destruct (classic_parse_run st Hentry)
      as (st0 & L & tail & Hs0 & Ho0 & HL & _ & Hfr & _ & T2 & T3 & T4 & Hnew).
    cbv zeta in HL, Hfr. fold new in Hnew.
    assert (Hmax : clamped_max_null_count (sent st) (opts st) = hi).
    { unfold clamped_max_null_count. rewrite MIN_min.
      rewrite to_int_id by lia. now rewrite Ehi. }
    rewrite Hmax, <- Elo in *.
    assert (Hmin : (lo =? 0) = true -> min_null_count (opts st0) = 0)
      by (intros E; rewrite Ho0, <- Elo; apply Z.eqb_eq; exact E).
    destruct (parse_loop_counts (Z.to_nat (hi - lo + 1)) (lo =? 0) lo false
                st0 Hmin)
      as (L' & k & HL' & Hk & Hcnt & Hlen' & Hzero & Hlast & Hsame & Hfrom
          & Hend).
    rewrite HL in HL'. apply app_inv_head in HL'. subst L'.
    assert (Hc : counted_null_counts new = counted_null_counts L).
    { rewrite Hnew, !counted_null_counts_app, (counted_quiet tail T2).
      destruct (_ && _); simpl; now rewrite app_nil_r. }
    assert (Hv : valid_counts new = valid_counts L).
    { rewrite Hnew, !valid_counts_app, T4.
      destruct (_ && _); simpl; now rewrite app_nil_r. }
    assert (Hr : forall b, b ∈ resource_answers L -> b ∈ resource_answers new).
    { intros b Hb. rewrite Hnew, !resource_answers_app.
      apply elem_of_app. right. apply elem_of_app. right.
      apply elem_of_app. now left. }
    assert (Hnonneg : forall v, v ∈ valid_counts L -> ~ 0 < v -> v = 0).
    { intros v Hel Hv0. destruct (Hfrom v Hel) as (l & s & o & ->).
      pose proof (Huns l s o). lia. }
    assert (Hfinal : forall v, last (valid_counts L) = Some v ->
              num_valid_linkages (sent (classic_parse st)) = v).
    { intros v Hl. rewrite <- (Hlast v Hl). destruct Hfr as [-> _].
      reflexivity. }
    assert (Hzero_end : (forall v, v ∈ valid_counts L -> v = 0) ->
              (0 < k)%nat -> num_valid_linkages (sent (classic_parse st)) = 0).
    { intros Hall Hpos.
      destruct (last (valid_counts L)) as [v|] eqn:El.
      - rewrite (Hfinal v eq_refl). apply Hall.
        apply last_Some in El as (l' & ->).
        apply elem_of_app. right. apply list_elem_of_here.
      - apply last_None in El. rewrite El in Hlen'. simpl in Hlen'. lia. }
    rewrite Hc, Hv. exists k.
    split; [rewrite Hcnt; apply to_size_t_seqZ; unfold INT_MAX in *; lia |].
    split; [lia |]. split; [assumption |].
    split.
    { intros i v Hi Hlt. apply Hnonneg; [| eapply Hzero; eassumption].
      eapply list_elem_of_lookup_2. exact Hi. }
    split; [exact Hfinal |].
    split.
    { intros Hk0. rewrite Hk0 in Hlen'. apply nil_length_inv in Hlen'.
      specialize (Hsame Hlen').
      assert (Hframe : frame (sent st) (sent (classic_parse st)))
        by (rewrite <- Hs0, <- Hsame; exact Hfr).
      split; [exact Hframe |]. destruct Hframe as [-> _]. reflexivity. }
    destruct Hend as [Hpos|[(Hkn & _ & Hall)|(Hex & Hall)]].
    + left. exact Hpos.
    + right. left. split; [lia |].
      assert (Hall0 : forall v, v ∈ valid_counts L -> v = 0)
        by (intros v Hel; apply Hnonneg; auto).
      split; [exact Hall0 | exact (Hzero_end Hall0)].
    + right. right. split; [apply Hr, exhausted_answer, Hex |].
      assert (Hall0 : forall v, v ∈ valid_counts L -> v = 0)
        by (intros v Hel; apply Hnonneg; auto).
      split; [exact Hall0 | exact (Hzero_end Hall0)].
Qed.

(** The schedule of the loop when the attempt begins at null count 0:
    nothing; pruning for 0; pruning and counting for 0; or these, then
    the restore, pruning for 1 and counting from 1 on. *)
Lemma parse_loop_from_zero n st :
  min_null_count (opts st) = 0 ->
  exists chunk,
    log (parse_loop n true 0 false st) = log st ++ chunk /\
    ((n = 0%nat /\ schedule chunk = [])
     \/ schedule chunk = [MPrune 0 0]
     \/ schedule chunk = [MPrune 0 0; MCount 0]
     \/ ((2 <= n)%nat /\
         exists cs,
           schedule chunk
           = [MPrune 0 0; MCount 0; MRestore; MPrune 1 1]
               ++ (MCount <$> cs))).
Proof.
  intros Hmin0.
  destruct n as [|n]; cbn [parse_loop].
  { exists []. rewrite app_nil_r. auto. }
  pose proof (parse_pass_spec true 0 false st (fun _ => Hmin0)) as Hpass.
  destruct (parse_pass true 0 false st) as [[brk done'] st1].
  destruct Hpass as (Ho & Hd & c1 & Hlog & Hcase). cbv zeta in Hcase.
  unfold prune_marks in Hcase. simpl in Hcase, Hd. rewrite Hmin0 in Hcase.
  change (to_size_t 0) with 0 in Hcase.
  destruct Hcase as [(Hb & _ & S1 & _)|(v & S1 & _ & _ & _ & Hb & _)].
  { subst brk. exists c1. auto. }
  destruct brk; [exists c1; auto |].
  subst done'.
  destruct n as [|n]; cbn [parse_loop].
  { exists c1. auto. }
  assert (Hmin1 : min_null_count (opts st1) = 0) by congruence.
  change (0 + 1) with 1.
  pose proof (parse_pass_spec true 1 false st1 (fun _ => Hmin1)) as Hpass.
  destruct (parse_pass true 1 false st1) as [[brk done'] st2].
  destruct Hpass as (Ho2 & Hd2 & c2 & Hlog2 & Hcase). cbv zeta in Hcase.
  unfold prune_marks in Hcase. simpl in Hcase, Hd2.
  change (to_size_t 1) with 1 in Hcase.
  destruct Hcase as [(Hb2 & _ & S2 & _)|(v2 & S2 & _ & _ & _ & Hb2 & _)].
  { subst brk. exists (c1 ++ c2).
    split; [rewrite Hlog2, Hlog, app_assoc; reflexivity |].
    right. right. right. split; [lia |]. exists [].
    rewrite schedule_app, S1, S2. reflexivity. }
  destruct brk.
  { exists (c1 ++ c2).
    split; [rewrite Hlog2, Hlog, app_assoc; reflexivity |].
    right. right. right. split; [lia |]. exists [1].
    rewrite schedule_app, S1, S2. reflexivity. }
  subst done'.
  assert (Hmin2 : true = true -> min_null_count (opts st2) = 0)
    by (intros _; congruence).
  destruct (parse_loop_frame n true (1 + 1) true st2 Hmin2)
    as (_ & c3 & Hlog3 & _ & _ & _ & _ & Hdone & _).
  exists (c1 ++ c2 ++ c3).
  split; [rewrite Hlog3, Hlog2, Hlog, <- !app_assoc; reflexivity |].
  right. right. right. split; [lia |].
  exists (1 :: counted_null_counts c3).
  rewrite !schedule_app, S1, S2, (Hdone eq_refl). reflexivity.
Qed.

Lemma split_at_unique {A} (x : A) l1 l2 l1' l2' :
  x ∉ l1 -> x ∉ l2 -> l1 ++ x :: l2 = l1' ++ x :: l2' ->
  l1' = l1 /\ l2' = l2.
Proof.
  revert l1'. induction l1 as [|a l1 IH]; intros [|b l1'] H1 H2 E;
    simpl in E.
  - injection E as ->. auto.
  - injection E as <- ->. contradiction H2.
    apply elem_of_app. right. apply list_elem_of_here.
  - injection E as -> _. contradiction H1. apply list_elem_of_here.
  - injection E as -> E. apply not_elem_of_cons in H1 as [_ H1].
    destruct (IH l1' H1 H2 E) as [-> ->]. auto.
Qed.

Lemma count_marks_no_restore cs rest :
  MRestore ∉ rest -> MRestore ∉ (MCount <$> cs) ++ rest.
Proof.
  intros Hr Hel. apply elem_of_app in Hel as [Hel|Hel]; [| auto].
  apply list_elem_of_fmap in Hel as (c & E & _). discriminate.
Qed.

Lemma loop_marks_no_save l : forallb loop_mark l = true -> MSave ∉ l.
Proof.
  intros Hl Hel. rewrite forallb_forall in Hl.
  apply list_elem_of_In in Hel. specialize (Hl _ Hel). discriminate.
Qed.

(** C5, amended.  The snapshot of the disjuncts is taken exactly when
    min_null_count is 0, the clamped maximum null count is above 0 and
    the entry resource check did not report exhaustion (a condition that
    the specification leaves out); it is taken once, before the loop.  It is
    restored at most once: a restore comes right after the pass at null
    count 0 and right before the pruning for null count 1, and there is
    one whenever an attempt that began at 0 prunes for a null count above
    0.  Whenever the snapshot was taken it is freed at the end, whatever
    the outcome. *)
Theorem disjunct_snapshot_lifecycle st :
  let new := since st (classic_parse st) in
  let sched := schedule new in
  let max_nc := clamped_max_null_count (sent st) (opts st) in
  (MSave ∈ sched <->
   min_null_count (opts st) = 0 /\ 0 < max_nc /\
   head (resource_answers new) = Some false) /\
  (MSave ∈ sched -> exists rest, sched = MSave :: rest /\ MSave ∉ rest) /\
  (forall pre post,
     sched = pre ++ MRestore :: post ->
     pre = [MSave; MPrune 0 0; MCount 0] /\
     head post = Some (MPrune 1 1) /\ MRestore ∉ post) /\
  (min_null_count (opts st) = 0 ->
   forall nl m, MPrune nl m ∈ sched -> nl <> 0 -> MRestore ∈ sched) /\
  (MSave ∈ sched -> last sched = Some (MFree true)).
Proof.
  intros new sched max_nc.
  destruct (classic_parse_spec st) as [[_ Hret]|[Hentry _]].
  - assert (Hnew : new = [Ev_prepare_to_parse; Ev_resources_exhausted true]).
    { subst new. rewrite Hret. unfold since. simpl.
      now rewrite drop_app_length. }
    subst sched. rewrite Hnew. simpl.
    split; [split; [intros Hel; no_elem Hel | intros (_ & _ & E); discriminate] |].
    split; [intros Hel; no_elem Hel |].
    split; [intros pre post E; no_split E |].
    split; [intros _ nl m Hel; no_elem Hel | intros Hel; no_elem Hel].
  - destruct (classic_parse_run st Hentry)
      as (st0 & L & tail & Hs0 & Ho0 & HL & _ & _ & _ & T2 & _ & _ & Hnew).
    cbv zeta in HL. fold new max_nc in Hnew. fold max_nc in HL.
    assert (Hhead : head (resource_answers new) = Some false)
      by (rewrite Hnew; reflexivity).
    assert (Hsched : sched
              = (if (min_null_count (opts st) =? 0) && (0 <? max_nc)
                 then [MSave] else [])
                ++ schedule L
                ++ [MFree ((min_null_count (opts st) =? 0) && (0 <? max_nc))]).
    { subst sched. rewrite Hnew, !schedule_app, T2.
      destruct (_ && _); reflexivity. }
    destruct (Z.eqb_spec (min_null_count (opts st)) 0) as [Hmin0|Hmin0].
    + rewrite <- Ho0 in Hmin0.
      destruct (parse_loop_from_zero
                  (Z.to_nat (max_nc - min_null_count (opts st) + 1)) st0 Hmin0)
        as (L' & HL' & Hshape).
      rewrite Ho0 in Hmin0. rewrite Hmin0 in HL, HL', Hshape.
      rewrite HL in HL'. apply app_inv_head in HL'. subst L'.
      simpl in Hsched.
      destruct Hshape as [(Hn & S)|[S|[S|(Hn & cs & S)]]];
        rewrite S in Hsched; clear S.
      * assert (Hmax : (0 <? max_nc) = false) by (apply Z.ltb_ge; lia).
        rewrite Hmax in Hsched. simpl in Hsched. rewrite Hsched.
        split; [split; [intros Hel; no_elem Hel | intros (_ & E & _); lia] |].
        split; [intros Hel; no_elem Hel |].
        split; [intros pre post E; no_split E |].
        split; [intros _ nl m Hel; no_elem Hel | intros Hel; no_elem Hel].
      * destruct (Z.ltb_spec 0 max_nc) as [Hmax|Hmax];
          simpl in Hsched; rewrite Hsched.
        -- split; [split; [auto | intros _; apply list_elem_of_here] |].
           split; [intros _; eexists; split;
                   [reflexivity | intros Hel; no_elem Hel] |].
           split; [intros pre post E; no_split E |].
           split; [| reflexivity].
           intros _ nl m Hel Hnl.
           apply elem_of_cons in Hel as [Hel|Hel]; [discriminate |].
           apply elem_of_cons in Hel as [Hel|Hel]; [congruence |].
           no_elem Hel.
        -- split; [split; [intros Hel; no_elem Hel | intros (_ & E & _); lia] |].
           split; [intros Hel; no_elem Hel |].
           split; [intros pre post E; no_split E |].
           split; [| intros Hel; no_elem Hel].
           intros _ nl m Hel Hnl.
           apply elem_of_cons in Hel as [Hel|Hel]; [congruence |].
           no_elem Hel.
      * destruct (Z.ltb_spec 0 max_nc) as [Hmax|Hmax];
          simpl in Hsched; rewrite Hsched.
        -- split; [split; [auto | intros _; apply list_elem_of_here] |].
           split; [intros _; eexists; split;
                   [reflexivity | intros Hel; no_elem Hel] |].
           split; [intros pre post E; no_split E |].
           split; [| reflexivity].
           intros _ nl m Hel Hnl.
           apply elem_of_cons in Hel as [Hel|Hel]; [discriminate |].
           apply elem_of_cons in Hel as [Hel|Hel]; [congruence |].
           no_elem Hel.
        -- split; [split; [intros Hel; no_elem Hel | intros (_ & E & _); lia] |].
           split; [intros Hel; no_elem Hel |].
           split; [intros pre post E; no_split E |].
           split; [| intros Hel; no_elem Hel].
           intros _ nl m Hel Hnl.
           apply elem_of_cons in Hel as [Hel|Hel]; [congruence |].
           no_elem Hel.
      * assert (Hmax : (0 <? max_nc) = true) by (apply Z.ltb_lt; lia).
        rewrite Hmax in Hsched. simpl in Hsched. rewrite Hsched.
        split; [split; [intros _; split; [assumption | split; [lia | assumption]]
                       | intros _; apply list_elem_of_here] |].
        split; [intros _; eexists; split;
                [reflexivity | intros Hel; no_elem Hel] |].
        split.
        { intros pre post E.
          change (MSave :: MPrune 0 0 :: MCount 0 :: MRestore :: MPrune 1 1
                  :: (MCount <$> cs) ++ [MFree true])
            with ([MSave; MPrune 0 0; MCount 0]
                  ++ MRestore :: (MPrune 1 1 :: (MCount <$> cs) ++ [MFree true]))
            in E.
          apply split_at_unique in E as [-> ->].
          - split; [reflexivity |]. split; [reflexivity |].
            intros Hel. no_elem Hel.
          - intros Hel. no_elem Hel.
          - intros Hel. no_elem Hel. }
        split.
        { intros _ nl m _ _. do 3 apply list_elem_of_further.
          apply list_elem_of_here. }
        intros _. rewrite !app_comm_cons, last_app. reflexivity.
    + destruct (min_null_count (opts st) =? 0) eqn:Hz;
        [apply Z.eqb_eq in Hz; contradiction |].
      destruct (parse_loop_frame
                  (Z.to_nat (max_nc - min_null_count (opts st) + 1))
                  false (min_null_count (opts st)) false st0
                  ltac:(discriminate))
        as (_ & L' & HL' & _ & Hlm & _ & Hnr & _).
      rewrite HL in HL'. apply app_inv_head in HL'. subst L'.
      simpl in Hsched. rewrite Hsched.
      assert (Hsave : MSave ∉ schedule L ++ [MFree false]).
      { intros Hel. apply elem_of_app in Hel as [Hel|Hel];
          [exact (loop_marks_no_save _ Hlm Hel) | no_elem Hel]. }
      assert (Hrest : MRestore ∉ schedule L ++ [MFree false]).
      { intros Hel. apply elem_of_app in Hel as [Hel|Hel];
          [exact (Hnr eq_refl Hel) | no_elem Hel]. }
      split; [split; [intros Hel; contradiction
                     | intros (E & _); contradiction] |].
      split; [intros Hel; contradiction |].
      split.
      { intros pre post E. exfalso. apply Hrest. rewrite E.
        apply elem_of_app. right. apply list_elem_of_here. }
      split; [intros E; contradiction | intros Hel; contradiction].
Qed.

End Controller.

(** ** The properties on concrete runs *)

(** C1, as stated, fails.  Five linkages are found and the limit is two:
    there is no overflow and no shuffle preference, and yet the indices
    handed to [extract_links] are the random seeds -1 and -2. *)
Lemma random_trigger_counterexample :
  ~ @random_trigger_as_specified five_found false
      (@sampling_state five_found 5 2).
Proof.
  unfold random_trigger_as_specified. intros [_ Hback].
  assert (E : extract_indices
                (since (@sampling_state five_found 5 2)
                   (@process_linkages five_found false
                      (@sampling_state five_found 5 2)))
              = [-1; -2]) by (vm_compute; reflexivity).
  rewrite E in Hback.
  assert (Hneg : forall x : Z, x ∈ [-1; -2] -> x < 0).
  { intros x Hx. apply elem_of_cons in Hx as [->|Hx]; [lia |].
    apply list_elem_of_singleton in Hx as ->. lia. }
  specialize (Hback Hneg). vm_compute in Hback. discriminate.
Qed.

Lemma random_sampling_trigger_witness :
  let st := @sampling_state five_found 5 2 in
  (0 <= num_linkages_alloced (sent st) <= num_linkages_found (sent st)) /\
  num_linkages_found (sent st) <= INT_MAX /\
  @pick_randomly false (sent st) = true /\
  (forall x,
     x ∈ extract_indices (since st (@process_linkages five_found false st)) ->
     x < 0).
Proof.
  cbv zeta.
  assert (H1 : 0 <= num_linkages_alloced (sent (@sampling_state five_found 5 2))
               <= num_linkages_found (sent (@sampling_state five_found 5 2)))
    by (vm_compute; split; discriminate).
  assert (H2 : num_linkages_found (sent (@sampling_state five_found 5 2))
               <= INT_MAX)
    by (vm_compute; discriminate).
  split; [exact H1 |]. split; [exact H2 |].
  destruct (@random_sampling_trigger five_found false
              (@sampling_state five_found 5 2) H1 H2) as (Hp & Hneg & _).
  split; [exact Hp | exact (Hneg eq_refl)].
Defined.

Lemma process_linkages_attempts_capped_witness :
  let st := @sampling_state five_found 5 2 in
  0 <= num_linkages_alloced (sent st) /\
  0 <= num_linkages_found (sent st) /\
  Z.of_nat
    (length (extract_indices (since st (@process_linkages five_found false st))))
  <= 5.
Proof.
  cbv zeta.
  assert (H1 : 0 <= num_linkages_alloced (sent (@sampling_state five_found 5 2)))
    by (vm_compute; discriminate).
  assert (H2 : 0 <= num_linkages_found (sent (@sampling_state five_found 5 2)))
    by (vm_compute; discriminate).
  split; [exact H1 |]. split; [exact H2 |].
  exact (proj1 (@process_linkages_attempts_capped five_found false
                  (@sampling_state five_found 5 2) H1 H2)).
Defined.


Lemma morphology_filter_witness :
  let st := @sampling_state one_in_three 20 4 in
  let st' := @process_linkages one_in_three true st in
  num_linkages_found (sent st) <> 0 /\
  0 < num_linkages_alloced (sent st) /\
  (forall j, 0 <= j < num_linkages_alloced (sent st) -> in_range (sent st) j) /\
  exists lkg,
    lkg ∈ accepted (since st st') /\
    get_lkg (sent st') 0 = @remove_empty_words one_in_three lkg.
Proof.
  cbv zeta.
  assert (H1 : num_linkages_found (sent (@sampling_state one_in_three 20 4))
               <> 0)
    by (vm_compute; discriminate).
  assert (H2 : 0 < num_linkages_alloced (sent (@sampling_state one_in_three 20 4)))
    by (vm_compute; reflexivity).
  assert (H3 : forall j,
            0 <= j < num_linkages_alloced (sent (@sampling_state one_in_three 20 4)) ->
            in_range (sent (@sampling_state one_in_three 20 4)) j).
  { intros j Hj. eexists. split; [vm_compute; reflexivity |].
    change (num_linkages_alloced (sent (@sampling_state one_in_three 20 4)))
      with 4 in Hj.
    simpl. lia. }
  split; [exact H1 |]. split; [exact H2 |]. split; [exact H3 |].
  apply (proj1 (@morphology_filter one_in_three) true
           (@sampling_state one_in_three 20 4) H1 H2 H3 0).
  vm_compute. split; [discriminate | reflexivity].
Defined.

Lemma post_process_scenario_rejects_only totals overflow sane rejects budget :
  @post_process_rejects_only (scenario totals overflow sane rejects budget).
Proof.
  intros l s o. simpl.
  split; [reflexivity |]. split; [reflexivity |]. split; [reflexivity |].
  lia.
Defined.

Lemma post_process_scenario_unsigned totals overflow sane rejects budget :
  @valid_count_unsigned (scenario totals overflow sane rejects budget).
Proof. intros l s o. simpl. lia. Defined.

Lemma counters_after_parse_witness :
  let st := start (fresh_sentence 5) (options 0 2 10) in
  @post_process_rejects_only three_found /\
  0 <= linkage_limit (opts st) <= INT_MAX /\
  counters_ok (sent (@classic_parse three_found st)) (opts st).
Proof.
  cbv zeta.
  assert (H2 : 0 <= linkage_limit (opts (start (fresh_sentence 5) (options 0 2 10)))
               <= INT_MAX)
    by (vm_compute; split; discriminate).
  split; [apply post_process_scenario_rejects_only |]. split; [exact H2 |].
  apply (proj1 (@counters_after_parse three_found
                  (start (fresh_sentence 5) (options 0 2 10))
                  (post_process_scenario_rejects_only _ _ _ _ _) H2)).
  vm_compute. discriminate.
Defined.

(** C4, as stated, fails.  Nothing is found at null count 0 and the
    resource budget runs out in the pass at null count 1: the loop stops
    after null count 0 with no valid linkage, and the range 0..2 is not
    exhausted. *)
Lemma escalation_counterexample :
  ~ @escalation_as_specified budget_runs_out
      (start (fresh_sentence 5) (options 0 2 10)).
Proof.
  unfold escalation_as_specified. cbv zeta.
  assert (E1 : counted_null_counts
                 (since (start (fresh_sentence 5) (options 0 2 10))
                    (@classic_parse budget_runs_out
                       (start (fresh_sentence 5) (options 0 2 10))))
               = [0]) by (vm_compute; reflexivity).
  assert (E2 : valid_counts
                 (since (start (fresh_sentence 5) (options 0 2 10))
                    (@classic_parse budget_runs_out
                       (start (fresh_sentence 5) (options 0 2 10))))
               = [0]) by (vm_compute; reflexivity).
  rewrite E1, E2. intros (k & Hk & Hend).
  apply (f_equal length) in Hk. rewrite length_seqZ in Hk. simpl in Hk.
  destruct Hend as [(v & Hv & Hpos)|[Hrange _]].
  - simpl in Hv. injection Hv as <-. lia.
  - change (min_null_count (opts (start (fresh_sentence 5) (options 0 2 10))))
      with 0 in Hrange.
    change (sent_length (sent (start (fresh_sentence 5) (options 0 2 10))))
      with 5 in Hrange.
    change (max_null_count (opts (start (fresh_sentence 5) (options 0 2 10))))
      with 2 in Hrange.
    lia.
Qed.

Lemma null_count_escalation_witness :
  let st := start (fresh_sentence 5) (options 0 2 4) in
  @valid_count_unsigned one_in_three /\
  0 <= min_null_count (opts st) /\
  0 <= sent_length (sent st) <= INT_MAX /\
  Z.min (sent_length (sent st)) (max_null_count (opts st)) < INT_MAX /\
  exists k : nat,
    counted_null_counts (since st (@classic_parse one_in_three st))
    = seqZ 0 (Z.of_nat k) /\
    0 + Z.of_nat k <= Z.max 0 (Z.min 5 2 + 1).
Proof.
  cbv zeta.
  assert (H2 : 0 <= min_null_count (opts (start (fresh_sentence 5) (options 0 2 4))))
    by (vm_compute; discriminate).
  assert (H3 : 0 <= sent_length (sent (start (fresh_sentence 5) (options 0 2 4)))
               <= INT_MAX)
    by (vm_compute; split; discriminate).
  assert (H4 : Z.min (sent_length (sent (start (fresh_sentence 5) (options 0 2 4))))
                 (max_null_count (opts (start (fresh_sentence 5) (options 0 2 4))))
               < INT_MAX)
    by (vm_compute; reflexivity).
  split; [apply post_process_scenario_unsigned |].
  split; [exact H2 |]. split; [exact H3 |]. split; [exact H4 |].
  destruct (@null_count_escalation one_in_three
              (start (fresh_sentence 5) (options 0 2 4))
              (post_process_scenario_unsigned _ _ _ _ _) H2 H3 H4)
    as (k & Hk & Hle & _).
  exists k. split; [exact Hk | exact Hle].
Defined.

(** C5, as stated, fails.  min_null_count is 0 and the clamped maximum
    null count is 2, but the resource budget is spent at the entry check:
    [classic_parse] returns before the snapshot is taken. *)
Lemma snapshot_counterexample :
  ~ @snapshot_as_specified budget_spent
      (start (fresh_sentence 5) (options 0 2 10)).
Proof.
  unfold snapshot_as_specified. cbv zeta. intros [[_ Hsave] _].
  assert (E : schedule
                (since (start (fresh_sentence 5) (options 0 2 10))
                   (@classic_parse budget_spent
                      (start (fresh_sentence 5) (options 0 2 10))))
              = []) by (vm_compute; reflexivity).
  rewrite E in Hsave.
  assert (Hel : MSave ∈ @nil Mark)
    by (apply Hsave; split; reflexivity).
  apply elem_of_nil in Hel. exact Hel.
Qed.

(** C9, as stated, fails.  A sentence that still holds the three linkages
    of an earlier parse is parsed again with the resource budget spent:
    the entry check returns at once, and the sentence still holds three
    linkages, not zero. *)
Lemma entry_abort_counterexample :
  ~ @entry_abort_as_specified budget_spent
      (start parsed_once (options 0 2 10)).
Proof.
  unfold entry_abort_as_specified. intros Hzero.
  destruct (Hzero eq_refl) as [Hvalid _].
  vm_compute in Hvalid. discriminate.
Qed.

Lemma resource_exhaustion_aborts_witness :
  let st := start (fresh_sentence 5) (options 0 2 10) in
  let r := @parse_pass budget_spent true 0 false st in
  never_exhausted (since st (snd r)) = false /\
  fst (fst r) = true /\ sent (snd r) = sent st /\
  last (since st (snd r)) = Some (Ev_resources_exhausted true).
Proof.
  cbv zeta.
  assert (H1 : never_exhausted
                 (since (start (fresh_sentence 5) (options 0 2 10))
                    (snd (@parse_pass budget_spent true 0 false
                            (start (fresh_sentence 5) (options 0 2 10)))))
               = false)
    by (vm_compute; reflexivity).
  split; [exact H1 |].
  apply (proj2 (proj2 (@resource_exhaustion_aborts budget_spent))
           true 0 false (start (fresh_sentence 5) (options 0 2 10))
           _ (snd (fst (@parse_pass budget_spent true 0 false
                          (start (fresh_sentence 5) (options 0 2 10)))))
           _).
  - destruct (@parse_pass budget_spent true 0 false
                (start (fresh_sentence 5) (options 0 2 10)))
      as [[b d] s]. reflexivity.
  - exact H1.
Defined.

(** ** The scenarios of the specification *)

(** A sentence of five words, null counts 0..2, limit 10, three linkages
    at null count 0 that all pass: three valid linkages, and the loop
    stops at null count 0. *)
Example scenario_three_found :
  let st' := @classic_parse three_found
               (start (fresh_sentence 5) (options 0 2 10)) in
  num_valid_linkages (sent st') = 3 /\
  null_count (sent st') = 0 /\
  counted_null_counts (log st') = [0] /\
  extract_indices (log st') = [0; 1; 2].
Proof. vm_compute. repeat split. Qed.

(** A count of 1000000 with an overflow and limit 50: the sampler picks
    randomly, the capacity is 50 and the attempts are capped at 250050. *)
Example scenario_overflow_cap :
  let s := set_num_linkages_alloced 50
             (set_num_linkages_found 1000000 (fresh_sentence 5)) in
  pick_randomly true s = true /\ maxtries true s = 250050.
Proof. vm_compute. split; reflexivity. Qed.

(** Every sampled linkage fails the morphology check at every null count:
    no valid linkage at the end, and every draw was tried. *)
Example scenario_all_invalid :
  let st' := @classic_parse
               (scenario (fun _ => 6) false (fun _ => false) 0 100)
               (start (fresh_sentence 5) (options 0 2 4)) in
  num_valid_linkages (sent st') = 0 /\
  counted_null_counts (log st') = [0; 1; 2] /\
  extract_indices (log st')
  = [-1; -2; -3; -4; -5; -6; -1; -2; -3; -4; -5; -6; -1; -2; -3; -4; -5; -6].
Proof. vm_compute. repeat split. Qed.

(** * Further properties of the code *)

(** ** print_chosen_disjuncts_words *)







(** ** setup_linkages *)

Section Allocation.
Context `{Collaborators}.

(** X3.  When no linkage was found, [setup_linkages] allocates nothing:
    the three counters it keeps are zero and the array pointer is NULL
    (an array of an earlier parse is dropped, not released: the only call
    is the one to [build_parse_set]); the options and the count found are
    as they were, and [process_linkages] then does nothing at all. *)
Theorem setup_linkages_nothing_found st :
  num_linkages_found (sent st) = 0 ->
  let ovfl := fst (setup_linkages st) in
  let st' := snd (setup_linkages st) in
  since st st' = [Ev_build_parse_set ovfl] /\
  opts st' = opts st /\
  sent st'
  = set_lnkages None
      (set_num_valid_linkages 0
         (set_num_linkages_post_processed 0
            (set_num_linkages_alloced 0 (sent st)))) /\
  process_linkages ovfl st' = st'.
Proof.
  intros Hzero. cbv zeta. unfold setup_linkages. cbv zeta.
  cbn [fst snd log sent opts emit on_sent on_opts].
  rewrite Hzero.
  cbn [fst snd log sent opts emit on_sent on_opts Z.eqb].
  split; [apply since_app; reflexivity |].
  split; [reflexivity |]. split; [reflexivity |].
  unfold process_linkages.
  cbn [fst snd log sent opts emit on_sent on_opts].
  assert (E : forall s a b c,
             num_linkages_found
               (set_lnkages a (set_num_valid_linkages b
                  (set_num_linkages_post_processed c
                     (set_num_linkages_alloced 0 s))))
             = num_linkages_found s) by reflexivity.
  rewrite E, Hzero. reflexivity.
Qed.

(** X4.  When linkages were found and the sentence holds no array,
    [setup_linkages] allocates one record for each linkage found, up to
    the linkage limit: [num_linkages_alloced] is the lesser of the two,
    the array has exactly that many records, and every one of them reads
    as zeroed memory.  The count found, the count of valid linkages, the
    count post-processed and the options are not written, and
    [free_linkages] is not called. *)
Theorem setup_linkages_allocates st :
  lnkages (sent st) = None ->
  0 < num_linkages_found (sent st) <= INT_MAX ->
  0 <= linkage_limit (opts st) <= INT_MAX ->
  let ovfl := fst (setup_linkages st) in
  let st' := snd (setup_linkages st) in
  let a := Z.min (num_linkages_found (sent st)) (linkage_limit (opts st)) in
  since st st' = [Ev_build_parse_set ovfl] /\
  opts st' = opts st /\
  sent st' = set_lnkages (lnkages (sent st')) (set_num_linkages_alloced a (sent st)) /\
  capacity (sent st') = a /\
  forall j, 0 <= j < a ->
    in_range (sent st') j /\ get_lkg (sent st') j = zero_linkage.
Proof.
  intros Hnull Hfound Hlimit. cbv zeta.
  destruct (setup_linkages_spec st Hnull) as (ovfl & Hfst & Ho & Hlog & Hsent).
  destruct (Z.eqb_spec (num_linkages_found (sent st)) 0) as [Hz|_]; [lia |].
  assert (Ha : to_size_t (MIN (num_linkages_found (sent st))
                              (to_int (linkage_limit (opts st))))
               = Z.min (num_linkages_found (sent st))
                       (linkage_limit (opts st))).
  { rewrite to_int_id by (unfold INT_MAX in *; lia).
    rewrite MIN_min. apply to_size_t_id. lia. }
  cbv zeta in Hsent. rewrite Ha in Hsent.
  set (a := Z.min (num_linkages_found (sent st)) (linkage_limit (opts st))) in *.
  assert (Hint : to_int a = a) by (apply to_int_id; unfold INT_MAX in *; lia).
  rewrite Hint in Hsent.
  split; [rewrite Hfst; apply since_app; exact Hlog |].
  split; [exact Ho |].
  rewrite Hsent.
  split; [reflexivity |].
  split; [unfold capacity; simpl; apply linkage_array_capacity; lia |].
  intros j Hj. split.
  - eexists. split; [reflexivity |].
    unfold linkage_array_new. rewrite length_replicate. lia.
  - unfold get_lkg, linkage_array_new. simpl.
    rewrite lookup_replicate_2 by lia. reflexivity.
Qed.

End Allocation.

Lemma setup_linkages_nothing_found_witness :
  let st := start (fresh_sentence 5) (options 0 2 10) in
  num_linkages_found (sent st) = 0 /\
  @process_linkages three_found
    (fst (@setup_linkages three_found st))
    (snd (@setup_linkages three_found st))
  = snd (@setup_linkages three_found st).
Proof.
  cbv zeta.
  assert (H1 : num_linkages_found
                 (sent (start (fresh_sentence 5) (options 0 2 10))) = 0)
    by reflexivity.
  split; [exact H1 |].
  exact (proj2 (proj2 (proj2
           (@setup_linkages_nothing_found three_found
              (start (fresh_sentence 5) (options 0 2 10)) H1)))).
Defined.

Lemma setup_linkages_allocates_witness :
  let st := start (set_num_linkages_found 20 (fresh_sentence 5))
              (options 0 2 4) in
  lnkages (sent st) = None /\
  0 < num_linkages_found (sent st) <= INT_MAX /\
  0 <= linkage_limit (opts st) <= INT_MAX /\
  capacity (sent (snd (@setup_linkages one_in_three st))) = Z.min 20 4.
Proof.
  cbv zeta.
  assert (H1 : lnkages (sent (start (set_num_linkages_found 20 (fresh_sentence 5))
                                (options 0 2 4))) = None)
    by reflexivity.
  assert (H2 : 0 < num_linkages_found
                     (sent (start (set_num_linkages_found 20 (fresh_sentence 5))
                              (options 0 2 4))) <= INT_MAX)
    by (vm_compute; split; [reflexivity | discriminate]).
  assert (H3 : 0 <= linkage_limit
                      (opts (start (set_num_linkages_found 20 (fresh_sentence 5))
                               (options 0 2 4))) <= INT_MAX)
    by (vm_compute; split; discriminate).
  split; [exact H1 |]. split; [exact H2 |]. split; [exact H3 |].
  exact (proj1 (proj2 (proj2 (proj2
           (@setup_linkages_allocates one_in_three
              (start (set_num_linkages_found 20 (fresh_sentence 5))
                 (options 0 2 4)) H1 H2 H3))))).
Defined.

(** ** process_linkages *)

Lemma verdicts_app l1 l2 : verdicts (l1 ++ l2) = verdicts l1 ++ verdicts l2.
Proof. apply omap_app. Qed.

Lemma released_slots_app l1 l2 :
  released_slots (l1 ++ l2) = released_slots l1 ++ released_slots l2.
Proof. apply omap_app. Qed.

Lemma touched_slots_app l1 l2 :
  touched_slots (l1 ++ l2) = touched_slots l1 ++ touched_slots l2.
Proof. apply omap_app. Qed.

Lemma in_range_capacity s j :
  in_range s j <-> Z.of_nat (Z.to_nat j) < capacity s.
Proof.
  unfold in_range, capacity. destruct (lnkages s) as [arr|].
  - split.
    + intros (arr' & E & Hj). injection E as <-. lia.
    + intros Hj. exists arr. split; [reflexivity | lia].
  - split; [intros (arr' & E & _); discriminate | lia].
Qed.

Lemma get_lkg_outside s j : ~ in_range s j -> get_lkg s j = zero_linkage.
Proof.
  unfold in_range, get_lkg. destruct (lnkages s) as [arr|]; [| reflexivity].
  intros Hout. rewrite lookup_ge_None_2; [reflexivity |].
  destruct (decide (Z.to_nat j < length arr)%nat) as [Hlt|]; [| lia].
  contradiction Hout. eauto.
Qed.

Section SamplerLog.
Context `{Collaborators}.

(** The calls of one pass of the loop, and what the pass leaves in the
    locals. *)
Lemma try_linkage_log pick itry v st :
  let '(brk, v', st') := try_linkage pick itry v st in
  exists lkg b,
    log st' = log st
      ++ (if need_init v then [Ev_partial_init_linkage (in_ v)] else [])
      ++ [Ev_extract_links (in_ v) (selection_index pick itry);
          Ev_compute_link_names (in_ v);
          Ev_sane_linkage_morphism lkg b]
      ++ (if b then [Ev_remove_empty_words (in_ v)] else []) /\
    (exists l s o, sane_linkage_morphism l s lkg o = b) /\
    need_init v' = b /\
    in_ v' = (if b then in_ v + 1 else in_ v) /\
    brk = b && (in_ v + 1 >=? num_linkages_alloced (sent st)) /\
    frame (sent st) (sent st') /\
    (forall j, Z.to_nat j <> Z.to_nat (in_ v) ->
               get_lkg (sent st') j = get_lkg (sent st) j).
Proof.
  pose proof (try_linkage_spec pick itry v st) as Hspec.
  unfold try_linkage in *. cbv zeta in *.
  assert (Hdraw : log (draw pick itry v st) = log st
            ++ (if need_init v then [Ev_partial_init_linkage (in_ v)] else [])
            ++ [Ev_extract_links (in_ v) (selection_index pick itry);
                Ev_compute_link_names (in_ v)]).
  { unfold draw, stage_slot. cbv zeta. destruct (need_init v);
      cbn [fst snd log sent opts emit on_sent on_opts on_lkg];
      rewrite <- !app_assoc; reflexivity. }
  assert (Hall : num_linkages_alloced (sent (draw pick itry v st))
                 = num_linkages_alloced (sent st))
    by (apply frame_alloced; apply draw_spec).
  remember (draw pick itry v st) as st1 eqn:E1. clear E1.
  destruct (sane_linkage_morphism (log st1) (sent st1)
              (get_lkg (sent st1) (in_ v)) (opts st1)) eqn:Hsane;
    unfold accept, reject in *;
    cbn [fst snd log sent opts emit on_sent on_opts on_lkg in_ need_init] in *;
    destruct Hspec as (_ & Hf & Hother & _);
    exists (get_lkg (sent st1) (in_ v));
    [exists true | exists false];
    (split; [rewrite Hdraw; destruct (need_init v);
             rewrite <- ?app_assoc; reflexivity |]);
    (split; [eauto |]);
    (split; [reflexivity |]); (split; [reflexivity |]);
    (split; [| split; assumption]).
  - now rewrite <- Hall.
  - reflexivity.
Qed.

(** The loop of [process_linkages]: the cursor counts the linkages kept,
    [need_init] remembers the last verdict, and every slot that is
    touched lies between the cursor at the start and the cursor at the
    end. *)
Lemma pl_loop_log n pick : forall itry v st v' st',
  pl_loop n pick itry v st = (v', st') ->
  0 <= in_ v ->
  frame (sent st) (sent st') /\
  exists chunk,
    log st' = log st ++ chunk /\
    in_ v' = in_ v + Z.of_nat (length (accepted chunk)) /\
    need_init v' = default (need_init v) (last (verdicts chunk)) /\
    released_slots chunk = [] /\
    (length (verdicts chunk) <= n)%nat /\
    ((length (verdicts chunk) < n)%nat ->
     num_linkages_alloced (sent st) <= in_ v') /\
    ((forall l s lk o, sane_linkage_morphism l s lk o = true) ->
     length (accepted chunk) = length (verdicts chunk)) /\
    (verdicts chunk = [] -> chunk = []) /\
    (forall s, s ∈ touched_slots chunk ->
       in_ v <= s <= in_ v' /\ (s = in_ v' -> need_init v' = false)) /\
    (in_ v < num_linkages_alloced (sent st) ->
     in_ v' <= num_linkages_alloced (sent st) /\
     (need_init v' = false -> in_ v' < num_linkages_alloced (sent st))) /\
    (forall j, in_ v' <= j -> (j = in_ v' -> need_init v' = true) ->
               get_lkg (sent st') j = get_lkg (sent st) j).
Proof.
  induction n as [|n IH]; intros itry v st v' st' Hrun Hpos; simpl in Hrun.
  - injection Hrun as <- <-. split; [apply frame_refl |].
    exists []. rewrite app_nil_r. simpl.
    split; [reflexivity |]. split; [lia |]. split; [reflexivity |].
    split; [reflexivity |]. split; [lia |]. split; [lia |].
    split; [reflexivity |]. split; [reflexivity |].
    split; [intros s Hs; apply elem_of_nil in Hs; contradiction |].
    split; [intros Hlt; split; [lia | intros _; exact Hlt] |].
    reflexivity.
  - pose proof (try_linkage_log pick itry v st) as Hstep.
    destruct (try_linkage pick itry v st) as [[brk v1] st1].
    destruct Hstep as (lkg & b & Hlog & Horacle & Hni & Hin & Hbrk & Hf & Hother).
    pose proof (frame_alloced _ _ Hf) as Hall.
    set (c1 := (if need_init v then [Ev_partial_init_linkage (in_ v)] else [])
               ++ [Ev_extract_links (in_ v) (selection_index pick itry);
                   Ev_compute_link_names (in_ v);
                   Ev_sane_linkage_morphism lkg b]
               ++ (if b then [Ev_remove_empty_words (in_ v)] else [])) in *.
    assert (V1 : verdicts c1 = [b])
      by (subst c1; destruct (need_init v), b; reflexivity).
    assert (A1 : length (accepted c1) = if b then 1%nat else 0%nat)
      by (subst c1; destruct (need_init v), b; reflexivity).
    assert (R1 : released_slots c1 = [])
      by (subst c1; destruct (need_init v), b; reflexivity).
    assert (T1 : forall s, s ∈ touched_slots c1 -> s = in_ v).
    { intros s Hs. subst c1. destruct (need_init v), b; simpl in Hs;
        repeat (apply elem_of_cons in Hs as [Hs|Hs]; [exact Hs |]);
        apply elem_of_nil in Hs; contradiction. }
    assert (Hv1 : in_ v <= in_ v1 <= in_ v + 1)
      by (rewrite Hin; destruct b; lia).
    destruct brk.
    + injection Hrun as <- <-.
      symmetry in Hbrk. apply andb_prop in Hbrk as [-> Hfull].
      apply Z.geb_le in Hfull.
      split; [assumption |].
      exists c1. rewrite V1, A1, R1. simpl.
      split; [assumption |]. split; [lia |]. split; [assumption |].
      split; [reflexivity |]. split; [lia |]. split; [intros _; lia |].
      split; [reflexivity |]. split; [discriminate |].
      split; [intros s Hs; rewrite (T1 s Hs); split; [lia |]; intros E; lia |].
      split; [intros Hlt; split; [lia | rewrite Hni; discriminate] |].
      intros j Hj _. apply Hother. lia.
    + specialize (IH (itry + 1) v1 st1 v' st' Hrun ltac:(lia)).
      destruct IH as (Hf' & c2 & Hlog' & Hcur' & Hni' & R2 & Hk' & Hearly'
                      & Hsane' & Hnil' & Htouch' & Hbound' & Huntouched').
      split; [eapply frame_trans; eassumption |].
      exists (c1 ++ c2).
      rewrite verdicts_app, accepted_app, released_slots_app, V1, R1, R2,
        !length_app, A1.
      split; [rewrite Hlog', Hlog, app_assoc; reflexivity |].
      split; [rewrite Hcur', Hin; destruct b; simpl; lia |].
      split.
      { rewrite Hni', Hni. simpl.
        destruct (verdicts c2) as [|b2 bs] eqn:E2; [reflexivity |].
        change (last (b :: b2 :: bs)) with (last (b2 :: bs)).
        rewrite last_cons. destruct (last bs); reflexivity. }
      split; [reflexivity |].
      split; [simpl; lia |].
      split; [intros Hlt; rewrite <- Hall; apply Hearly'; simpl in Hlt; lia |].
      split.
      { intros Hall_sane. rewrite (Hsane' Hall_sane).
        destruct Horacle as (l & s & o & Hor). rewrite Hall_sane in Hor.
        subst b. reflexivity. }
      split; [discriminate |].
      assert (Hle : in_ v1 <= in_ v')
        by (rewrite Hcur'; lia).
      assert (Hstay : in_ v' = in_ v -> need_init v' = false).
      { intros E. assert (E1 : in_ v1 = in_ v) by lia.
        assert (Hb : b = false) by (rewrite Hin in E1; destruct b; [lia | reflexivity]).
        assert (E2 : length (accepted c2) = 0%nat) by lia.
        rewrite Hni', Hni, Hb.
        destruct (verdicts c2) as [|b2 bs] eqn:Ev; [reflexivity |].
        destruct (last (b2 :: bs)) as [bl|] eqn:El; [| reflexivity].
        simpl. destruct bl; [| reflexivity].
        exfalso.
        assert (Hacc : forall l, last (verdicts l) = Some true ->
                                 (0 < length (accepted l))%nat).
        { clear. induction l as [|e l IHl]; [discriminate |].
          destruct e; simpl; try exact IHl.
          destruct answer; simpl.
          - intros _. lia.
          - destruct (verdicts l) eqn:E; [discriminate |].
            rewrite last_cons. rewrite <- E in *.
            destruct (last (verdicts l)) eqn:El; [| discriminate].
            intros E'. injection E' as ->. apply IHl. reflexivity. }
        specialize (Hacc c2). rewrite Ev, El in Hacc.
        specialize (Hacc eq_refl). lia. }
      split.
      { intros s Hs. rewrite touched_slots_app in Hs.
        apply elem_of_app in Hs as [Hs|Hs].
        - rewrite (T1 s Hs). split; [lia |]. intros E. apply Hstay. lia.
        - destruct (Htouch' s Hs) as [Hr Heq]. split; [lia | exact Heq]. }
      split.
      { intros Hlt.
        assert (Hlt1 : in_ v1 < num_linkages_alloced (sent st1)).
        { rewrite Hall, Hin. symmetry in Hbrk. destruct b; [| lia].
          simpl in Hbrk.
          destruct (Z.geb_spec (in_ v + 1) (num_linkages_alloced (sent st)));
            [discriminate | lia]. }
        rewrite <- Hall. apply Hbound', Hlt1. }
      intros j Hj Hfresh.
      rewrite (Huntouched' j Hj Hfresh). apply Hother.
      assert (Hne : j <> in_ v).
      { intros ->. assert (E : in_ v' = in_ v) by lia.
        pose proof (Hstay E) as Hfalse.
        rewrite Hfresh in Hfalse by lia. discriminate. }
      lia.
Qed.

End SamplerLog.

Lemma get_lkg_same_array s s' j :
  lnkages s' = lnkages s -> get_lkg s' j = get_lkg s j.
Proof. unfold get_lkg. intros ->. reflexivity. Qed.

Lemma last_verdict_kept l :
  last (verdicts l) = Some true -> (0 < length (accepted l))%nat.
Proof.
  induction l as [|e l IH]; [discriminate |].
  destruct e; simpl; try exact IH.
  destruct answer; simpl; [intros _; lia |].
  destruct (verdicts l) as [|b bs] eqn:E; [discriminate |].
  change (last (false :: b :: bs)) with (last (b :: bs)). exact IH.
Qed.

Section SamplerRun.
Context `{Collaborators}.

(** A run of [process_linkages] that gets past its two guards. *)
Lemma process_linkages_log ovfl st :
  num_linkages_found (sent st) <> 0 ->
  num_linkages_alloced (sent st) <> 0 ->
  exists chunk cursor,
    log (process_linkages ovfl st) = log st ++ chunk /\
    num_valid_linkages (sent (process_linkages ovfl st)) = cursor /\
    num_linkages_alloced (sent (process_linkages ovfl st)) = cursor /\
    cursor = Z.of_nat (length (accepted chunk)) /\
    released_slots chunk
    = match last (verdicts chunk) with
      | Some false => [cursor]
      | _ => []
      end /\
    (last (verdicts chunk) = Some false ->
     last chunk = Some (Ev_free_linkage cursor)) /\
    (length (verdicts chunk) <= Z.to_nat (maxtries ovfl (sent st)))%nat /\
    ((length (verdicts chunk) < Z.to_nat (maxtries ovfl (sent st)))%nat ->
     num_linkages_alloced (sent st) <= cursor) /\
    ((forall l s lk o, sane_linkage_morphism l s lk o = true) ->
     length (accepted chunk) = length (verdicts chunk)) /\
    (forall s, s ∈ touched_slots chunk -> 0 <= s <= cursor) /\
    (0 < num_linkages_alloced (sent st) ->
     cursor <= num_linkages_alloced (sent st) /\
     forall s, s ∈ touched_slots chunk -> s < num_linkages_alloced (sent st)) /\
    (forall j, cursor <= j ->
       get_lkg (sent (process_linkages ovfl st)) j = get_lkg (sent st) j
       \/ (j = cursor /\ last (verdicts chunk) = Some false /\
           exists l, get_lkg (sent (process_linkages ovfl st)) j
                     = free_linkage l)).
Proof.
  intros Hf0 Ha0. unfold process_linkages.
  destruct (Z.eqb_spec (num_linkages_found (sent st)) 0) as [|_];
    [contradiction |].
  destruct (Z.eqb_spec (num_linkages_alloced (sent st)) 0) as [|_];
    [contradiction |].
  set (st0 := on_sent (set_num_valid_linkages 0) st).
  destruct (pl_loop (Z.to_nat (maxtries ovfl (sent st)))
              (pick_randomly ovfl (sent st)) 0 (mkLocals 0 true 0) st0)
    as [v' st1] eqn:Hloop.
  apply pl_loop_log in Hloop; [| simpl; lia].
  destruct Hloop as (Hf & chunk & Hlog & Hcur & Hni & Hrel & Hk & Hearly
                     & Hsane & Hnil & Htouch & Hbound & Huntouched).
  cbn [in_ need_init] in Hcur, Hni, Htouch, Hbound, Huntouched.
  change (num_linkages_alloced (sent st0))
    with (num_linkages_alloced (sent st)) in *.
  change (log st0) with (log st) in *.
  assert (Hget0 : forall j, get_lkg (sent st0) j = get_lkg (sent st) j)
    by reflexivity.
  assert (Hcap : capacity (sent st1) = capacity (sent st))
    by (destruct Hf as [_ ->]; reflexivity).
  destruct (need_init v') eqn:Hneed;
    cbn [fst snd log sent opts emit on_sent on_opts on_lkg].
  - assert (Hlast : last (verdicts chunk) <> Some false).
    { intros E. rewrite E in Hni. discriminate. }
    exists chunk, (in_ v').
    split; [assumption |]. split; [reflexivity |]. split; [reflexivity |].
    split; [lia |].
    split; [rewrite Hrel; destruct (last (verdicts chunk)) as [[|]|];
            [reflexivity | contradiction | reflexivity] |].
    split; [intros E; contradiction |].
    split; [assumption |]. split; [assumption |]. split; [assumption |].
    split; [intros s Hs; destruct (Htouch s Hs) as [Hr _]; lia |].
    split.
    { intros Hpos. destruct (Hbound Hpos) as [Hle _].
      split; [assumption |]. intros s Hs.
      destruct (Htouch s Hs) as [Hr Heq].
      destruct (decide (s = in_ v')) as [E|E]; [| lia].
      specialize (Heq E). discriminate. }
    intros j Hj. left.
    rewrite <- Hget0, <- (Huntouched j Hj ltac:(auto)).
    apply get_lkg_same_array. reflexivity.
  - assert (Hlast : last (verdicts chunk) = Some false).
    { destruct (last (verdicts chunk)) as [[|]|]; simpl in Hni;
        [discriminate | reflexivity | discriminate]. }
    exists (chunk ++ [Ev_free_linkage (in_ v')]), (in_ v').
    rewrite verdicts_app, accepted_app, released_slots_app, Hrel, !app_nil_r,
      Hlast.
    split; [rewrite Hlog, app_assoc; reflexivity |].
    split; [reflexivity |]. split; [reflexivity |].
    split; [lia |]. split; [reflexivity |].
    split; [intros _; apply last_snoc |].
    split; [assumption |]. split; [assumption |]. split; [assumption |].
    assert (Hslots : forall s, s ∈ touched_slots (chunk ++ [Ev_free_linkage (in_ v')]) ->
                       s ∈ touched_slots chunk \/ s = in_ v').
    { intros s Hs. rewrite touched_slots_app in Hs.
      apply elem_of_app in Hs as [Hs|Hs]; [now left | right].
      apply list_elem_of_singleton in Hs. exact Hs. }
    split.
    { intros s Hs. destruct (Hslots s Hs) as [Hs'| ->]; [| lia].
      destruct (Htouch s Hs') as [Hr _]. lia. }
    split.
    { intros Hpos. destruct (Hbound Hpos) as [Hle Hlt].
      specialize (Hlt eq_refl).
      split; [assumption |]. intros s Hs.
      destruct (Hslots s Hs) as [Hs'| ->]; [| assumption].
      destruct (Htouch s Hs') as [Hr _]. lia. }
    intros j Hj.
    set (s2 := put_lkg (in_ v') (free_linkage (get_lkg (sent st1) (in_ v')))
                 (sent st1)).
    assert (E2 : get_lkg
                   (set_num_linkages_alloced (in_ v')
                      (set_num_valid_linkages (in_ v') s2)) j
                 = get_lkg s2 j) by reflexivity.
    change (get_lkg
              (set_num_linkages_alloced
                 (num_valid_linkages (set_num_valid_linkages (in_ v') s2))
                 (set_num_valid_linkages (in_ v') s2)) j)
      with (get_lkg s2 j).
    destruct (decide (j = in_ v')) as [->|Hne].
    + destruct (decide (Z.of_nat (Z.to_nat (in_ v')) < capacity (sent st1)))
        as [Hin|Hout]; rewrite <- in_range_capacity in *.
      * right. split; [reflexivity |]. split; [reflexivity |].
        eexists. subst s2. apply get_put_same. exact Hin.
      * left.
        assert (Hout2 : ~ in_range s2 (in_ v')).
        { rewrite in_range_capacity in *. subst s2.
          destruct (put_lkg_frame (in_ v')
                      (free_linkage (get_lkg (sent st1) (in_ v'))) (sent st1))
            as [_ ->]. exact Hout. }
        assert (Hout0 : ~ in_range (sent st) (in_ v'))
          by (rewrite in_range_capacity in *; rewrite <- Hcap; exact Hout).
        now rewrite !get_lkg_outside.
    + left. subst s2. rewrite get_put_other by lia.
      rewrite <- Hget0. apply Huntouched; [assumption | intros E; lia].
Qed.

End SamplerRun.

Section SamplerOutcome.
Context `{Collaborators}.

(** X5.  A run of [process_linkages] that gets past its guards returns
    with [num_valid_linkages] equal to the number of draws on which
    [sane_linkage_morphism] answered true, and with
    [num_linkages_alloced] lowered to that same number: the records
    counted as allocated from then on are the ones that were kept. *)
Theorem process_linkages_counts_kept ovfl st :
  num_linkages_found (sent st) <> 0 ->
  num_linkages_alloced (sent st) <> 0 ->
  let st' := process_linkages ovfl st in
  num_valid_linkages (sent st')
  = Z.of_nat (length (accepted (since st st'))) /\
  num_linkages_alloced (sent st') = num_valid_linkages (sent st').
Proof.
  intros Hf0 Ha0 st'. subst st'.
  destruct (process_linkages_log ovfl st Hf0 Ha0)
    as (chunk & cursor & Hlog & Hv & Ha & Hc & _).
  rewrite (since_app _ _ _ Hlog), Hv, Ha. auto.
Qed.

(** X6.  [process_linkages] gives up only when its attempts are used up:
    if it returns fewer linkages than the array had room for, the
    morphology check was run exactly [maxtries] times. *)
Theorem process_linkages_gives_up_late ovfl st :
  num_linkages_found (sent st) <> 0 ->
  num_linkages_alloced (sent st) <> 0 ->
  let st' := process_linkages ovfl st in
  num_valid_linkages (sent st') < num_linkages_alloced (sent st) ->
  length (verdicts (since st st')) = Z.to_nat (maxtries ovfl (sent st)).
Proof.
  intros Hf0 Ha0 st' Hshort. subst st'.
  destruct (process_linkages_log ovfl st Hf0 Ha0)
    as (chunk & cursor & Hlog & Hv & _ & _ & _ & _ & Hk & Hearly & _).
  rewrite (since_app _ _ _ Hlog). rewrite Hv in Hshort.
  destruct (decide (length (verdicts chunk)
                    < Z.to_nat (maxtries ovfl (sent st)))%nat) as [Hlt|Hge];
    [specialize (Hearly Hlt) |]; lia.
Qed.

(** X7.  The slot under the cursor is handed to [free_linkage] exactly
    when the last verdict of the morphology check was a rejection: then
    that call is the last one made, it is the only such call, and its
    slot is the one just past the linkages kept.  After an acceptance,
    or when nothing was tried, [free_linkage] is not called. *)
Theorem rejected_slot_released ovfl st :
  let st' := process_linkages ovfl st in
  let new := since st st' in
  released_slots new
  = match last (verdicts new) with
    | Some false => [num_valid_linkages (sent st')]
    | _ => []
    end /\
  (last (verdicts new) = Some false ->
   last new = Some (Ev_free_linkage (num_valid_linkages (sent st')))).
Proof.
  cbv zeta.
  destruct (process_linkages_spec ovfl st) as [[Hsame _]|(Hf0 & Ha0 & _)].
  - rewrite Hsame, since_refl. split; [reflexivity | discriminate].
  - destruct (process_linkages_log ovfl st Hf0 Ha0)
      as (chunk & cursor & Hlog & Hv & _ & _ & Hrel & Hlast & _).
    rewrite (since_app _ _ _ Hlog), Hv. auto.
Qed.

(** X8.  [process_linkages] stays inside the array.  When the array
    has at least [num_linkages_alloced] records, as [setup_linkages]
    leaves it, every slot that the function hands to
    [partial_init_linkage], [extract_links], [compute_link_names],
    [remove_empty_words] or [free_linkage] is a record of the array: its
    index is at least 0, below [num_linkages_alloced] as the function
    found it, and below the number of records, before the call and
    after it. *)
Theorem process_linkages_in_bounds ovfl st :
  0 <= num_linkages_alloced (sent st) <= capacity (sent st) ->
  forall s, s ∈ touched_slots (since st (process_linkages ovfl st)) ->
    0 <= s < num_linkages_alloced (sent st) /\
    s < capacity (sent st) /\
    in_range (sent st) s /\
    in_range (sent (process_linkages ovfl st)) s.
Proof.
  intros Hcap s Hs.
  destruct (process_linkages_spec ovfl st)
    as [[Hsame _]|(Hf0 & Ha0 & _ & _ & _ & _ & _ & Hkeep & _)].
  - rewrite Hsame, since_refl in Hs. apply elem_of_nil in Hs. contradiction.
  - destruct (process_linkages_log ovfl st Hf0 Ha0)
      as (chunk & cursor & Hlog & _ & _ & _ & _ & _ & _ & _ & _ & Hlow
          & Hhigh & _).
    rewrite (since_app _ _ _ Hlog) in Hs.
    destruct (Hhigh ltac:(lia)) as [_ Hlt].
    specialize (Hlow s Hs). specialize (Hlt s Hs).
    split; [lia |]. split; [lia |].
    rewrite !in_range_capacity, Hkeep. lia.
Qed.

(** X9.  What [process_linkages] leaves past the linkages kept: every
    record from [num_valid_linkages] on is as it was before the call,
    but for the one at [num_valid_linkages] when the last draw was
    rejected, which is what [free_linkage] made of it.  No record past
    the count holds a linkage that was extracted and not released. *)
Theorem slots_past_valid_untouched ovfl st :
  let st' := process_linkages ovfl st in
  forall j, num_valid_linkages (sent st') <= j ->
    get_lkg (sent st') j = get_lkg (sent st) j
    \/ (j = num_valid_linkages (sent st') /\
        last (verdicts (since st st')) = Some false /\
        exists l, get_lkg (sent st') j = free_linkage l).
Proof.
  cbv zeta. intros j Hj.
  destruct (process_linkages_spec ovfl st) as [[Hsame _]|(Hf0 & Ha0 & _)].
  - rewrite Hsame. now left.
  - destruct (process_linkages_log ovfl st Hf0 Ha0)
      as (chunk & cursor & Hlog & Hv & _ & _ & _ & _ & _ & _ & _ & _
          & _ & Hpast).
    rewrite (since_app _ _ _ Hlog), Hv in *. apply Hpast, Hj.
Qed.

(** X10.  When every draw passes the morphology check, the array is
    filled: [process_linkages] keeps as many linkages as there were
    records, with one draw for each, and [num_linkages_alloced] is not
    lowered. *)
Theorem all_sane_fills_array ovfl st :
  (forall l s lk o, sane_linkage_morphism l s lk o = true) ->
  0 < num_linkages_alloced (sent st) <= num_linkages_found (sent st) ->
  num_linkages_alloced (sent st) + MAX_TRIES <= INT_MAX ->
  let st' := process_linkages ovfl st in
  num_valid_linkages (sent st') = num_linkages_alloced (sent st) /\
  num_linkages_alloced (sent st') = num_linkages_alloced (sent st) /\
  length (verdicts (since st st'))
  = Z.to_nat (num_linkages_alloced (sent st)).
Proof.
  intros Hall_sane Ha Hfit st'. subst st'.
  destruct (process_linkages_log ovfl st ltac:(lia) ltac:(lia))
    as (chunk & cursor & Hlog & Hv & Hal & Hc & _ & _ & Hk & Hearly & Hsane
        & _ & Hhigh & _).
  rewrite (since_app _ _ _ Hlog), Hv, Hal.
  specialize (Hsane Hall_sane). destruct (Hhigh ltac:(lia)) as [Hle _].
  assert (Hmax : num_linkages_alloced (sent st) <= maxtries ovfl (sent st)).
  { unfold maxtries, MAX_TRIES, INT_MAX in *.
    rewrite !to_int_id by (unfold INT_MAX; rewrite ?to_int_id;
                           unfold INT_MAX; lia).
    rewrite MIN_min. destruct (pick_randomly ovfl (sent st)); lia. }
  assert (Hcur : cursor = num_linkages_alloced (sent st)).
  { destruct (decide (length (verdicts chunk)
                      < Z.to_nat (maxtries ovfl (sent st)))%nat) as [Hlt|Hge];
      [specialize (Hearly Hlt) |]; lia. }
  split; [assumption |]. split; [assumption |]. lia.
Qed.

End SamplerOutcome.

Lemma process_linkages_counts_kept_witness :
  let st := @sampling_state one_in_three 20 4 in
  num_linkages_found (sent st) <> 0 /\
  num_linkages_alloced (sent st) <> 0 /\
  num_linkages_alloced (sent (@process_linkages one_in_three true st))
  = num_valid_linkages (sent (@process_linkages one_in_three true st)).
Proof.
  cbv zeta.
  assert (H1 : num_linkages_found (sent (@sampling_state one_in_three 20 4))
               <> 0) by (vm_compute; discriminate).
  assert (H2 : num_linkages_alloced (sent (@sampling_state one_in_three 20 4))
               <> 0) by (vm_compute; discriminate).
  split; [exact H1 |]. split; [exact H2 |].
  exact (proj2 (@process_linkages_counts_kept one_in_three true
                  (@sampling_state one_in_three 20 4) H1 H2)).
Defined.

Lemma process_linkages_gives_up_late_witness :
  let C := scenario (fun _ => 6) false (fun _ => false) 0 100 in
  let st := @sampling_state C 6 4 in
  num_linkages_found (sent st) <> 0 /\
  num_linkages_alloced (sent st) <> 0 /\
  num_valid_linkages (sent (@process_linkages C false st))
  < num_linkages_alloced (sent st) /\
  length (verdicts (since st (@process_linkages C false st)))
  = Z.to_nat (@maxtries false (sent st)).
Proof.
  cbv zeta.
  set (C := scenario (fun _ => 6) false (fun _ => false) 0 100).
  assert (H1 : num_linkages_found (sent (@sampling_state C 6 4)) <> 0)
    by (vm_compute; discriminate).
  assert (H2 : num_linkages_alloced (sent (@sampling_state C 6 4)) <> 0)
    by (vm_compute; discriminate).
  assert (H3 : num_valid_linkages
                 (sent (@process_linkages C false (@sampling_state C 6 4)))
               < num_linkages_alloced (sent (@sampling_state C 6 4)))
    by (vm_compute; reflexivity).
  split; [exact H1 |]. split; [exact H2 |]. split; [exact H3 |].
  exact (@process_linkages_gives_up_late C false (@sampling_state C 6 4)
           H1 H2 H3).
Defined.

Lemma process_linkages_in_bounds_witness :
  let st := @sampling_state one_in_three 20 4 in
  0 <= num_linkages_alloced (sent st) <= capacity (sent st) /\
  3 ∈ touched_slots (since st (@process_linkages one_in_three true st)) /\
  in_range (sent st) 3.
Proof.
  cbv zeta.
  assert (H1 : 0 <= num_linkages_alloced
                      (sent (@sampling_state one_in_three 20 4))
               <= capacity (sent (@sampling_state one_in_three 20 4)))
    by (vm_compute; split; discriminate).
  assert (H2 : 3 ∈ touched_slots
                     (since (@sampling_state one_in_three 20 4)
                        (@process_linkages one_in_three true
                           (@sampling_state one_in_three 20 4)))).
  { vm_compute. do 25 apply list_elem_of_further. apply list_elem_of_here. }
  split; [exact H1 |]. split; [exact H2 |].
  exact (proj1 (proj2 (proj2
           (@process_linkages_in_bounds one_in_three true
              (@sampling_state one_in_three 20 4) H1 3 H2)))).
Defined.

Lemma slots_past_valid_untouched_witness :
  let st := @sampling_state one_in_three 20 4 in
  let st' := @process_linkages one_in_three true st in
  num_valid_linkages (sent st') <= 4 /\
  (get_lkg (sent st') 4 = get_lkg (sent st) 4
   \/ (4 = num_valid_linkages (sent st') /\
       last (verdicts (since st st')) = Some false /\
       exists l, get_lkg (sent st') 4 = @free_linkage one_in_three l)).
Proof.
  cbv zeta.
  assert (H1 : num_valid_linkages
                 (sent (@process_linkages one_in_three true
                          (@sampling_state one_in_three 20 4))) <= 4)
    by (vm_compute; discriminate).
  split; [exact H1 |].
  exact (@slots_past_valid_untouched one_in_three true
           (@sampling_state one_in_three 20 4) 4 H1).
Defined.

Lemma all_sane_fills_array_witness :
  let st := @sampling_state three_found 3 10 in
  (forall l s lk o, @sane_linkage_morphism three_found l s lk o = true) /\
  0 < num_linkages_alloced (sent st) <= num_linkages_found (sent st) /\
  num_linkages_alloced (sent st) + MAX_TRIES <= INT_MAX /\
  num_valid_linkages (sent (@process_linkages three_found false st))
  = num_linkages_alloced (sent st).
Proof.
  cbv zeta.
  assert (H1 : forall l s lk o,
             @sane_linkage_morphism three_found l s lk o = true)
    by (intros; reflexivity).
  assert (H2 : 0 < num_linkages_alloced (sent (@sampling_state three_found 3 10))
               <= num_linkages_found (sent (@sampling_state three_found 3 10)))
    by (vm_compute; split; [reflexivity | discriminate]).
  assert (H3 : num_linkages_alloced (sent (@sampling_state three_found 3 10))
               + MAX_TRIES <= INT_MAX)
    by (vm_compute; discriminate).
  split; [exact H1 |]. split; [exact H2 |]. split; [exact H3 |].
  exact (proj1 (@all_sane_fills_array three_found false
                  (@sampling_state three_found 3 10) H1 H2 H3)).
Defined.

(** ** sort_linkages *)

Lemma insert_by_perm cmp x l : insert_by cmp x l ≡ₚ x :: l.
Proof.
  induction l as [|y l IH]; [reflexivity |].
  simpl. destruct (cmp x y <=? 0); [reflexivity |].
  rewrite IH. apply Permutation_swap.
Qed.

Lemma insertion_sort_perm cmp l : foldr (insert_by cmp) [] l ≡ₚ l.
Proof.
  induction l as [|x l IH]; [reflexivity |].
  simpl. rewrite insert_by_perm. now apply Permutation_skip.
Qed.

Lemma insertion_sort_length cmp l :
  length (foldr (insert_by cmp) [] l) = length l.
Proof. apply Permutation_length, insertion_sort_perm. Qed.

Lemma qsort_take cmp n arr :
  take (Z.to_nat n) (qsort cmp n arr)
  = foldr (insert_by cmp) [] (take (Z.to_nat n) arr).
Proof.
  unfold qsort. rewrite take_app_ge
    by (rewrite insertion_sort_length, length_take; lia).
  rewrite insertion_sort_length, length_take.
  destruct (decide (Z.to_nat n <= length arr)%nat) as [Hle|Hgt].
  - replace (Z.to_nat n - Z.to_nat n `min` length arr)%nat with 0%nat by lia.
    rewrite take_0. apply app_nil_r.
  - rewrite drop_ge by lia. rewrite take_nil. apply app_nil_r.
Qed.

Lemma qsort_drop cmp n arr :
  drop (Z.to_nat n) (qsort cmp n arr) = drop (Z.to_nat n) arr.
Proof.
  unfold qsort.
  destruct (decide (Z.to_nat n <= length arr)%nat) as [Hle|Hgt].
  - rewrite drop_app_length'; [reflexivity |].
    rewrite insertion_sort_length, length_take. lia.
  - rewrite (drop_ge arr) by lia. rewrite app_nil_r.
    apply drop_ge. rewrite insertion_sort_length, length_take. lia.
Qed.

Lemma insert_by_sorted cmp x l :
  comparator_total cmp -> comparator_transitive cmp ->
  Sorted.StronglySorted (fun a b => cmp a b <= 0) l ->
  Sorted.StronglySorted (fun a b => cmp a b <= 0) (insert_by cmp x l).
Proof.
  intros Htot Htrans. induction l as [|y l IH]; intros Hs; simpl.
  - constructor; [constructor | constructor].
  - apply Sorted.StronglySorted_inv in Hs as [Hs Hy].
    destruct (Z.leb_spec (cmp x y) 0) as [Hle|Hgt].
    + constructor; [constructor; assumption |].
      constructor; [assumption |].
      rewrite Forall_forall in *. intros z Hz.
      eapply Htrans; [exact Hle | apply Hy, Hz].
    + constructor; [apply IH, Hs |].
      rewrite Forall_forall in *. intros z Hz.
      rewrite insert_by_perm in Hz.
      apply elem_of_cons in Hz as [->|Hz]; [apply Htot, Hgt | apply Hy, Hz].
Qed.

Lemma insertion_sort_sorted cmp l :
  comparator_total cmp -> comparator_transitive cmp ->
  Sorted.StronglySorted (fun a b => cmp a b <= 0)
    (foldr (insert_by cmp) [] l).
Proof.
  intros Htot Htrans. induction l as [|x l IH]; simpl.
  - constructor.
  - now apply insert_by_sorted.
Qed.

(** X11.  [sort_linkages] only reorders: the first
    [num_linkages_alloced] records of the array afterwards are a
    permutation of the first [num_linkages_alloced] records before, the
    records past them stay where they were, and nothing else in the
    sentence or in the options is written.  [qsort] is called at most
    once, and not at all when no linkage was found or when the linkages
    are shuffled. *)
Theorem sort_linkages_permutes st :
  let st' := sort_linkages st in
  let n := Z.to_nat (num_linkages_alloced (sent st)) in
  opts st' = opts st /\
  sent st' = set_lnkages (lnkages (sent st')) (sent st) /\
  match lnkages (sent st), lnkages (sent st') with
  | Some arr, Some arr' =>
      take n arr' ≡ₚ take n arr /\ drop n arr' = drop n arr
  | None, None => True
  | _, _ => False
  end /\
  (since st st' = [] \/
   since st st' = [Ev_qsort (num_linkages_alloced (sent st))]) /\
  (num_linkages_found (sent st) = 0 \/
   (rand_state (sent st) <> 0 /\ shuffle_linkages (sent st) = true) ->
   st' = st).
Proof.
  cbv zeta. unfold sort_linkages.
  assert (Hsame : opts st = opts st /\
            sent st = set_lnkages (lnkages (sent st)) (sent st) /\
            match lnkages (sent st), lnkages (sent st) with
            | Some arr, Some arr' =>
                take (Z.to_nat (num_linkages_alloced (sent st))) arr'
                ≡ₚ take (Z.to_nat (num_linkages_alloced (sent st))) arr /\
                drop (Z.to_nat (num_linkages_alloced (sent st))) arr'
                = drop (Z.to_nat (num_linkages_alloced (sent st))) arr
            | None, None => True
            | _, _ => False
            end /\
            (since st st = [] \/
             since st st = [Ev_qsort (num_linkages_alloced (sent st))])).
  { split; [reflexivity |]. split; [now destruct (sent st) |].
    split; [destruct (lnkages (sent st)); auto |].
    left. apply since_refl. }
  destruct (Z.eqb_spec (num_linkages_found (sent st)) 0) as [Hz|Hnz].
  { destruct Hsame as (? & ? & ? & ?). auto 6. }
  destruct (Z.eqb_spec (rand_state (sent st)) 0) as [Hr|Hr]; simpl.
  - cbn [fst snd log sent opts emit on_sent on_opts].
    split; [reflexivity |]. split; [reflexivity |].
    split.
    { destruct (sent st) as [? ? ? ? ? ? [arr|] ? ?]; simpl; [| exact I].
      split; [rewrite qsort_take; apply insertion_sort_perm
             | apply qsort_drop]. }
    split; [right; apply since_app; reflexivity |].
    intros [E|[E _]]; contradiction.
  - destruct (shuffle_linkages (sent st)) eqn:Hsh.
    { destruct Hsame as (? & ? & ? & ?). auto 6. }
    cbn [fst snd log sent opts emit on_sent on_opts].
    split; [reflexivity |]. split; [reflexivity |].
    split.
    { destruct (sent st) as [? ? ? ? ? ? [arr|] ? ?]; simpl; [| exact I].
      split; [rewrite qsort_take; apply insertion_sort_perm
             | apply qsort_drop]. }
    split; [right; apply since_app; reflexivity |].
    intros [E|[_ E]]; [contradiction | discriminate].
Qed.

(** X12.  When linkages were found and they are not shuffled,
    [sort_linkages] leaves the first [num_linkages_alloced] records in
    the order of the cost model's comparator: no record compares above
    a record that comes after it.  The comparator has to order any two
    records and to be transitive, as [qsort] asks of it. *)
Theorem sort_linkages_sorts st :
  comparator_total (compare_fn (opts st)) ->
  comparator_transitive (compare_fn (opts st)) ->
  num_linkages_found (sent st) <> 0 ->
  rand_state (sent st) = 0 \/ shuffle_linkages (sent st) = false ->
  forall arr',
    lnkages (sent (sort_linkages st)) = Some arr' ->
    Sorted.StronglySorted (fun a b => compare_fn (opts st) a b <= 0)
      (take (Z.to_nat (num_linkages_alloced (sent st))) arr').
Proof.
  intros Htot Htrans Hfound Hplain arr'. unfold sort_linkages.
  destruct (Z.eqb_spec (num_linkages_found (sent st)) 0) as [|_];
    [contradiction |].
  assert (Hgo : negb (rand_state (sent st) =? 0) && shuffle_linkages (sent st)
                = false).
  { destruct Hplain as [->| ->]; [reflexivity | apply andb_false_r]. }
  rewrite Hgo. cbn [fst snd log sent opts emit on_sent on_opts].
  destruct (sent st) as [? ? ? ? ? ? [arr|] ? ?]; simpl; [| discriminate].
  intros E. injection E as <-.
  rewrite qsort_take. now apply insertion_sort_sorted.
Qed.

Lemma sort_linkages_sorts_witness :
  let st := start unsorted_sentence (options 0 2 10) in
  comparator_total (compare_fn (opts st)) /\
  comparator_transitive (compare_fn (opts st)) /\
  num_linkages_found (sent st) <> 0 /\
  (rand_state (sent st) = 0 \/ shuffle_linkages (sent st) = false) /\
  Sorted.StronglySorted (fun a b => compare_fn (opts st) a b <= 0)
    [mkLinkage 0 4 5 []; mkLinkage 1 4 5 []; mkLinkage 2 4 5 []].
Proof.
  cbv zeta.
  assert (H1 : comparator_total
                 (compare_fn (opts (start unsorted_sentence (options 0 2 10)))))
    by (intros a b; simpl; lia).
  assert (H2 : comparator_transitive
                 (compare_fn (opts (start unsorted_sentence (options 0 2 10)))))
    by (intros a b c; simpl; lia).
  assert (H3 : num_linkages_found
                 (sent (start unsorted_sentence (options 0 2 10))) <> 0)
    by (vm_compute; discriminate).
  assert (H4 : rand_state (sent (start unsorted_sentence (options 0 2 10))) = 0
               \/ shuffle_linkages
                    (sent (start unsorted_sentence (options 0 2 10))) = false)
    by (left; reflexivity).
  split; [exact H1 |]. split; [exact H2 |]. split; [exact H3 |].
  split; [exact H4 |].
  exact (sort_linkages_sorts
           (start unsorted_sentence (options 0 2 10)) H1 H2 H3 H4
           [mkLinkage 0 4 5 []; mkLinkage 1 4 5 []; mkLinkage 2 4 5 []]
           eq_refl).
Defined.

(** ** classic_parse: what it holds and releases *)

Lemma held_ok_app alloc free use h l1 l2 :
  held_ok alloc free use h (l1 ++ l2)
  = match held_ok alloc free use h l1 with
    | Some h' => held_ok alloc free use h' l2
    | None => None
    end.
Proof.
  revert h. induction l1 as [|e l1 IH]; intros h; simpl; [reflexivity |].
  destruct (alloc e); [destruct h; [reflexivity | apply IH] |].
  destruct (free e); [apply IH |].
  destruct (use e); [destruct h; [apply IH | reflexivity] | apply IH].
Qed.

(** The calls of the sampler neither allocate nor release the matcher,
    the count context or the extractor; they use the extractor. *)
Lemma sampler_held chunk :
  forallb sampler_event chunk = true ->
  (forall h, held_ok matcher_alloc matcher_free counting_call h chunk
             = Some h) /\
  (forall h, held_ok context_alloc context_free counting_call h chunk
             = Some h) /\
  held_ok extractor_alloc extractor_free extractor_call true chunk = Some true.
Proof.
  induction chunk as [|e chunk IH]; intros Hs; [auto |].
  simpl in Hs. apply andb_prop in Hs as [He Hs].
  destruct (IH Hs) as (IM & IC & IE).
  destruct e; try discriminate He; simpl; auto.
Qed.

(** Sorting and the releases at the end allocate nothing and use
    nothing. *)
Lemma cleanup_held tail :
  forallb cleanup_event tail = true ->
  (forall h, exists h',
     held_ok matcher_alloc matcher_free counting_call h tail = Some h') /\
  (forall h, exists h',
     held_ok context_alloc context_free counting_call h tail = Some h') /\
  (forall h, held_ok extractor_alloc extractor_free extractor_call h tail
             = Some h).
Proof.
  induction tail as [|e tail IH]; intros Hs; [simpl; eauto |].
  simpl in Hs. apply andb_prop in Hs as [He Hs].
  destruct (IH Hs) as (IM & IC & IE).
  destruct e; try discriminate He; simpl; auto.
Qed.

Section Handles.
Context `{Collaborators}.

(** The calls of the pruning branch of a pass. *)
Lemma prune_stage_log is0 nl st :
  let '(brk, st') := prune_stage is0 nl st in
  exists pre m r (keep : bool),
    log st' = log st ++ pre
      ++ [Ev_pp_and_power_prune nl m; Ev_set_connector_hash r;
          Ev_pack_sentence r; Ev_resources_exhausted brk]
      ++ (if brk then []
          else (if keep then []
                else [Ev_free_count_context; Ev_alloc_count_context])
               ++ [Ev_free_fast_matcher; Ev_alloc_fast_matcher]) /\
    (pre = [] \/ pre = [Ev_restore_disjuncts]) /\
    (keep = true -> is0 = true /\ nl <> 0).
Proof.
  unfold prune_stage, check_resources, prune. cbv zeta.
  destruct (negb (nl =? 0) && is0) eqn:Hrestore;
    destruct is0;
    cbn [fst snd log sent opts emit on_sent on_opts];
    match goal with
    | |- context [resources_exhausted ?l] =>
        destruct (resources_exhausted l)
    end;
    try match goal with
    | |- context [negb ?r || (nl =? 0) || ?b] =>
        destruct (negb r || (nl =? 0) || b) eqn:Hcond
    end;
    cbn [fst snd log sent opts emit on_sent on_opts];
    rewrite <- ?app_assoc.
  all: try (eexists [Ev_restore_disjuncts], _, _, false;
            split; [reflexivity | split; [now right | discriminate]]).
  all: try (eexists [], _, _, false;
            split; [reflexivity | split; [now left | discriminate]]).
  all: try (eexists [Ev_restore_disjuncts], _, _, true;
            split; [reflexivity |]; split; [now right |]; intros _;
            split; [reflexivity |];
            apply andb_prop in Hrestore as [Hnl _];
            apply negb_true_iff, Z.eqb_neq in Hnl; exact Hnl).
  all: try (apply orb_false_elim in Hcond as [Hcond _];
            apply orb_false_elim in Hcond as [_ Hnl];
            rewrite Hnl in Hrestore; discriminate Hrestore).
  all: try (apply orb_false_elim in Hcond as [_ Hb]; discriminate Hb).
  all: try discriminate Hrestore.
Qed.

(** The calls of the counting branch of a pass. *)
Lemma count_stage_log nl st :
  let '(brk, st') := count_stage nl st in
  log st' = log st ++ [Ev_resources_exhausted true]
  \/ exists hist ovfl chunk v,
       log st' = log st
         ++ [Ev_resources_exhausted false; Ev_free_linkages;
             Ev_do_parse (to_size_t nl) hist;
             Ev_extractor_new; Ev_build_parse_set ovfl]
         ++ chunk ++ [Ev_free_extractor; Ev_post_process_lkgs v] /\
       forallb sampler_event chunk = true.
Proof.
  unfold count_stage, check_resources.
  destruct (resources_exhausted (log st)) eqn:Hex; [now left |].
  right.
  set (st0 := emit (Ev_resources_exhausted false) st).
  destruct (count_linkages_spec nl st0) as (hist & Ho & Hlog & Hsent).
  assert (Hfound : 0 <= num_linkages_found (sent (count_linkages nl st0))
                   <= INT_MAX).
  { rewrite Hsent. simpl.
    pose proof (clamp_total_range (hist_total hist)) as Hc.
    rewrite to_int_id by lia. exact Hc. }
  destruct (materialize_spec (count_linkages nl st0)
              ltac:(rewrite Hsent; reflexivity)
              ltac:(rewrite Hsent; reflexivity) Hfound)
    as (_ & ovfl & chunk & _ & _ & Hlog' & Hsamp & _).
  exists hist, ovfl, chunk. eexists.
  split; [| exact Hsamp].
  rewrite Hlog', Hlog.
  change (log st0) with (log st ++ [Ev_resources_exhausted false]).
  rewrite <- !app_assoc. reflexivity.
Qed.

Lemma count_stage_held nl st :
  let '(brk, st') := count_stage nl st in
  exists chunk,
    log st' = log st ++ chunk /\
    held_ok matcher_alloc matcher_free counting_call true chunk = Some true /\
    held_ok context_alloc context_free counting_call true chunk = Some true /\
    held_ok extractor_alloc extractor_free extractor_call false chunk
    = Some false.
Proof.
  pose proof (count_stage_log nl st) as Hlog.
  destruct (count_stage nl st) as [brk st'].
  destruct Hlog as [Hlog|(hist & ovfl & chunk & v & Hlog & Hsamp)];
    eexists; (split; [exact Hlog |]); [auto |].
  destruct (sampler_held chunk Hsamp) as (HM & HC & HE).
  simpl. rewrite !held_ok_app, HM, HC, HE. auto.
Qed.

Lemma parse_pass_held is0 nl done st :
  let '(brk, _, st') := parse_pass is0 nl done st in
  exists chunk,
    log st' = log st ++ chunk /\
    (forall h, (done = true -> h = true) ->
       exists h', held_ok matcher_alloc matcher_free counting_call h chunk
                  = Some h' /\ (brk = false -> h' = true)) /\
    (forall h, (done = true -> h = true) ->
               (is0 = true -> nl <> 0 -> h = true) ->
       exists h', held_ok context_alloc context_free counting_call h chunk
                  = Some h' /\ (brk = false -> h' = true)) /\
    held_ok extractor_alloc extractor_free extractor_call false chunk
    = Some false.
Proof.
  unfold parse_pass. destruct done.
  - pose proof (count_stage_held nl st) as Hc.
    destruct (count_stage nl st) as [brk st'].
    destruct Hc as (chunk & Hlog & HM & HC & HE).
    exists chunk. split; [exact Hlog |].
    split; [intros h Hh; rewrite (Hh eq_refl); eauto |].
    split; [intros h Hh _; rewrite (Hh eq_refl); eauto | exact HE].
  - pose proof (prune_stage_log is0 nl st) as Hp.
    destruct (prune_stage is0 nl st) as [brk1 st1].
    destruct Hp as (pre & m & r & keep & Hlog1 & Hpre & Hkeep).
    destruct brk1.
    + eexists. split; [exact Hlog1 |].
      destruct Hpre as [-> | ->]; simpl;
        (split; [intros h _; exists h; split; [reflexivity | discriminate] |]);
        (split; [intros h _ _; exists h; split; [reflexivity | discriminate]
                | reflexivity]).
    + pose proof (count_stage_held nl st1) as Hc.
      destruct (count_stage nl st1) as [brk st'].
      destruct Hc as (chunk & Hlog & HM & HC & HE).
      eexists. split; [rewrite Hlog, Hlog1, <- !app_assoc; reflexivity |].
      split; [| split].
      * intros h _. exists true. split; [| reflexivity].
        destruct Hpre as [-> | ->], keep, h; simpl; exact HM.
      * intros h _ Hh. exists true. split; [| reflexivity].
        destruct keep.
        -- destruct (Hkeep eq_refl) as [E0 Hnl].
           rewrite (Hh E0 Hnl).
           destruct Hpre as [-> | ->]; simpl; exact HC.
        -- destruct Hpre as [-> | ->], h; simpl; exact HC.
      * destruct Hpre as [-> | ->], keep; simpl; exact HE.
Qed.

Lemma parse_loop_held n is0 : forall nl done st,
  exists chunk,
    log (parse_loop n is0 nl done st) = log st ++ chunk /\
    (forall h, (done = true -> h = true) ->
       exists h', held_ok matcher_alloc matcher_free counting_call h chunk
                  = Some h') /\
    (forall h, (done = true -> h = true) ->
               (is0 = true -> nl <> 0 -> h = true) ->
       exists h', held_ok context_alloc context_free counting_call h chunk
                  = Some h') /\
    held_ok extractor_alloc extractor_free extractor_call false chunk
    = Some false.
Proof.
  induction n as [|n IH]; intros nl done st; simpl.
  - exists []. rewrite app_nil_r. simpl.
    split; [reflexivity |].
    split; [intros h _; exists h; reflexivity |].
    split; [intros h _ _; exists h; reflexivity | reflexivity].
  - pose proof (parse_pass_held is0 nl done st) as Hpass.
    destruct (parse_pass is0 nl done st) as [[brk done'] st1].
    destruct Hpass as (c1 & Hlog & HM & HC & HE).
    destruct brk.
    + exists c1. split; [exact Hlog |].
      split; [intros h Hh; destruct (HM h Hh) as (h' & E & _); eauto |].
      split; [| exact HE].
      intros h Hh Hh'. destruct (HC h Hh Hh') as (h' & E & _). eauto.
    + destruct (IH (nl + 1) done' st1) as (c2 & Hlog2 & HM2 & HC2 & HE2).
      exists (c1 ++ c2).
      split; [rewrite Hlog2, Hlog, app_assoc; reflexivity |].
      split; [| split].
      * intros h Hh. destruct (HM h Hh) as (h' & E & Ht).
        rewrite held_ok_app, E, (Ht eq_refl). apply HM2. reflexivity.
      * intros h Hh Hh'. destruct (HC h Hh Hh') as (h' & E & Ht).
        rewrite held_ok_app, E, (Ht eq_refl). apply HC2; reflexivity.
      * rewrite held_ok_app, HE. exact HE2.
Qed.

(** The three handles over a whole run of [classic_parse]. *)
Lemma classic_parse_held st :
  let new := since st (classic_parse st) in
  held_ok matcher_alloc matcher_free counting_call false new = Some false /\
  held_ok context_alloc context_free counting_call false new = Some false /\
  held_ok extractor_alloc extractor_free extractor_call false new
  = Some false.
Proof.
  cbv zeta.
  destruct (classic_parse_spec st) as [[_ Hret]|[Hentry _]].
  - rewrite Hret. unfold since. simpl. rewrite drop_app_length. auto.
  - destruct (classic_parse_run st Hentry)
      as (st0 & L & tail & _ & _ & HL & _ & _ & T1 & _ & _ & _ & Hnew).
    cbv zeta in HL.
    destruct (parse_loop_held
                (Z.to_nat (clamped_max_null_count (sent st) (opts st)
                           - min_null_count (opts st) + 1))
                (min_null_count (opts st) =? 0)
                (min_null_count (opts st)) false st0)
      as (L' & HL' & HM & HC & HE).
    rewrite HL in HL'. apply app_inv_head in HL'. subst L'.
    destruct (HM false ltac:(discriminate)) as (hm & EM).
    destruct (HC false ltac:(discriminate)) as (hc & EC).
    { intros E0 Hnl. apply Z.eqb_eq in E0. contradiction. }
    destruct (cleanup_held tail T1) as (TM & TC & TE).
    destruct (TM hm) as (hm' & EM'). destruct (TC hc) as (hc' & EC').
    assert (Hseq : forall alloc free use h1 h2,
               held_ok alloc free use false L = Some h1 ->
               held_ok alloc free use h1 tail = Some h2 ->
               held_ok alloc free use false (L ++ tail ++
                 [Ev_free_saved_disjuncts
                    ((min_null_count (opts st) =? 0)
                     && (0 <? clamped_max_null_count (sent st) (opts st)));
                  Ev_free_count_context; Ev_free_fast_matcher])
               = held_ok alloc free use h2
                   [Ev_free_saved_disjuncts
                      ((min_null_count (opts st) =? 0)
                       && (0 <? clamped_max_null_count (sent st) (opts st)));
                    Ev_free_count_context; Ev_free_fast_matcher]).
    { intros alloc free use h1 h2 E1 E2.
      now rewrite held_ok_app, E1, held_ok_app, E2. }
    rewrite Hnew.
    split; [| split].
    + transitivity (held_ok matcher_alloc matcher_free counting_call hm'
                      [Ev_free_saved_disjuncts
                         ((min_null_count (opts st) =? 0)
                          && (0 <? clamped_max_null_count (sent st) (opts st)));
                       Ev_free_count_context; Ev_free_fast_matcher]);
        [| reflexivity].
      rewrite <- (Hseq _ _ _ _ _ EM EM'). destruct (_ && _); reflexivity.
    + transitivity (held_ok context_alloc context_free counting_call hc'
                      [Ev_free_saved_disjuncts
                         ((min_null_count (opts st) =? 0)
                          && (0 <? clamped_max_null_count (sent st) (opts st)));
                       Ev_free_count_context; Ev_free_fast_matcher]);
        [| reflexivity].
      rewrite <- (Hseq _ _ _ _ _ EC EC'). destruct (_ && _); reflexivity.
    + transitivity (held_ok extractor_alloc extractor_free extractor_call false
                      [Ev_free_saved_disjuncts
                         ((min_null_count (opts st) =? 0)
                          && (0 <? clamped_max_null_count (sent st) (opts st)));
                       Ev_free_count_context; Ev_free_fast_matcher]);
        [| reflexivity].
      rewrite <- (Hseq _ _ _ _ _ HE (TE false)).
      destruct (_ && _); reflexivity.
Qed.

(** X13.  The fast matcher over a run of [classic_parse]: it is
    allocated only after the one before it was released, [do_parse] and
    [build_parse_set] are called only while one is held, and none is
    held when [classic_parse] returns, on any path. *)
Theorem fast_matcher_discipline st :
  held_ok matcher_alloc matcher_free counting_call false
    (since st (classic_parse st)) = Some false.
Proof. apply (classic_parse_held st). Qed.

(** X14.  The count context over a run of [classic_parse]: it is
    allocated only after the one before it was released, [do_parse] and
    [build_parse_set] are called only while one is held (also in the
    pass at null count 1 that keeps the context of the pass at null
    count 0), and none is held when [classic_parse] returns. *)
Theorem count_context_discipline st :
  held_ok context_alloc context_free counting_call false
    (since st (classic_parse st)) = Some false.
Proof. apply (classic_parse_held st). Qed.

(** X15.  The extractor over a run of [classic_parse]: one is allocated
    only when none is held, [build_parse_set] and [extract_links] are
    called only while one is held, and none is held when [classic_parse]
    returns, on any path. *)
Theorem extractor_discipline st :
  held_ok extractor_alloc extractor_free extractor_call false
    (since st (classic_parse st)) = Some false.
Proof. apply (classic_parse_held st). Qed.

End Handles.

(** ** classic_parse: pruning and the range of null counts *)

Lemma pruned_count_marks (cs : list Z) (rest : list Mark) :
  omap (fun m => match m with MPrune nl _ => Some nl | _ => None end)
    ((MCount <$> cs) ++ rest)
  = omap (fun m => match m with MPrune nl _ => Some nl | _ => None end) rest.
Proof.
  rewrite omap_app.
  assert (E : omap (fun m => match m with MPrune nl _ => Some nl | _ => None end)
                (MCount <$> cs) = [])
    by (induction cs as [|c cs IH]; [reflexivity | exact IH]).
  now rewrite E.
Qed.

Section Pruning.
Context `{Collaborators}.

(** The schedule of the loop when the attempt begins above null count 0:
    nothing, or one pruning and then only counting. *)
Lemma parse_loop_from_above n nl st :
  nl <> 0 ->
  exists chunk,
    log (parse_loop n false nl false st) = log st ++ chunk /\
    ((n = 0%nat /\ schedule chunk = [])
     \/ exists cs,
          schedule chunk
          = MPrune nl (min_null_count (opts st)) :: (MCount <$> cs)).
Proof.
  intros Hnl.
  destruct n as [|n]; cbn [parse_loop].
  { exists []. rewrite app_nil_r. auto. }
  pose proof (parse_pass_spec false nl false st ltac:(discriminate)) as Hpass.
  destruct (parse_pass false nl false st) as [[brk done'] st1].
  destruct Hpass as (Ho & Hd & c1 & Hlog & Hcase). cbv zeta in Hcase.
  assert (Hp : prune_marks false nl (opts st)
               = [MPrune nl (min_null_count (opts st))]).
  { unfold prune_marks. now rewrite andb_false_r. }
  rewrite Hp in Hcase.
  assert (Hdone : done' = true).
  { rewrite Hd. simpl. apply negb_true_iff, Z.eqb_neq, Hnl. }
  destruct Hcase as [(Hb & _ & S1 & _)|(v & S1 & _ & _ & _ & Hb & _)].
  { subst brk. exists c1. split; [assumption |]. right. exists [].
    rewrite S1. reflexivity. }
  destruct brk.
  { exists c1. split; [assumption |]. right. exists [to_size_t nl].
    rewrite S1. reflexivity. }
  clear Hd. subst done'.
  destruct (parse_loop_frame n false (nl + 1) true st1 ltac:(discriminate))
    as (_ & c2 & Hlog2 & _ & _ & _ & _ & Hcounts & _).
  exists (c1 ++ c2).
  split; [rewrite Hlog2, Hlog, app_assoc; reflexivity |].
  right. exists (to_size_t nl :: counted_null_counts c2).
  rewrite schedule_app, S1, (Hcounts eq_refl). reflexivity.
Qed.

(** X16.  [classic_parse] prunes the sentence at most twice.  It prunes
    for the first null count of the range; it prunes once more, for null
    count 1, only in an attempt that began at null count 0; every other
    pass counts on the disjuncts pruned before.  [do_parse] is never
    called before the sentence was pruned for the first null count. *)
Theorem pruning_at_most_twice st :
  let new := since st (classic_parse st) in
  let lo := min_null_count (opts st) in
  (pruned_null_counts new = []
   \/ pruned_null_counts new = [lo]
   \/ (lo = 0 /\ pruned_null_counts new = [0; 1])) /\
  (counted_null_counts new <> [] -> head (pruned_null_counts new) = Some lo).
Proof.
  cbv zeta.
  destruct (classic_parse_spec st) as [[_ Hret]|[Hentry _]].
  - rewrite Hret. unfold since. simpl. rewrite drop_app_length.
    split; [now left |]. intros Hne. contradiction Hne. reflexivity.
  - destruct (classic_parse_run st Hentry)
      as (st0 & L & tail & Hs0 & Ho0 & HL & _ & _ & _ & T2 & _ & _ & Hnew).
    cbv zeta in HL.
    set (taken := (min_null_count (opts st) =? 0)
                  && (0 <? clamped_max_null_count (sent st) (opts st))) in *.
    set (n := Z.to_nat (clamped_max_null_count (sent st) (opts st)
                        - min_null_count (opts st) + 1)) in *.
    assert (Hsched : schedule (since st (classic_parse st))
              = (if taken then [MSave] else []) ++ schedule L ++ [MFree taken]).
    { rewrite Hnew, !schedule_app, T2. destruct taken; reflexivity. }
    unfold pruned_null_counts, counted_null_counts. rewrite Hsched.
    destruct (Z.eqb_spec (min_null_count (opts st)) 0) as [Hmin0|Hmin0].
    + rewrite <- Ho0 in Hmin0.
      destruct (parse_loop_from_zero n st0 Hmin0) as (L' & HL' & Hshape).
      rewrite Ho0 in Hmin0. rewrite Hmin0 in *.
      rewrite HL in HL'. apply app_inv_head in HL'. subst L'.
      destruct Hshape as [(Hn & S)|[S|[S|(Hn & cs & S)]]]; rewrite S.
      * split; [left; destruct taken; reflexivity |].
        intros Hne. contradiction Hne. destruct taken; reflexivity.
      * split; [right; left; destruct taken; reflexivity |].
        intros _. destruct taken; reflexivity.
      * split; [right; left; destruct taken; reflexivity |].
        intros _. destruct taken; reflexivity.
      * split; [| intros _; destruct taken; reflexivity].
        right. right. split; [reflexivity |].
        rewrite <- app_assoc, omap_app,
          (omap_app _ [MPrune 0 0; MCount 0; MRestore; MPrune 1 1]),
          pruned_count_marks.
        destruct taken; reflexivity.
    + assert (Htaken : taken = false).
      { subst taken. destruct (Z.eqb_spec (min_null_count (opts st)) 0);
          [contradiction | reflexivity]. }
      rewrite Htaken. simpl.
      destruct (parse_loop_from_above n (min_null_count (opts st)) st0 Hmin0)
        as (L' & HL' & Hshape).
      rewrite HL in HL'. apply app_inv_head in HL'. subst L'.
      destruct Hshape as [(Hn & S)|(cs & S)]; rewrite S.
      * split; [now left |]. intros Hne. contradiction Hne. reflexivity.
      * rewrite Ho0. simpl. rewrite pruned_count_marks. simpl.
        split; [right; now left | reflexivity].
Qed.

(** X17.  When the clamped maximum null count lies below
    [min_null_count], the range of null counts is empty and
    [classic_parse] parses nothing: no snapshot of the disjuncts is
    taken, the sentence is neither pruned nor counted, and the linkages
    and counters that the sentence held before the call are all still
    there, the linkages at most reordered by [sort_linkages]. *)
Theorem empty_null_count_range st :
  clamped_max_null_count (sent st) (opts st) < min_null_count (opts st) ->
  let new := since st (classic_parse st) in
  (schedule new = [] \/ schedule new = [MFree false]) /\
  valid_counts new = [] /\
  opts (classic_parse st) = opts st /\
  frame (sent st) (sent (classic_parse st)).
Proof.
  intros Hempty. cbv zeta.
  destruct (classic_parse_spec st) as [[_ Hret]|[Hentry _]].
  - rewrite Hret. unfold since. simpl. rewrite drop_app_length.
    split; [now left |]. split; [reflexivity |]. split; [reflexivity |].
    apply frame_refl.
  - destruct (classic_parse_run st Hentry)
      as (st0 & L & tail & Hs0 & Ho0 & HL & Ho & Hf & _ & T2 & _ & T4 & Hnew).
    cbv zeta in HL, Ho, Hf.
    replace (Z.to_nat (clamped_max_null_count (sent st) (opts st)
                       - min_null_count (opts st) + 1)) with 0%nat in * by lia.
    cbn [parse_loop] in HL, Ho, Hf.
    assert (HLnil : L = []).
    { rewrite <- (app_nil_r (log st0)) in HL at 1.
      apply app_inv_head in HL. now symmetry. }
    subst L.
    assert (Htaken : (min_null_count (opts st) =? 0)
                     && (0 <? clamped_max_null_count (sent st) (opts st))
                     = false).
    { destruct (Z.eqb_spec (min_null_count (opts st)) 0); [| reflexivity].
      destruct (Z.ltb_spec 0 (clamped_max_null_count (sent st) (opts st)));
        [lia | reflexivity]. }
    rewrite Hnew, Htaken, !schedule_app, !valid_counts_app, T2, T4.
    split; [now right |]. split; [reflexivity |].
    split; [congruence |]. rewrite <- Hs0. exact Hf.
Qed.

End Pruning.

Lemma empty_null_count_range_witness :
  let st := start parsed_once (options 3 2 10) in
  clamped_max_null_count (sent st) (opts st) < min_null_count (opts st) /\
  opts (@classic_parse three_found st) = opts st.
Proof.
  cbv zeta.
  assert (H1 : clamped_max_null_count
                 (sent (start parsed_once (options 3 2 10)))
                 (opts (start parsed_once (options 3 2 10)))
               < min_null_count (opts (start parsed_once (options 3 2 10))))
    by (vm_compute; reflexivity).
  split; [exact H1 |].
  exact (proj1 (proj2 (proj2
           (@empty_null_count_range three_found
              (start parsed_once (options 3 2 10)) H1)))).
Defined.

(** ** The array of an earlier parse *)

Lemma array_releases_app l1 l2 :
  array_releases (l1 ++ l2) = array_releases l1 ++ array_releases l2.
Proof. apply omap_app. Qed.

Lemma sampler_releases_nothing chunk :
  forallb sampler_event chunk = true ->
  array_releases chunk = [] /\ counted_null_counts chunk = [].
Proof.
  induction chunk as [|e chunk IH]; intros Hs; [auto |].
  simpl in Hs. apply andb_prop in Hs as [He Hs].
  destruct (IH Hs) as [IA IC].
  destruct e; try discriminate He; simpl; auto.
Qed.

Lemma cleanup_releases_nothing tail :
  forallb cleanup_event tail = true ->
  array_releases tail = [] /\ counted_null_counts tail = [].
Proof.
  induction tail as [|e tail IH]; intros Hs; [auto |].
  simpl in Hs. apply andb_prop in Hs as [He Hs].
  destruct (IH Hs) as [IA IC].
  destruct e; try discriminate He; simpl; auto.
Qed.

Section StaleArray.
Context `{Collaborators}.

(** X18.  When [setup_linkages] finds that the sentence still holds the
    array of an earlier parse, it releases it with [free_linkages] after
    it has computed [num_linkages_alloced], and [free_linkages] (as the
    specification describes it: the array is released and the counts
    found, allocated and valid are set to zero) wipes both that value and
    the count found.  The array allocated next has no record,
    [process_linkages] does nothing, and the linkages just counted are
    lost: this is what the comment at the call warns of. *)
Theorem setup_linkages_stale_array st arr :
  lnkages (sent st) = Some arr ->
  num_linkages_found (sent st) <> 0 ->
  let ovfl := fst (setup_linkages st) in
  let st' := snd (setup_linkages st) in
  since st st' = [Ev_build_parse_set ovfl; Ev_free_linkages] /\
  num_linkages_found (sent st') = 0 /\
  num_linkages_alloced (sent st') = 0 /\
  num_valid_linkages (sent st') = 0 /\
  lnkages (sent st') = Some [] /\
  process_linkages ovfl st' = st'.
Proof.
  intros Harr Hfound. cbv zeta. unfold setup_linkages. cbv zeta.
  cbn [fst snd log sent opts emit on_sent on_opts].
  destruct (Z.eqb_spec (num_linkages_found (sent st)) 0) as [|_];
    [contradiction |].
  assert (E : forall a, lnkages (set_num_linkages_alloced a (sent st))
                        = Some arr) by (intros a; exact Harr).
  rewrite E. cbn [fst snd log sent opts emit on_sent on_opts].
  split; [apply since_app; cbn [log emit on_sent]; rewrite <- ?app_assoc;
          reflexivity |].
  split; [reflexivity |]. split; [reflexivity |]. split; [reflexivity |].
  split; [reflexivity |]. reflexivity.
Qed.

Lemma count_stage_releases nl st :
  let '(_, st') := count_stage nl st in
  exists chunk,
    log st' = log st ++ chunk /\
    length (array_releases chunk) = length (counted_null_counts chunk).
Proof.
  pose proof (count_stage_log nl st) as Hlog.
  destruct (count_stage nl st) as [brk st'].
  destruct Hlog as [Hlog|(hist & ovfl & chunk & v & Hlog & Hsamp)];
    eexists; (split; [exact Hlog |]); [reflexivity |].
  destruct (sampler_releases_nothing chunk Hsamp) as [EA EC].
  unfold counted_null_counts in *.
  rewrite !array_releases_app, !schedule_app, !omap_app, EA, EC.
  reflexivity.
Qed.

Lemma parse_pass_releases is0 nl done st :
  let '(_, _, st') := parse_pass is0 nl done st in
  exists chunk,
    log st' = log st ++ chunk /\
    length (array_releases chunk) = length (counted_null_counts chunk).
Proof.
  unfold parse_pass. destruct done.
  - pose proof (count_stage_releases nl st) as Hc.
    destruct (count_stage nl st) as [brk st']. exact Hc.
  - pose proof (prune_stage_log is0 nl st) as Hp.
    destruct (prune_stage is0 nl st) as [brk1 st1].
    destruct Hp as (pre & m & r & keep & Hlog1 & Hpre & _).
    destruct brk1.
    + eexists. split; [exact Hlog1 |].
      destruct Hpre as [-> | ->]; reflexivity.
    + pose proof (count_stage_releases nl st1) as Hc.
      destruct (count_stage nl st1) as [brk st'].
      destruct Hc as (chunk & Hlog & Hbal).
      eexists. split; [rewrite Hlog, Hlog1, <- !app_assoc; reflexivity |].
      destruct Hpre as [-> | ->], keep; simpl; exact Hbal.
Qed.

Lemma parse_loop_releases n is0 : forall nl done st,
  exists chunk,
    log (parse_loop n is0 nl done st) = log st ++ chunk /\
    length (array_releases chunk) = length (counted_null_counts chunk).
Proof.
  induction n as [|n IH]; intros nl done st; simpl.
  - exists []. rewrite app_nil_r. auto.
  - pose proof (parse_pass_releases is0 nl done st) as Hpass.
    destruct (parse_pass is0 nl done st) as [[brk done'] st1].
    destruct Hpass as (c1 & Hlog & Hbal).
    destruct brk; [exists c1; auto |].
    destruct (IH (nl + 1) done' st1) as (c2 & Hlog2 & Hbal2).
    exists (c1 ++ c2).
    split; [rewrite Hlog2, Hlog, app_assoc; reflexivity |].
    rewrite array_releases_app, counted_null_counts_app, !length_app. lia.
Qed.

(** X19.  In a run of [classic_parse] the linkage array is released
    once for each pass that counts, by the call of [free_linkages] right
    before [do_parse], and at no other place: [setup_linkages] always
    finds the sentence without an array, so its own call of
    [free_linkages] is never reached from [classic_parse]. *)
Theorem array_released_once_per_count st :
  let new := since st (classic_parse st) in
  length (array_releases new) = length (counted_null_counts new).
Proof.
  cbv zeta.
  destruct (classic_parse_spec st) as [[_ Hret]|[Hentry _]].
  - rewrite Hret. unfold since. simpl. rewrite drop_app_length. reflexivity.
  - destruct (classic_parse_run st Hentry)
      as (st0 & L & tail & _ & _ & HL & _ & _ & T1 & _ & _ & _ & Hnew).
    cbv zeta in HL.
    destruct (parse_loop_releases
                (Z.to_nat (clamped_max_null_count (sent st) (opts st)
                           - min_null_count (opts st) + 1))
                (min_null_count (opts st) =? 0)
                (min_null_count (opts st)) false st0)
      as (L' & HL' & Hbal).
    rewrite HL in HL'. apply app_inv_head in HL'. subst L'.
    destruct (cleanup_releases_nothing tail T1) as [TA TC].
    rewrite Hnew.
    rewrite !array_releases_app, !counted_null_counts_app, TA, TC, !length_app.
    destruct (_ && _); simpl; lia.
Qed.

End StaleArray.

Lemma setup_linkages_stale_array_witness :
  let st := start (set_num_linkages_found 7 parsed_once) (options 0 2 10) in
  lnkages (sent st)
  = Some [mkLinkage 0 4 5 [Some 0; Some 0; Some 0; Some 0; Some 0];
          mkLinkage 1 4 5 [Some 1; Some 1; Some 1; Some 1; Some 1];
          mkLinkage 2 4 5 [Some 2; Some 2; Some 2; Some 2; Some 2]] /\
  num_linkages_found (sent st) <> 0 /\
  num_linkages_found (sent (snd (@setup_linkages three_found st))) = 0.
Proof.
  cbv zeta.
  assert (H1 : lnkages (sent (start (set_num_linkages_found 7 parsed_once)
                                (options 0 2 10)))
               = Some [mkLinkage 0 4 5 [Some 0; Some 0; Some 0; Some 0; Some 0];
                       mkLinkage 1 4 5 [Some 1; Some 1; Some 1; Some 1; Some 1];
                       mkLinkage 2 4 5 [Some 2; Some 2; Some 2; Some 2; Some 2]])
    by (vm_compute; reflexivity).
  assert (H2 : num_linkages_found
                 (sent (start (set_num_linkages_found 7 parsed_once)
                          (options 0 2 10))) <> 0)
    by (vm_compute; discriminate).
  split; [exact H1 |]. split; [exact H2 |].
  exact (proj1 (proj2
           (@setup_linkages_stale_array three_found
              (start (set_num_linkages_found 7 parsed_once) (options 0 2 10))
              _ H1 H2))).
Defined.
